(** * Color decompression engine (CDE) of the gk20a GPU driver

    A shallow embedding of [drivers/gpu/nvgpu/gk20a/cde_gk20a.c]: the
    firmware image parser, the buffer allocator, the binary patcher, the
    command builder, the context pool with its submission path and the
    compression-state tracker, followed by the properties of these
    functions.

    Conventions of the embedding.
    - C integers are [Z]; fixed-width arithmetic is written out with the
      wrap-around of the width ([u32], [u64], [s32]).  The kernel is built
      with wrapping signed arithmetic ([-fno-strict-overflow]).
    - A C array is a function from the index to the cell ([array]); an
      index past the declared bound denotes the memory that follows the
      array, as it does for the C code.
    - Functions of the driver that are defined in other files (DMA and
      GMMU mapping, channels, fences, firmware loading) are not
      interpreted.  Each call is recorded as an [event], and what the call
      returns is read from an environment record handed to the caller.
    - Every function returns its C return value together with the state
      it leaves and the events it emitted, in program order.
    - A read of a field through the channel pointer of a context is the
      event [read_channel].  With the pointer [NULL] the read faults: the
      C program does not run past that event, and what the embedding
      gives after it (the events that follow, the state, the return
      value) is what the code would go on to do.  [faults] tells whether
      a trace holds such a read. *)

From Stdlib Require Import ZArith List Bool Lia.
From stdpp Require Import base list.
Import ListNotations.

Local Open Scope Z_scope.

(** ** Fixed-width integers *)

Definition u32 (x : Z) : Z := x mod 2 ^ 32.
Definition u64 (x : Z) : Z := x mod 2 ^ 64.

(** Conversion to [int] / [s32]: the low 32 bits, read as two's complement. *)
Definition s32 (x : Z) : Z :=
  let r := x mod 2 ^ 32 in if r <? 2 ^ 31 then r else r - 2 ^ 32.

(** [~x] on a [u64]. *)
Definition not64 (x : Z) : Z := u64 (Z.lnot x).

(** [u64_lo32] and [u64_hi32] of gk20a.h. *)
Definition u64_lo32 (x : Z) : Z := u32 x.
Definition u64_hi32 (x : Z) : Z := u32 (Z.shiftr x 32).

(** errno values *)
Definition ENOMEM : Z := 12.
Definition EINVAL : Z := 22.
Definition ENOSYS : Z := 38.

(** ** Arrays *)

Definition array (A : Type) : Type := Z -> A.

Definition aset {A} (a : array A) (i : Z) (v : A) : array A :=
  fun j => if j =? i then v else a j.

(** ** Declarations of the headers

    cde_gk20a.h, hw_pbdma_gk20a.h and the nvhost ioctl header are not part
    of the sources at hand.  Their enumerations are inductive types with
    one more constructor for every other value of the [u32] that carries
    the tag; their constants and macros are the fields of [cde_gk20a_h],
    over which the whole development is parametric. *)

Inductive reserved_param : Type :=
  | TYPE_PARAM_COMPTAGS_PER_CACHELINE
  | TYPE_PARAM_GPU_CONFIGURATION
  | TYPE_PARAM_FIRSTPAGEOFFSET
  | TYPE_PARAM_NUMPAGES
  | TYPE_PARAM_BACKINGSTORE
  | TYPE_PARAM_DESTINATION
  | TYPE_PARAM_DESTINATION_SIZE
  | TYPE_PARAM_BACKINGSTORE_SIZE
  | TYPE_PARAM_SOURCE_SMMU_ADDR
  | TYPE_PARAM_BACKINGSTORE_BASE_HW.

Class cde_gk20a_h : Type := {
  MAX_CDE_BUFS : Z;
  MAX_CDE_PARAMS : Z;
  MAX_CDE_USER_PARAMS : Z;
  (** the width in bits of an element of [user_param_values] *)
  user_param_value_bits : Z;
  MAX_CDE_OBJ_IDS : Z;
  NUM_RESERVED_PARAMS : Z;
  (** [ARRAY_SIZE(cde_app->cde_ctx)] *)
  NUM_CDE_CTX : Z;
  (** [sizeof(struct gk20a_cde_hdr_elem)] *)
  sizeof_hdr_elem : Z;
  (** which [case TYPE_PARAM_...] label of [gk20a_cde_patch_params], if
      any, a parameter id is equal to *)
  reserved_param_of : Z -> option reserved_param;
  (** the macro of hw_pbdma_gk20a.h that encodes a length in [entry1] *)
  pbdma_gp_entry1_length_f : Z -> Z;
  NVHOST_SUBMIT_GPFIFO_FLAGS_FENCE_GET : Z;
  (** bits of a compression-state mask *)
  NVHOST_GPU_COMPBITS_GPU : Z;
  NVHOST_GPU_COMPBITS_CDEH : Z;
  NVHOST_GPU_COMPBITS_CDEV : Z
}.

(** Modelled from the spec: the request "none" of the nvhost ioctl
    header, which the specification gives as 0. *)
Definition NVHOST_GPU_COMPBITS_NONE : Z := 0.

(** [TYPE_PARAM_TYPE_...]: how a patched value is stored. *)
Inductive param_type : Type :=
  | TYPE_PARAM_TYPE_U32
  | TYPE_PARAM_TYPE_U64_LITTLE
  | TYPE_PARAM_TYPE_U64_BIG
  | TYPE_PARAM_TYPE_unknown (type : Z).

(** [TYPE_BUF_COMMAND_...] *)
Inductive command_op : Type :=
  | TYPE_BUF_COMMAND_INIT
  | TYPE_BUF_COMMAND_CONVERT
  | TYPE_BUF_COMMAND_unknown (op : Z).

Record gk20a_cde_hdr_buf : Type := {
  buf_data_byte_offset : Z;
  buf_num_bytes : Z
}.

Record gk20a_cde_hdr_replace : Type := {
  replace_target_buf : Z;
  replace_source_buf : Z;
  replace_shift : Z;
  replace_type : param_type;
  replace_target_byte_offset : Z;
  replace_source_byte_offset : Z;
  replace_mask : Z
}.

Record gk20a_cde_hdr_param : Type := {
  param_id : Z;
  param_target_buf : Z;
  param_shift : Z;
  param_type_of : param_type;
  param_data_offset : Z;
  param_target_byte_offset : Z;
  param_mask : Z
}.

Record gk20a_cde_hdr_command : Type := {
  command_op_of : command_op;
  command_num_entries : Z;
  command_data_byte_offset : Z
}.

Record gk20a_cde_cmd_elem : Type := {
  cmd_target_buf : Z;
  cmd_target_byte_offset : Z;
  cmd_num_bytes : Z
}.

(** [struct gk20a_cde_hdr_elem]: the [type] tag and the union it selects. *)
Inductive gk20a_cde_hdr_elem : Type :=
  | TYPE_BUF (buf : gk20a_cde_hdr_buf)
  | TYPE_REPLACE (replace : gk20a_cde_hdr_replace)
  | TYPE_PARAM (param : gk20a_cde_hdr_param)
  | TYPE_REQUIRED_CLASS (required_class : Z)
  | TYPE_COMMAND (command : gk20a_cde_hdr_command)
  | TYPE_unknown (type : Z).

(** [struct gk20a_cde_param]: a parameter value supplied by the caller of
    a conversion. *)
Record gk20a_cde_param : Type := {
  user_id : Z;
  user_value : Z
}.

(** [struct nvhost_gpfifo] *)
Record nvhost_gpfifo : Type := {
  entry0 : Z;
  entry1 : Z
}.

(** ** Memory of a buffer

    A buffer is read and written through [u32 *] and [u64 *] pointers that
    are always a whole number of 32-bit words away from its start, so its
    memory is an array of 32-bit cells.  The CPU is little-endian: the
    [u64] at cell [p] has its low half in cell [p] and its high half in
    cell [p + 1]. *)

Definition cells : Type := array Z.

Definition load_u32 (m : cells) (p : Z) : Z := u32 (m p).

Definition store_u32 (m : cells) (p : Z) (v : Z) : cells := aset m p (u32 v).

Definition load_u64 (m : cells) (p : Z) : Z :=
  load_u32 m p + 2 ^ 32 * load_u32 m (p + 1).

Definition store_u64 (m : cells) (p : Z) (v : Z) : cells :=
  store_u32 (store_u32 m p (u64_lo32 v)) (p + 1) (u64_hi32 v).

(** ** Binary patcher: [gk20a_replace_data] *)

(** [(shift >= 0) ? value << shift : value >> -shift] on a [u64].  C
    defines the result for shift counts below 64 only; for the others the
    value here is the one of the unbounded shift, cut to 64 bits. *)
Definition shift_value (shift value : Z) : Z :=
  if 0 <=? shift then u64 (Z.shiftl value shift)
  else Z.shiftr value (- shift).

(** [(u64)(x >> 32) | (u64)(x << 32)] *)
Definition swap_halves (x : Z) : Z :=
  Z.lor (Z.shiftr x 32) (u64 (Z.shiftl x 32)).

(** The value read from the target, by type; [None] for a type that is
    none of the three. *)
Definition read_target (m : cells) (target : Z) (type : param_type) : option Z :=
  match type with
  | TYPE_PARAM_TYPE_U32 => Some (load_u32 m target)
  | TYPE_PARAM_TYPE_U64_LITTLE => Some (load_u64 m target)
  | TYPE_PARAM_TYPE_U64_BIG => Some (swap_halves (load_u64 m target))
  | TYPE_PARAM_TYPE_unknown _ => None
  end.

Definition gk20a_replace_data (m : cells) (target : Z) (type : param_type)
    (shift mask value : Z) : Z * cells :=
  let value := shift_value shift value in
  let value := Z.land value mask in
  (* read current data from the location *)
  match read_target m target type with
  | None => (- EINVAL, m)
  | Some current_value =>
      let current_value := Z.land current_value (not64 mask) in
      let new_value := Z.lor current_value value in
      (* store the element data back *)
      match type with
      | TYPE_PARAM_TYPE_U32 => (0, store_u32 m target (u32 new_value))
      | TYPE_PARAM_TYPE_U64_LITTLE => (0, store_u64 m target new_value)
      | _ => (0, store_u64 m target (swap_halves new_value))
      end
  end.

(** ** Calls into the rest of the driver and the kernel *)

(** The CPU address handed to [dma_free_coherent]: the pointer stored in
    the memory descriptor, or the address of the descriptor's [cpuva]
    field itself (buffer [buf] of the context). *)
Inductive cpu_addr : Type :=
  | cpuva_of (p : Z)
  | addr_of_cpuva_field (buf : Z).

(** [struct dma_buf]: an external buffer, by handle, with its size. *)
Record dma_buf : Type := {
  dmabuf_id : Z;
  dmabuf_size : Z
}.

Inductive event : Type :=
  (* device-coherent memory, scatter-gather tables, GMMU *)
  | dma_alloc_coherent (num_bytes cpuva iova : Z)
  | dma_free_coherent (num_bytes : Z) (addr : cpu_addr) (iova : Z)
  | gk20a_get_sgtable (cpuva iova num_bytes err sgt : Z)
  | gk20a_free_sgtable (sgt : Z)
  | kfree_sgt (buf : Z)
  | gk20a_gmmu_map (sgt num_bytes gpu_va : Z)
  | gk20a_gmmu_unmap (gpu_va num_bytes : Z)
  (* hardware object contexts and command lists *)
  | gk20a_alloc_obj_ctx (class_num err obj_id : Z)
  | gk20a_free_obj_ctx (obj_id : Z)
  | kzalloc_gpfifo (op : command_op) (num_elems : Z) (ok : bool)
  | kfree_gpfifo (op : command_op)
  (* firmware and channels *)
  | gk20a_request_firmware (found : bool)
  | release_firmware
  | gk20a_open_new_channel (ch : Z)
  (* a read of a field of the channel [ch] ([ch->vm], [ch->has_timedout]);
     it faults when [ch] is [NULL] *)
  | read_channel (ch : Z)
  | gk20a_free_channel (ch : Z)
  | gk20a_vm_get
  | gk20a_vm_put
  | channel_gk20a_commit_va (ch err : Z)
  | gk20a_alloc_channel_gpfifo (ch err : Z)
  | gk20a_channel_finish (ch err : Z)
  | channel_disable (ch : Z)
  | gk20a_fifo_preempt_channel (ch : Z)
  | channel_gk20a_unbind (ch : Z)
  | gr_gk20a_load_golden_ctx_image (ch : Z)
  | bind_channel (ch : Z)
  | channel_enable (ch : Z)
  | gk20a_submit_channel_gpfifo (ch : Z) (gpfifo : list nvhost_gpfifo)
      (num_entries flags err : Z)
  (* the pool *)
  | gk20a_busy
  | gk20a_idle
  | mutex_init
  | mutex_lock
  | mutex_unlock
  (* external buffers *)
  | gk20a_dmabuf_alloc_drvdata (buf : dma_buf) (err : Z)
  | get_dma_buf (buf : dma_buf)
  | dma_buf_put (buf : dma_buf)
  | gk20a_vm_map (buf : dma_buf) (kind vaddr : Z)
  | gk20a_vm_unmap (vaddr : Z)
  | gk20a_get_comptags (buf : dma_buf)
  (* per-surface compression state *)
  | dma_buf_get (fd : Z) (ok : bool)
  | gk20a_dmabuf_get_state (buf : dma_buf) (offset err : Z)
  | state_mutex_lock
  | state_mutex_unlock
  | gk20a_fence_put (fence : option Z)
  | gk20a_fence_get (fence : Z).

(** ** Driver state *)

(** [struct gk20a_cde_mem_desc]; [data] is the memory [cpuva] points to. *)
Record gk20a_cde_mem_desc : Type := {
  sgt : Z;
  iova : Z;
  cpuva : Z;
  data : cells;
  num_bytes : Z;
  gpu_va : Z
}.

(** [struct gk20a_cde_ctx].  A command list is [None] for a [NULL]
    pointer. *)
Record gk20a_cde_ctx : Type := {
  ch : Z;
  vm : Z;
  mem : array gk20a_cde_mem_desc;
  num_bufs : Z;
  params : array gk20a_cde_hdr_param;
  num_params : Z;
  user_param_values : array Z;
  src_vaddr : Z;
  src_param_offset : Z;
  src_param_lines : Z;
  backing_store_vaddr : Z;
  dest_vaddr : Z;
  dest_size : Z;
  obj_ids : array Z;
  num_obj_ids : Z;
  init_cmd : option (list nvhost_gpfifo);
  init_cmd_num_entries : Z;
  convert_cmd : option (list nvhost_gpfifo);
  convert_cmd_num_entries : Z
}.

(** The fields of [struct gk20a] and of its [gr] member that the engine
    reads. *)
Record gk20a_hw : Type := {
  ltc_count : Z;
  comptags_per_cacheline : Z;
  slices_per_ltc : Z;
  cacheline_size : Z;
  compbit_store_sgt : Z;
  compbit_store_size : Z;
  compbit_store_base_hw : Z;
  pmu_vm : Z
}.

(** [struct gk20a_cde_app] *)
Record gk20a_cde_app : Type := {
  initialised : bool;
  app_vm : Z;
  cde_ctx : array gk20a_cde_ctx;
  cde_ctx_ptr : Z;
  shader_parameter : Z
}.

(** [struct firmware], with the three views the parser takes of its
    bytes: the header element array that follows the two header words
    ([data[1]] is its length), the command element array found at a byte
    offset, and the bytes themselves. *)
Record firmware : Type := {
  size : Z;
  version : Z;
  elems : list gk20a_cde_hdr_elem;
  cmd_elems : Z -> array gk20a_cde_cmd_elem;
  bytes : array Z
}.

Definition num_of_elems (img : firmware) : Z := Z.of_nat (length (elems img)).

(** *** Field updates *)

Definition set_data (m : gk20a_cde_mem_desc) (d : cells) : gk20a_cde_mem_desc :=
  {| sgt := sgt m; iova := iova m; cpuva := cpuva m; data := d;
     num_bytes := num_bytes m; gpu_va := gpu_va m |}.

Definition set_mem (c : gk20a_cde_ctx) (v : array gk20a_cde_mem_desc) : gk20a_cde_ctx :=
  let '(Build_gk20a_cde_ctx a1 a2 _ a4 a5 a6 a7 a8 a9 a10 a11 a12 a13 a14 a15 a16 a17 a18 a19) := c in
  Build_gk20a_cde_ctx a1 a2 v a4 a5 a6 a7 a8 a9 a10 a11 a12 a13 a14 a15 a16 a17 a18 a19.

Definition set_num_bufs (c : gk20a_cde_ctx) (v : Z) : gk20a_cde_ctx :=
  let '(Build_gk20a_cde_ctx a1 a2 a3 _ a5 a6 a7 a8 a9 a10 a11 a12 a13 a14 a15 a16 a17 a18 a19) := c in
  Build_gk20a_cde_ctx a1 a2 a3 v a5 a6 a7 a8 a9 a10 a11 a12 a13 a14 a15 a16 a17 a18 a19.

Definition set_params (c : gk20a_cde_ctx) (v : array gk20a_cde_hdr_param) : gk20a_cde_ctx :=
  let '(Build_gk20a_cde_ctx a1 a2 a3 a4 _ a6 a7 a8 a9 a10 a11 a12 a13 a14 a15 a16 a17 a18 a19) := c in
  Build_gk20a_cde_ctx a1 a2 a3 a4 v a6 a7 a8 a9 a10 a11 a12 a13 a14 a15 a16 a17 a18 a19.

Definition set_num_params (c : gk20a_cde_ctx) (v : Z) : gk20a_cde_ctx :=
  let '(Build_gk20a_cde_ctx a1 a2 a3 a4 a5 _ a7 a8 a9 a10 a11 a12 a13 a14 a15 a16 a17 a18 a19) := c in
  Build_gk20a_cde_ctx a1 a2 a3 a4 a5 v a7 a8 a9 a10 a11 a12 a13 a14 a15 a16 a17 a18 a19.

Definition set_user_param_values (c : gk20a_cde_ctx) (v : array Z) : gk20a_cde_ctx :=
  let '(Build_gk20a_cde_ctx a1 a2 a3 a4 a5 a6 _ a8 a9 a10 a11 a12 a13 a14 a15 a16 a17 a18 a19) := c in
  Build_gk20a_cde_ctx a1 a2 a3 a4 a5 a6 v a8 a9 a10 a11 a12 a13 a14 a15 a16 a17 a18 a19.

Definition set_obj_ids (c : gk20a_cde_ctx) (v : array Z) : gk20a_cde_ctx :=
  let '(Build_gk20a_cde_ctx a1 a2 a3 a4 a5 a6 a7 a8 a9 a10 a11 a12 a13 _ a15 a16 a17 a18 a19) := c in
  Build_gk20a_cde_ctx a1 a2 a3 a4 a5 a6 a7 a8 a9 a10 a11 a12 a13 v a15 a16 a17 a18 a19.

Definition set_num_obj_ids (c : gk20a_cde_ctx) (v : Z) : gk20a_cde_ctx :=
  let '(Build_gk20a_cde_ctx a1 a2 a3 a4 a5 a6 a7 a8 a9 a10 a11 a12 a13 a14 _ a16 a17 a18 a19) := c in
  Build_gk20a_cde_ctx a1 a2 a3 a4 a5 a6 a7 a8 a9 a10 a11 a12 a13 a14 v a16 a17 a18 a19.

Definition set_init_cmd (c : gk20a_cde_ctx) (v : option (list nvhost_gpfifo)) : gk20a_cde_ctx :=
  let '(Build_gk20a_cde_ctx a1 a2 a3 a4 a5 a6 a7 a8 a9 a10 a11 a12 a13 a14 a15 _ a17 a18 a19) := c in
  Build_gk20a_cde_ctx a1 a2 a3 a4 a5 a6 a7 a8 a9 a10 a11 a12 a13 a14 a15 v a17 a18 a19.

Definition set_init_cmd_num_entries (c : gk20a_cde_ctx) (v : Z) : gk20a_cde_ctx :=
  let '(Build_gk20a_cde_ctx a1 a2 a3 a4 a5 a6 a7 a8 a9 a10 a11 a12 a13 a14 a15 a16 _ a18 a19) := c in
  Build_gk20a_cde_ctx a1 a2 a3 a4 a5 a6 a7 a8 a9 a10 a11 a12 a13 a14 a15 a16 v a18 a19.

Definition set_convert_cmd (c : gk20a_cde_ctx) (v : option (list nvhost_gpfifo)) : gk20a_cde_ctx :=
  let '(Build_gk20a_cde_ctx a1 a2 a3 a4 a5 a6 a7 a8 a9 a10 a11 a12 a13 a14 a15 a16 a17 _ a19) := c in
  Build_gk20a_cde_ctx a1 a2 a3 a4 a5 a6 a7 a8 a9 a10 a11 a12 a13 a14 a15 a16 a17 v a19.

Definition set_convert_cmd_num_entries (c : gk20a_cde_ctx) (v : Z) : gk20a_cde_ctx :=
  let '(Build_gk20a_cde_ctx a1 a2 a3 a4 a5 a6 a7 a8 a9 a10 a11 a12 a13 a14 a15 a16 a17 a18 _) := c in
  Build_gk20a_cde_ctx a1 a2 a3 a4 a5 a6 a7 a8 a9 a10 a11 a12 a13 a14 a15 a16 a17 a18 v.

(** [cde_ctx->ch = ch; cde_ctx->vm = ch->vm; cde_ctx->backing_store_vaddr
    = vaddr] *)
Definition set_channel (c : gk20a_cde_ctx) (ch' vm' vaddr : Z) : gk20a_cde_ctx :=
  let '(Build_gk20a_cde_ctx _ _ a3 a4 a5 a6 a7 a8 a9 a10 _ a12 a13 a14 a15 a16 a17 a18 a19) := c in
  Build_gk20a_cde_ctx ch' vm' a3 a4 a5 a6 a7 a8 a9 a10 vaddr a12 a13 a14 a15 a16 a17 a18 a19.

(** [cde_ctx->src_vaddr], [src_param_offset], [src_param_lines],
    [dest_vaddr] and [dest_size] of one conversion. *)
Definition set_conversion (c : gk20a_cde_ctx) (src off lines dest dsize : Z) : gk20a_cde_ctx :=
  let '(Build_gk20a_cde_ctx a1 a2 a3 a4 a5 a6 a7 _ _ _ a11 _ _ a14 a15 a16 a17 a18 a19) := c in
  Build_gk20a_cde_ctx a1 a2 a3 a4 a5 a6 a7 src off lines a11 dest dsize a14 a15 a16 a17 a18 a19.

Definition set_ctx (a : gk20a_cde_app) (i : Z) (c : gk20a_cde_ctx) : gk20a_cde_app :=
  {| initialised := initialised a; app_vm := app_vm a;
     cde_ctx := aset (cde_ctx a) i c; cde_ctx_ptr := cde_ctx_ptr a;
     shader_parameter := shader_parameter a |}.

Definition set_cde_ctx_ptr (a : gk20a_cde_app) (p : Z) : gk20a_cde_app :=
  {| initialised := initialised a; app_vm := app_vm a;
     cde_ctx := cde_ctx a; cde_ctx_ptr := p;
     shader_parameter := shader_parameter a |}.

Definition set_initialised (a : gk20a_cde_app) (b : bool) : gk20a_cde_app :=
  {| initialised := b; app_vm := app_vm a;
     cde_ctx := cde_ctx a; cde_ctx_ptr := cde_ctx_ptr a;
     shader_parameter := shader_parameter a |}.

Definition set_app_vm (a : gk20a_cde_app) (v : Z) : gk20a_cde_app :=
  {| initialised := initialised a; app_vm := v;
     cde_ctx := cde_ctx a; cde_ctx_ptr := cde_ctx_ptr a;
     shader_parameter := shader_parameter a |}.

(** The indices [0 .. n-1] of a [for (i = 0; i < n; i++)] loop. *)
Definition upto (n : Z) : list Z := map Z.of_nat (seq 0 (Z.to_nat n)).

(** ** What the calls return

    One record per function of the engine, with one field per call the
    function makes outside this file. *)

(** [gk20a_init_cde_buf]: [dma_alloc_coherent] (CPU pointer, 0 for [NULL];
    bus address; the memory obtained), [gk20a_get_sgtable] (status and
    table), [gk20a_gmmu_map] (GPU address, 0 for failure). *)
Record buf_env : Type := {
  alloc_cpuva : Z;
  alloc_iova : Z;
  alloc_data : cells;
  sgtable_err : Z;
  sgtable_sgt : Z;
  gmmu_map_va : Z
}.

(** One header element: the buffer calls, [gk20a_alloc_obj_ctx] (status
    and object id) and whether [kzalloc] returns memory. *)
Record elem_env : Type := {
  env_buf : buf_env;
  obj_ctx_err : Z;
  obj_ctx_id : Z;
  kzalloc_ok : bool
}.

(** [gk20a_cde_load]: the firmware ([None] when it cannot be fetched), the
    new channel (0 for [NULL]), the statuses of [channel_gk20a_commit_va]
    and [gk20a_alloc_channel_gpfifo], the GPU address of the backing store
    (0 for failure), and the calls of each header element by index. *)
Record load_env : Type := {
  env_firmware : option firmware;
  env_channel : Z;
  env_commit_va : Z;
  env_alloc_gpfifo : Z;
  env_backing_store : Z;
  env_elems : array elem_env
}.

(** One [gk20a_cde_load] per pool slot. *)
Definition pool_env : Type := array load_env.

(** [gk20a_cde_convert] *)
Record convert_env : Type := {
  env_dst_drvdata : Z;
  env_dst_vaddr : Z;
  env_src_drvdata : Z;
  env_src_vaddr : Z;
  (** [cde_ctx->ch->has_timedout] as read *)
  env_has_timedout : bool;
  env_reload : pool_env;
  env_channel_finish : Z;
  env_comptags_offset : Z;
  env_comptags_lines : Z;
  (** [gk20a_mm_gpuva_to_iova] of the source address *)
  env_src_iova : Z;
  env_submit_init : Z;
  env_submit_convert : Z;
  (** the fence a successful submission hands back *)
  env_fence_out : Z
}.

(** [gk20a_buffer_convert_gpu_to_cde] *)
Record gpu_to_cde_env : Type := {
  env_init_support : pool_env;
  env_convert : convert_env
}.

(** [gk20a_prepare_compressible_read] *)
Record prepare_env : Type := {
  env_prepare_reload : pool_env;
  env_dmabuf : option dma_buf;
  env_get_state : Z;
  env_cdeh : gpu_to_cde_env;
  env_cdev : gpu_to_cde_env
}.

Section Engine.

Context {hdr : cde_gk20a_h}.

(** ** Context tear-down: [gk20a_deinit_cde_img] *)

Definition deinit_buf (c : gk20a_cde_ctx) (i : Z) : list event :=
  let m := mem c i in
  [ gk20a_gmmu_unmap (gpu_va m) (num_bytes m);
    gk20a_free_sgtable (sgt m);
    dma_free_coherent (num_bytes m) (cpuva_of (cpuva m)) (iova m) ].

Definition clear_img (c : gk20a_cde_ctx) : gk20a_cde_ctx :=
  let c := set_convert_cmd c None in
  let c := set_init_cmd c None in
  let c := set_num_bufs c 0 in
  let c := set_num_obj_ids c 0 in
  let c := set_num_params c 0 in
  let c := set_init_cmd_num_entries c 0 in
  set_convert_cmd_num_entries c 0.

Definition gk20a_deinit_cde_img (c : gk20a_cde_ctx) : gk20a_cde_ctx * list event :=
  (clear_img c,
   flat_map (deinit_buf c) (upto (num_bufs c))
   ++ map (fun i => gk20a_free_obj_ctx (obj_ids c i)) (upto (num_obj_ids c))
   ++ [kfree_gpfifo TYPE_BUF_COMMAND_INIT; kfree_gpfifo TYPE_BUF_COMMAND_CONVERT]).

(** ** Buffer allocator: [gk20a_init_cde_buf] *)

(** Byte [j] of a 32-bit cell, and [memcpy] of [n] bytes from a byte
    array into cells (little-endian; a cell that is covered in part
    keeps its other bytes). *)
Definition byte_of (w j : Z) : Z := (w / 2 ^ (8 * j)) mod 256.

Definition memcpy (dst : cells) (src : array Z) (n : Z) : cells :=
  fun k =>
    let b j := if (0 <=? 4 * k + j) && (4 * k + j <? n)
               then src (4 * k + j) mod 256
               else byte_of (u32 (dst k)) j in
    b 0 + 2 ^ 8 * b 1 + 2 ^ 16 * b 2 + 2 ^ 24 * b 3.

Definition gk20a_init_cde_buf (c : gk20a_cde_ctx) (img : firmware)
    (buf : gk20a_cde_hdr_buf) (e : buf_env) : Z * gk20a_cde_ctx * list event :=
  (* check that the file can hold the buf *)
  if negb (buf_data_byte_offset buf =? 0)
     && (size img <? u64 (buf_data_byte_offset buf + buf_num_bytes buf))
  then (- EINVAL, c, [])
  (* check that we have enough buf elems available *)
  else if num_bufs c >? MAX_CDE_BUFS then (- ENOMEM, c, [])
  else
    (* allocate buf *)
    let idx := num_bufs c in
    let m := {| sgt := sgt (mem c idx); iova := alloc_iova e;
                cpuva := alloc_cpuva e; data := alloc_data e;
                num_bytes := buf_num_bytes buf; gpu_va := gpu_va (mem c idx) |} in
    let ev := [dma_alloc_coherent (num_bytes m) (cpuva m) (iova m)] in
    if cpuva m =? 0 then (- ENOMEM, set_mem c (aset (mem c) idx m), ev)
    else
      let m := {| sgt := sgtable_sgt e; iova := iova m; cpuva := cpuva m;
                  data := data m; num_bytes := num_bytes m; gpu_va := gpu_va m |} in
      let ev := ev ++ [gk20a_get_sgtable (cpuva m) (iova m) (num_bytes m)
                         (sgtable_err e) (sgtable_sgt e)] in
      if negb (sgtable_err e =? 0) then
        (* err_get_sgtable *)
        (- ENOMEM, set_mem c (aset (mem c) idx m),
         ev ++ [dma_free_coherent (num_bytes m) (addr_of_cpuva_field idx) (iova m)])
      else
        let m := {| sgt := sgt m; iova := iova m; cpuva := cpuva m;
                    data := data m; num_bytes := num_bytes m;
                    gpu_va := gmmu_map_va e |} in
        let ev := ev ++ [gk20a_gmmu_map (sgt m) (num_bytes m) (gpu_va m)] in
        if gpu_va m =? 0 then
          (* err_map_buffer, then err_get_sgtable *)
          (- ENOMEM, set_mem c (aset (mem c) idx m),
           ev ++ [gk20a_free_sgtable (sgt m); kfree_sgt idx;
                  dma_free_coherent (num_bytes m) (addr_of_cpuva_field idx) (iova m)])
        else
          (* copy the content *)
          let m := if negb (buf_data_byte_offset buf =? 0)
                   then set_data m (memcpy (data m)
                                      (fun j => bytes img (buf_data_byte_offset buf + j))
                                      (buf_num_bytes buf))
                   else m in
          (0, set_num_bufs (set_mem c (aset (mem c) idx m)) (num_bufs c + 1), ev).

(** ** Static relocations: [gk20a_init_cde_replace]

    Byte offsets are 64-bit; their sums wrap at 64 bits and are compared
    with buffer sizes as unsigned numbers, as on the 64-bit build. *)

Definition gk20a_init_cde_replace (c : gk20a_cde_ctx) (img : firmware)
    (replace : gk20a_cde_hdr_replace) : Z * gk20a_cde_ctx * list event :=
  if (replace_target_buf replace >=? num_bufs c)
     || (replace_source_buf replace >=? num_bufs c)
  then (- EINVAL, c, [])
  else
    let source_mem := mem c (replace_source_buf replace) in
    let target_mem := mem c (replace_target_buf replace) in
    if (num_bytes source_mem <? u64 (replace_source_byte_offset replace + 3))
       || (num_bytes target_mem <? u64 (replace_target_byte_offset replace + 3))
    then (- EINVAL, c, [])
    else
      (* calculate the target pointer *)
      let target_mem_ptr := replace_target_byte_offset replace / 4 in
      (* determine patch value *)
      let vaddr := u64 (gpu_va source_mem + replace_source_byte_offset replace) in
      let '(err, d) := gk20a_replace_data (data target_mem) target_mem_ptr
                         (replace_type replace) (replace_shift replace)
                         (replace_mask replace) vaddr in
      (err, set_mem c (aset (mem c) (replace_target_buf replace) (set_data target_mem d)), []).

(** ** Parameter declarations: [gk20a_init_cde_param] *)

Definition gk20a_init_cde_param (c : gk20a_cde_ctx) (img : firmware)
    (param : gk20a_cde_hdr_param) : Z * gk20a_cde_ctx * list event :=
  if param_target_buf param >=? num_bufs c then (- EINVAL, c, [])
  else
    let target_mem := mem c (param_target_buf param) in
    if num_bytes target_mem <? u64 (param_target_byte_offset param + 3)
    then (- EINVAL, c, [])
    (* does this parameter fit into our parameter structure *)
    else if num_params c >=? MAX_CDE_PARAMS then (- ENOMEM, c, [])
    (* is the given id valid? *)
    else if param_id param >=? NUM_RESERVED_PARAMS + MAX_CDE_USER_PARAMS
    then (- EINVAL, c, [])
    else
      (0, set_num_params (set_params c (aset (params c) (num_params c) param))
            (num_params c + 1), []).

(** ** Required hardware contexts: [gk20a_init_cde_required_class] *)

Definition gk20a_init_cde_required_class (c : gk20a_cde_ctx) (img : firmware)
    (required_class : Z) (e : elem_env) : Z * gk20a_cde_ctx * list event :=
  if num_obj_ids c >=? MAX_CDE_OBJ_IDS then (- ENOMEM, c, [])
  else
    let ev := [gk20a_alloc_obj_ctx required_class (obj_ctx_err e) (obj_ctx_id e)] in
    if negb (obj_ctx_err e =? 0) then (obj_ctx_err e, c, ev)
    else
      (0, set_num_obj_ids (set_obj_ids c (aset (obj_ids c) (num_obj_ids c) (obj_ctx_id e)))
            (num_obj_ids c + 1), ev).

(** ** Command builder: [gk20a_init_cde_command] *)

(** The loop over the command elements: the status, and the entries as
    far as they were written. *)
Fixpoint fill_gpfifo (c : gk20a_cde_ctx) (cmd_elem : array gk20a_cde_cmd_elem)
    (indices : list Z) (gpfifo : list nvhost_gpfifo) : Z * list nvhost_gpfifo :=
  match indices with
  | [] => (0, gpfifo)
  | i :: rest =>
      let ce := cmd_elem i in
      (* validate the current entry *)
      if cmd_target_buf ce >=? num_bufs c then (- EINVAL, gpfifo)
      else
        let target_mem := mem c (cmd_target_buf ce) in
        if num_bytes target_mem <? u64 (cmd_target_byte_offset ce + cmd_num_bytes ce)
        then (- EINVAL, gpfifo)
        else
          (* store the element into gpfifo *)
          let va := u64 (gpu_va target_mem + cmd_target_byte_offset ce) in
          let entry := {| entry0 := u64_lo32 va;
                          entry1 := Z.lor (u64_hi32 va)
                                      (pbdma_gp_entry1_length_f (cmd_num_bytes ce / 4)) |} in
          fill_gpfifo c cmd_elem rest (<[Z.to_nat i := entry]> gpfifo)
  end.

Definition set_cmd (c : gk20a_cde_ctx) (op : command_op)
    (gpfifo : option (list nvhost_gpfifo)) : gk20a_cde_ctx :=
  match op with
  | TYPE_BUF_COMMAND_INIT => set_init_cmd c gpfifo
  | _ => set_convert_cmd c gpfifo
  end.

Definition set_cmd_num_entries (c : gk20a_cde_ctx) (op : command_op) (n : Z) : gk20a_cde_ctx :=
  match op with
  | TYPE_BUF_COMMAND_INIT => set_init_cmd_num_entries c n
  | _ => set_convert_cmd_num_entries c n
  end.

Definition gk20a_init_cde_command (c : gk20a_cde_ctx) (img : firmware)
    (op : command_op) (cmd_elem : array gk20a_cde_cmd_elem) (num_elems : Z)
    (e : elem_env) : Z * gk20a_cde_ctx * list event :=
  (* check command type *)
  match op with
  | TYPE_BUF_COMMAND_unknown _ => (- EINVAL, c, [])
  | _ =>
      (* allocate gpfifo entries to be pushed *)
      let ev := [kzalloc_gpfifo op num_elems (kzalloc_ok e)] in
      if negb (kzalloc_ok e) then (- ENOMEM, set_cmd c op None, ev)
      else
        let zeroed := repeat {| entry0 := 0; entry1 := 0 |} (Z.to_nat num_elems) in
        let '(err, gpfifo) := fill_gpfifo c cmd_elem (upto num_elems) zeroed in
        let c := set_cmd c op (Some gpfifo) in
        if negb (err =? 0) then (err, c, ev)
        else (0, set_cmd_num_entries c op num_elems, ev)
  end.

(** ** Firmware image parser: [gk20a_init_cde_img] *)

(** The body of the [switch] for one header element. *)
Definition init_cde_elem (c : gk20a_cde_ctx) (img : firmware)
    (elem : gk20a_cde_hdr_elem) (e : elem_env) : Z * gk20a_cde_ctx * list event :=
  match elem with
  | TYPE_BUF buf => gk20a_init_cde_buf c img buf (env_buf e)
  | TYPE_REPLACE replace => gk20a_init_cde_replace c img replace
  | TYPE_PARAM param => gk20a_init_cde_param c img param
  | TYPE_REQUIRED_CLASS required_class =>
      gk20a_init_cde_required_class c img required_class e
  | TYPE_COMMAND command =>
      gk20a_init_cde_command c img (command_op_of command)
        (cmd_elems img (command_data_byte_offset command))
        (command_num_entries command) e
  | TYPE_unknown _ => (- EINVAL, c, [])
  end.

(** The loop over the header elements, from element [i] on; it stops at
    the first element whose handler fails.  The status is the [err] that
    the loop body declares. *)
Fixpoint init_cde_elems (c : gk20a_cde_ctx) (img : firmware) (env : array elem_env)
    (i : Z) (es : list gk20a_cde_hdr_elem) : Z * gk20a_cde_ctx * list event :=
  match es with
  | [] => (0, c, [])
  | elem :: rest =>
      let '(err, c, ev) := init_cde_elem c img elem (env i) in
      if negb (err =? 0) then (err, c, ev)
      else
        let '(err, c, ev') := init_cde_elems c img env (i + 1) rest in
        (err, c, ev ++ ev')
  end.

Definition is_null {A} (p : option A) : bool :=
  match p with None => true | Some _ => false end.

(** [deinit_image:] *)
Definition deinit_image (err : Z) (c : gk20a_cde_ctx) (ev : list event)
    : Z * gk20a_cde_ctx * list event :=
  let '(c, ev') := gk20a_deinit_cde_img c in (err, c, ev ++ ev').

Definition gk20a_init_cde_img (c : gk20a_cde_ctx) (img : firmware)
    (env : array elem_env) : Z * gk20a_cde_ctx * list event :=
  let min_size := 2 * 4 in
  if size img <? min_size then (- EINVAL, c, [])
  else
    let min_size := u32 (min_size + num_of_elems img * sizeof_hdr_elem) in
    if size img <? min_size then (- EINVAL, c, [])
    else
      let '(err, c, ev) := init_cde_elems c img env 0 (elems img) in
      (* the [err] that the loop body declares shadows the [err] of the
         function, which still holds 0 when a handler fails *)
      if negb (err =? 0) then deinit_image 0 c ev
      else if is_null (init_cmd c) || (init_cmd_num_entries c =? 0)
      then deinit_image (- EINVAL) c ev
      else if is_null (convert_cmd c) || (convert_cmd_num_entries c =? 0)
      then deinit_image (- EINVAL) c ev
      else (0, c, ev).

(** ** Per-conversion patching: [gk20a_cde_patch_params] *)

(** The [switch] on the parameter id: the value to patch in and the local
    variable [err] as the switch leaves it, or [None] where the [default]
    branch executes [continue].  [src_iova] is what
    [gk20a_mm_gpuva_to_iova] returns for the source address.  The three
    factors of the GPU configuration are [u32], and so is their
    product. *)
Definition patch_value (g : gk20a_hw) (c : gk20a_cde_ctx) (src_iova : Z)
    (param : gk20a_cde_hdr_param) (err : Z) : option (Z * Z) :=
  match reserved_param_of (param_id param) with
  | Some TYPE_PARAM_COMPTAGS_PER_CACHELINE => Some (comptags_per_cacheline g, err)
  | Some TYPE_PARAM_GPU_CONFIGURATION =>
      Some (u32 (ltc_count g * slices_per_ltc g * cacheline_size g), err)
  | Some TYPE_PARAM_FIRSTPAGEOFFSET => Some (src_param_offset c, err)
  | Some TYPE_PARAM_NUMPAGES => Some (src_param_lines c, err)
  | Some TYPE_PARAM_BACKINGSTORE => Some (backing_store_vaddr c, err)
  | Some TYPE_PARAM_DESTINATION => Some (dest_vaddr c, err)
  | Some TYPE_PARAM_DESTINATION_SIZE => Some (dest_size c, err)
  | Some TYPE_PARAM_BACKINGSTORE_SIZE => Some (compbit_store_size g, err)
  | Some TYPE_PARAM_SOURCE_SMMU_ADDR =>
      let new_data := src_iova in
      Some (new_data, if new_data =? 0 then - EINVAL else err)
  | Some TYPE_PARAM_BACKINGSTORE_BASE_HW => Some (compbit_store_base_hw g, err)
  | None =>
      let user_id := s32 (param_id param - NUM_RESERVED_PARAMS) in
      if (user_id <? 0) || (user_id >=? MAX_CDE_USER_PARAMS) then None
      else Some (user_param_values c user_id, err)
  end.

(** The loop over the declared parameters; [err] is the local variable of
    the function. *)
Fixpoint patch_params_from (g : gk20a_hw) (c : gk20a_cde_ctx) (src_iova : Z)
    (indices : list Z) (err : Z) : Z * gk20a_cde_ctx :=
  match indices with
  | [] => (0, c)
  | i :: rest =>
      let param := params c i in
      let target_mem := mem c (param_target_buf param) in
      let target_mem_ptr := param_target_byte_offset param / 4 in
      match patch_value g c src_iova param err with
      | None => patch_params_from g c src_iova rest err
      | Some (new_data, err) =>
          let new_data := u64 (new_data + param_data_offset param) in
          let '(err, d) := gk20a_replace_data (data target_mem) target_mem_ptr
                             (param_type_of param) (param_shift param)
                             (param_mask param) new_data in
          let c := set_mem c (aset (mem c) (param_target_buf param)
                                (set_data target_mem d)) in
          if negb (err =? 0) then (err, c)
          else patch_params_from g c src_iova rest err
      end
  end.

(** [err] is not initialised; no path reads it before it is assigned. *)
Definition gk20a_cde_patch_params (g : gk20a_hw) (c : gk20a_cde_ctx)
    (src_iova : Z) : Z * gk20a_cde_ctx :=
  patch_params_from g c src_iova (upto (num_params c)) 0.

(** ** Submission: [gk20a_cde_execute_buffer] *)

Definition gk20a_cde_execute_buffer (c : gk20a_cde_ctx) (op : command_op)
    (flags : Z) (submit_err : Z) : Z * list event :=
  (* check command type *)
  match op with
  | TYPE_BUF_COMMAND_unknown _ => (- EINVAL, [])
  | _ =>
      let gpfifo := match op with
                    | TYPE_BUF_COMMAND_INIT => init_cmd c
                    | _ => convert_cmd c
                    end in
      let num_entries := match op with
                         | TYPE_BUF_COMMAND_INIT => init_cmd_num_entries c
                         | _ => convert_cmd_num_entries c
                         end in
      match gpfifo with
      | None => (- ENOSYS, [])
      | Some entries =>
          if num_entries =? 0 then (- ENOSYS, [])
          else (submit_err,
                [gk20a_submit_channel_gpfifo (ch c) entries num_entries flags submit_err])
      end
  end.

(** ** The context pool *)

(** [gk20a_cde_remove].  The function starts by reading [ch->vm]; with
    a context that holds no channel ([ch] is [NULL]) this read faults. *)
Definition gk20a_cde_remove (g : gk20a_hw) (c : gk20a_cde_ctx)
    : Z * gk20a_cde_ctx * list event :=
  (* vm = ch->vm *)
  let ev0 := [read_channel (ch c)] in
  (* free the channel, then release mapped memory *)
  let '(c', ev) := gk20a_deinit_cde_img c in
  (0, c',
   ev0 ++ [gk20a_free_channel (ch c)] ++ ev
   ++ [gk20a_gmmu_unmap (backing_store_vaddr c) (compbit_store_size g)]).

(** [gk20a_cde_load] *)
Definition gk20a_cde_load (g : gk20a_hw) (c : gk20a_cde_ctx) (e : load_env)
    : Z * gk20a_cde_ctx * list event :=
  match env_firmware e with
  | None => (- ENOSYS, c, [gk20a_request_firmware false])
  | Some img =>
      let ev := [gk20a_request_firmware true; gk20a_open_new_channel (env_channel e)] in
      let ch := env_channel e in
      if ch =? 0 then
        (* err_get_gk20a_channel *)
        (- ENOMEM, c, ev ++ [release_firmware])
      else
        (* bind the channel to the vm *)
        let ev := ev ++ [gk20a_vm_get; channel_gk20a_commit_va ch (env_commit_va e)] in
        let err := env_commit_va e in
        if negb (err =? 0) then
          (* err_commit_va *)
          (err, c, ev ++ [release_firmware])
        else
          (* allocate gpfifo *)
          let ev := ev ++ [gk20a_alloc_channel_gpfifo ch (env_alloc_gpfifo e)] in
          let err := env_alloc_gpfifo e in
          if negb (err =? 0) then
            (* err_alloc_gpfifo *)
            (err, c, ev ++ [gk20a_vm_put; release_firmware])
          else
            (* map backing store to gpu virtual space *)
            let vaddr := env_backing_store e in
            let ev := ev ++ [gk20a_gmmu_map (compbit_store_sgt g) (compbit_store_size g) vaddr] in
            if vaddr =? 0 then
              (* err_map_backingstore; err still holds the 0 of the call before *)
              (err, c, ev ++ [gk20a_vm_put; release_firmware])
            else
              (* store initialisation data *)
              let c := set_channel c ch (pmu_vm g) vaddr in
              (* initialise the firmware *)
              let '(err, c, ev') := gk20a_init_cde_img c img (env_elems e) in
              let ev := ev ++ ev' in
              if negb (err =? 0) then
                (* err_init_cde_img *)
                (err, c, ev ++ [gk20a_gmmu_unmap vaddr (compbit_store_size g);
                                gk20a_vm_put; release_firmware])
              else
                (* initialisation done *)
                (0, c, ev ++ [release_firmware])
  end.

(** The loop of [gk20a_init_cde_support]: the status, the index it
    stopped at, the pool and the events. *)
Fixpoint init_slots (g : gk20a_hw) (app : gk20a_cde_app) (env : pool_env)
    (indices : list Z) : Z * Z * gk20a_cde_app * list event :=
  match indices with
  | [] => (0, 0, app, [])
  | i :: rest =>
      let '(ret, c, ev) := gk20a_cde_load g (cde_ctx app i) (env i) in
      let app := set_ctx app i c in
      if negb (ret =? 0) then (ret, i, app, ev)
      else
        let '(ret, j, app, ev') := init_slots g app env rest in
        (ret, j, app, ev ++ ev')
  end.

(** [while (i--) { gk20a_cde_remove(cde_ctx); cde_ctx--; }] entered with
    [cde_ctx] at slot [i]: the slots visited are [i], [i-1], ..., [1]. *)
Fixpoint remove_slots (g : gk20a_hw) (app : gk20a_cde_app) (slots : list Z)
    : gk20a_cde_app * list event :=
  match slots with
  | [] => (app, [])
  | k :: rest =>
      let '(_, c, ev) := gk20a_cde_remove g (cde_ctx app k) in
      let '(app, ev') := remove_slots g (set_ctx app k c) rest in
      (app, ev ++ ev')
  end.

(** [gk20a_init_cde_support] *)
Definition gk20a_init_cde_support (g : gk20a_hw) (app : gk20a_cde_app)
    (env : pool_env) : Z * gk20a_cde_app * list event :=
  if initialised app then (0, app, [])
  else
    let '(ret, i, app, ev) := init_slots g app env (upto NUM_CDE_CTX) in
    let ev := [mutex_init; mutex_lock] ++ ev in
    if negb (ret =? 0) then
      (* err_init_instance: deinitialise initialised channels *)
      let '(app, ev') := remove_slots g app (rev (map (Z.add 1) (upto i))) in
      (ret, app, ev ++ ev')
    else
      (* take shadow to the vm for general usage *)
      let app := set_app_vm app (vm (cde_ctx app 0)) in
      let app := set_cde_ctx_ptr app 0 in
      let app := set_initialised app true in
      (0, app, ev ++ [mutex_unlock]).

(** The loop of [gk20a_cde_reload]; [err] is the local variable. *)
Fixpoint reload_slots (g : gk20a_hw) (app : gk20a_cde_app) (env : pool_env)
    (indices : list Z) (err : Z) : Z * gk20a_cde_app * list event :=
  match indices with
  | [] => (err, app, [])
  | i :: rest =>
      let '(_, c, ev) := gk20a_cde_remove g (cde_ctx app i) in
      let '(err, c, ev') := gk20a_cde_load g c (env i) in
      let '(err, app, ev'') := reload_slots g (set_ctx app i c) env rest err in
      (err, app, ev ++ ev' ++ ev'')
  end.

(** [gk20a_cde_reload].  The local [err] is not initialised; the loop
    assigns it in its first round. *)
Definition gk20a_cde_reload (g : gk20a_hw) (app : gk20a_cde_app)
    (env : pool_env) : Z * gk20a_cde_app * list event :=
  if negb (initialised app) then
    let '(_, app, ev) := gk20a_init_cde_support g app env in
    let ev := [gk20a_busy] ++ ev ++ [gk20a_idle] in
    if negb (initialised app) then (- ENOSYS, app, ev) else (0, app, ev)
  else
    let '(err, app, ev) := reload_slots g app env (upto NUM_CDE_CTX) 0 in
    let app := set_cde_ctx_ptr app 0 in
    (err, app, [gk20a_busy; mutex_lock] ++ ev ++ [mutex_unlock; gk20a_idle]).

(** ** Conversion: [gk20a_cde_convert] *)

(** [exit_unlock:] unmap the buffers that were mapped, release the pool
    lock and return. *)
Definition exit_unlock (err : Z) (app : gk20a_cde_app) (dst_vaddr src_vaddr : Z)
    (fence_out : option Z) (ev : list event)
    : Z * gk20a_cde_app * option Z * list event :=
  (err, app, fence_out,
   ev ++ (if negb (dst_vaddr =? 0) then [gk20a_vm_unmap dst_vaddr] else [])
      ++ (if negb (src_vaddr =? 0) then [gk20a_vm_unmap src_vaddr] else [])
      ++ [mutex_unlock]).

(** [memset(cde_ctx->user_param_values, 0, sizeof(...))] *)
Definition clear_user_params (values : array Z) : array Z :=
  fun j => if (0 <=? j) && (j <? MAX_CDE_USER_PARAMS) then 0 else values j.

(** The conversion of the assignment [user_param_values[id] =
    param->value]: the 64-bit value is cut to the width of an element of
    the table. *)
Definition to_user_param_value (value : Z) : Z := value mod 2 ^ user_param_value_bits.

(** The loop that reads the caller's arguments: [false] when an id is
    outside the user range, with the values stored so far. *)
Fixpoint read_user_params (values : array Z) (params : list gk20a_cde_param)
    : bool * array Z :=
  match params with
  | [] => (true, values)
  | param :: rest =>
      let id := s32 (user_id param - NUM_RESERVED_PARAMS) in
      if (id <? 0) || (id >=? MAX_CDE_USER_PARAMS) then (false, values)
      else read_user_params (aset values id (to_user_param_value (user_value param))) rest
  end.

(** The function from [wait for channel idle] on, for the context in
    slot [idx], with both buffers mapped and the pool lock held. *)
Definition convert_locked (g : gk20a_hw) (app : gk20a_cde_app) (idx : Z)
    (src : dma_buf) (dst_vaddr src_vaddr dst_byte_offset dst_size : Z)
    (__flags : Z) (params : list gk20a_cde_param) (e : convert_env)
    (ev : list event) : Z * gk20a_cde_app * option Z * list event :=
  let c := cde_ctx app idx in
  (* wait for channel idle *)
  let err := env_channel_finish e in
  let ev := ev ++ [gk20a_channel_finish (ch c) err] in
  if negb (err =? 0) then exit_unlock err app dst_vaddr src_vaddr None ev
  else
    (* disable the channel, reinitialise its graphics context, re-enable *)
    let ev := ev ++ [channel_disable (ch c); gk20a_fifo_preempt_channel (ch c);
                     channel_gk20a_unbind (ch c);
                     gr_gk20a_load_golden_ctx_image (ch c);
                     bind_channel (ch c); channel_enable (ch c)] in
    (* store source buffer compression tags and the destination *)
    let ev := ev ++ [gk20a_get_comptags src] in
    let c := set_conversion c src_vaddr (env_comptags_offset e)
               (env_comptags_lines e) (u64 (dst_vaddr + dst_byte_offset))
               dst_size in
    (* remove existing argument data *)
    let c := set_user_param_values c (clear_user_params (user_param_values c)) in
    (* read user space arguments for the conversion *)
    let '(ok, values) := read_user_params (user_param_values c) params in
    let c := set_user_param_values c values in
    if negb ok then exit_unlock (- EINVAL) (set_ctx app idx c) dst_vaddr src_vaddr None ev
    else
      (* patch data *)
      let '(err, c) := gk20a_cde_patch_params g c (env_src_iova e) in
      let app := set_ctx app idx c in
      if negb (err =? 0) then exit_unlock err app dst_vaddr src_vaddr None ev
      else
        (* execute the init push buffer *)
        let '(err, ev') := gk20a_cde_execute_buffer c TYPE_BUF_COMMAND_INIT 0
                             (env_submit_init e) in
        let ev := ev ++ ev' in
        if negb (err =? 0) then exit_unlock err app dst_vaddr src_vaddr None ev
        else
          (* take always the postfence *)
          let flags := Z.lor __flags NVHOST_SUBMIT_GPFIFO_FLAGS_FENCE_GET in
          (* execute the conversion buffer *)
          let '(err, ev') := gk20a_cde_execute_buffer c TYPE_BUF_COMMAND_CONVERT
                               flags (env_submit_convert e) in
          exit_unlock err app dst_vaddr src_vaddr
            (if err =? 0 then Some (env_fence_out e) else None) (ev ++ ev').

(** [gk20a_cde_convert].  The third component is the fence stored through
    [fence_out], if one was.  The caller's in-fence is handed to the
    submission as it is and is left out. *)
Definition gk20a_cde_convert (g : gk20a_hw) (app : gk20a_cde_app)
    (src dst : dma_buf) (dst_kind dst_byte_offset dst_size : Z)
    (__flags : Z) (params : list gk20a_cde_param) (e : convert_env)
    : Z * gk20a_cde_app * option Z * list event :=
  if negb (initialised app) then (- ENOSYS, app, None, [])
  else
    let ev := [mutex_lock] in
    (* pick next free cde context *)
    let idx := cde_ctx_ptr app in
    let app := set_cde_ctx_ptr app ((cde_ctx_ptr app + 1) mod NUM_CDE_CTX) in
    (* ensure that the dst buffer has drvdata *)
    let err := env_dst_drvdata e in
    let ev := ev ++ [gk20a_dmabuf_alloc_drvdata dst err] in
    if negb (err =? 0) then exit_unlock err app 0 0 None ev
    else
      (* map the destination buffer *)
      let dst_vaddr := env_dst_vaddr e in
      let ev := ev ++ [get_dma_buf dst; gk20a_vm_map dst dst_kind dst_vaddr] in
      if dst_vaddr =? 0 then
        exit_unlock (- EINVAL) app dst_vaddr 0 None (ev ++ [dma_buf_put dst])
      else
        (* ensure that the src buffer has drvdata *)
        let err := env_src_drvdata e in
        let ev := ev ++ [gk20a_dmabuf_alloc_drvdata src err] in
        if negb (err =? 0) then exit_unlock err app dst_vaddr 0 None ev
        else
          (* map the source buffer to prevent premature release *)
          let src_vaddr := env_src_vaddr e in
          let ev := ev ++ [get_dma_buf src; gk20a_vm_map src dst_kind src_vaddr] in
          if src_vaddr =? 0 then
            exit_unlock (- EINVAL) app dst_vaddr src_vaddr None (ev ++ [dma_buf_put src])
          else
            let dst_size := if dst_size =? 0
                            then u32 (dmabuf_size dst - dst_byte_offset)
                            else dst_size in
            (* reload buffer converter if it has failed *)
            let ev := ev ++ [read_channel (ch (cde_ctx app idx))] in
            if env_has_timedout e then
              let ev := ev ++ [mutex_unlock] in
              let '(err, app, ev') := gk20a_cde_reload g app (env_reload e) in
              let ev := ev ++ ev' in
              if negb (err =? 0) then (err, app, None, ev)
              else
                convert_locked g app idx src dst_vaddr src_vaddr dst_byte_offset
                  dst_size __flags params e (ev ++ [mutex_lock])
            else
              convert_locked g app idx src dst_vaddr src_vaddr dst_byte_offset
                dst_size __flags params e ev.

(** ** Launch geometry: [gk20a_buffer_convert_gpu_to_cde] *)

(** [enum cde_launch_patch_id] *)
Definition PATCH_QMD_CTA_RASTER_WIDTH_ID : Z := 1024.
Definition PATCH_QMD_CTA_RASTER_HEIGHT_ID : Z := 1025.
Definition PATCH_QMD_CTA_RASTER_DEPTH_ID : Z := 1026.
Definition PATCH_QMD_CTA_THREAD_DIMENSION0_ID : Z := 1027.
Definition PATCH_QMD_CTA_THREAD_DIMENSION1_ID : Z := 1028.
Definition PATCH_QMD_CTA_THREAD_DIMENSION2_ID : Z := 1029.
Definition PATCH_USER_CONST_XTILES_ID : Z := 1030.
Definition PATCH_USER_CONST_YTILES_ID : Z := 1031.
Definition PATCH_USER_CONST_BLOCKHEIGHTLOG2_ID : Z := 1032.
Definition PATCH_USER_CONST_DSTPITCH_ID : Z := 1033.
Definition PATCH_USER_CONST_DSTOFFSET_ID : Z := 1034.
Definition PATCH_VPC_CURRENT_GRID_SIZE_X_ID : Z := 1035.
Definition PATCH_VPC_CURRENT_GRID_SIZE_Y_ID : Z := 1036.
Definition PATCH_VPC_CURRENT_GRID_SIZE_Z_ID : Z := 1037.
Definition PATCH_VPC_CURRENT_GROUP_SIZE_X_ID : Z := 1038.
Definition PATCH_VPC_CURRENT_GROUP_SIZE_Y_ID : Z := 1039.
Definition PATCH_VPC_CURRENT_GROUP_SIZE_Z_ID : Z := 1040.

(** The kernel's [roundup(x, y)] on [int]: [((x + (y - 1)) / y) * y], the
    division truncating towards zero. *)
Definition roundup (x y : Z) : Z := s32 (Z.quot (s32 (x + (y - 1))) y * y).

(** The per-launch constants of the function. *)
Record launch_geometry : Type := {
  transpose : bool;
  xtiles : Z;
  ytiles : Z;
  wgx : Z;
  wgy : Z;
  dst_stride : Z;
  tilepitch : Z;
  ytilesaligned : Z;
  gridw : Z;
  gridh : Z
}.

Definition compute_geometry (consumer width height : Z) : launch_geometry :=
  let transpose := consumer =? NVHOST_GPU_COMPBITS_CDEV in
  let transposed_width := s32 (if transpose then height else width) in
  let transposed_height := s32 (if transpose then width else height) in
  let xtiles := Z.shiftr (s32 (transposed_width + 7)) 3 in
  let ytiles := Z.shiftr (s32 (transposed_height + 7)) 3 in
  let wgx := 16 in
  let wgy := 8 in
  let compbits_per_byte := 4 in
  let dst_stride := 128 in
  let xalign := compbits_per_byte * wgx in
  let yalign := wgy in
  let tilepitch := Z.quot (roundup xtiles xalign) compbits_per_byte in
  let ytilesaligned := roundup ytiles yalign in
  let gridw := Z.quot (roundup tilepitch wgx) wgx in
  let gridh := Z.quot (roundup ytilesaligned wgy) wgy in
  {| transpose := transpose; xtiles := xtiles; ytiles := ytiles;
     wgx := wgx; wgy := wgy; dst_stride := dst_stride;
     tilepitch := tilepitch; ytilesaligned := ytilesaligned;
     gridw := gridw; gridh := gridh |}.

(** [tilepitch % wgx != 0 || ytilesaligned % wgy != 0] *)
Definition grid_misaligned (geo : launch_geometry) : bool :=
  negb (Z.rem (tilepitch geo) (wgx geo) =? 0)
  || negb (Z.rem (ytilesaligned geo) (wgy geo) =? 0).

(** [WRITE_PATCH(NAME, VALUE)]: the value is converted to [u64]. *)
Definition WRITE_PATCH (id value : Z) : gk20a_cde_param :=
  {| user_id := id; user_value := u64 value |}.

Definition launch_params (geo : launch_geometry) (block_height_log2 : Z)
    (shader_parameter : Z) : list gk20a_cde_param :=
  [ WRITE_PATCH PATCH_USER_CONST_XTILES_ID (xtiles geo);
    WRITE_PATCH PATCH_USER_CONST_YTILES_ID (ytiles geo);
    WRITE_PATCH PATCH_USER_CONST_BLOCKHEIGHTLOG2_ID block_height_log2;
    WRITE_PATCH PATCH_USER_CONST_DSTPITCH_ID (dst_stride geo);
    WRITE_PATCH PATCH_USER_CONST_DSTOFFSET_ID
      (Z.lor (if transpose geo then 4 else 0) shader_parameter);
    WRITE_PATCH PATCH_VPC_CURRENT_GRID_SIZE_X_ID (gridw geo);
    WRITE_PATCH PATCH_VPC_CURRENT_GRID_SIZE_Y_ID (gridh geo);
    WRITE_PATCH PATCH_VPC_CURRENT_GRID_SIZE_Z_ID 1;
    WRITE_PATCH PATCH_VPC_CURRENT_GROUP_SIZE_X_ID (wgx geo);
    WRITE_PATCH PATCH_VPC_CURRENT_GROUP_SIZE_Y_ID (wgy geo);
    WRITE_PATCH PATCH_VPC_CURRENT_GROUP_SIZE_Z_ID 1;
    WRITE_PATCH PATCH_QMD_CTA_RASTER_WIDTH_ID (gridw geo);
    WRITE_PATCH PATCH_QMD_CTA_RASTER_HEIGHT_ID (gridh geo);
    WRITE_PATCH PATCH_QMD_CTA_RASTER_DEPTH_ID 1;
    WRITE_PATCH PATCH_QMD_CTA_THREAD_DIMENSION0_ID (wgx geo);
    WRITE_PATCH PATCH_QMD_CTA_THREAD_DIMENSION1_ID (wgy geo);
    WRITE_PATCH PATCH_QMD_CTA_THREAD_DIMENSION2_ID 1 ].

(** The geometry stage of the function: the parameters of the launch, or
    the error it rejects the surface with. *)
Definition launch_setup (app : gk20a_cde_app) (consumer width height
    block_height_log2 : Z) : Z + list gk20a_cde_param :=
  let geo := compute_geometry consumer width height in
  if grid_misaligned geo then inl (- EINVAL)
  else inr (launch_params geo block_height_log2 (shader_parameter app)).

Definition gk20a_buffer_convert_gpu_to_cde (g : gk20a_hw) (app : gk20a_cde_app)
    (dmabuf : dma_buf) (consumer offset compbits_offset width height
    block_height_log2 submit_flags : Z) (e : gpu_to_cde_env)
    : Z * gk20a_cde_app * option Z * list event :=
  match launch_setup app consumer width height block_height_log2 with
  | inl err => (err, app, None, [])
  | inr params =>
      let '(err, app, ev) := gk20a_init_cde_support g app (env_init_support e) in
      let ev := [gk20a_busy] ++ ev in
      if negb (err =? 0) then (err, app, None, ev ++ [gk20a_idle])
      else
        let '(err, app, fence_out, ev') :=
          gk20a_cde_convert g app dmabuf dmabuf 0 compbits_offset 0
            submit_flags params (env_convert e) in
        (err, app, fence_out, ev ++ ev' ++ [gk20a_idle])
  end.

(** ** Compression-state tracker *)

(** [struct gk20a_buffer_state]: the state of one surface. *)
Record gk20a_buffer_state : Type := {
  valid_compbits : Z;
  fence : option Z
}.

(** What [gk20a_prepare_compressible_read] leaves: its return value, the
    pool, the state of the surface, what it stored through
    [valid_compbits] and [fence_out] (if it stored), and the events. *)
Record prepare_result : Type := {
  ret : Z;
  app_after : gk20a_cde_app;
  state_after : option gk20a_buffer_state;
  valid_compbits_out : option Z;
  fence_out : option Z;
  events : list event
}.

(** One of the two conversions of the [missing_bits] branch: [None] when
    the conversion fails and the function jumps to [out]. *)
Definition convert_missing (g : gk20a_hw) (app : gk20a_cde_app)
    (state : gk20a_buffer_state) (new_fence : option Z) (dmabuf : dma_buf)
    (missing_bits bit offset compbits_offset width height block_height_log2
     submit_flags : Z) (e : gpu_to_cde_env)
    : bool * gk20a_cde_app * gk20a_buffer_state * option Z * list event :=
  if negb (Z.land (valid_compbits state) NVHOST_GPU_COMPBITS_GPU =? 0)
     && negb (Z.land missing_bits bit =? 0)
  then
    let '(err, app, stored, ev) :=
      gk20a_buffer_convert_gpu_to_cde g app dmabuf bit offset compbits_offset
        width height block_height_log2 submit_flags e in
    let new_fence := match stored with Some f => Some f | None => new_fence end in
    if negb (err =? 0) then (false, app, state, new_fence, ev)
    else
      (* compbits generated, update state & fence *)
      (true, app,
       {| valid_compbits := Z.lor (valid_compbits state) bit; fence := new_fence |},
       new_fence, ev ++ [gk20a_fence_put (fence state)])
  else (true, app, state, new_fence, []).

(** [out:] *)
Definition prepare_out (app : gk20a_cde_app) (state : gk20a_buffer_state)
    (dmabuf : dma_buf) (valid_out fence_o : option Z) (ev : list event)
    : prepare_result :=
  {| ret := 0; app_after := app; state_after := Some state;
     valid_compbits_out := valid_out; fence_out := fence_o;
     events := ev ++ [state_mutex_unlock; dma_buf_put dmabuf] |}.

(** [gk20a_prepare_compressible_read].  [state] is the state that
    [gk20a_dmabuf_get_state] finds for the buffer and the offset;
    [want_valid_compbits] and [want_fence_out] tell whether the two result
    pointers are non-[NULL]. *)
Definition gk20a_prepare_compressible_read (g : gk20a_hw) (app : gk20a_cde_app)
    (state : gk20a_buffer_state) (buffer_fd request offset compbits_hoffset
    compbits_voffset width height block_height_log2 submit_flags : Z)
    (want_valid_compbits want_fence_out : bool) (e : prepare_env)
    : prepare_result :=
  let '(err, app, ev) :=
    if negb (initialised app) then gk20a_cde_reload g app (env_prepare_reload e)
    else (0, app, []) in
  if negb (err =? 0) then
    {| ret := err; app_after := app; state_after := None;
       valid_compbits_out := None; fence_out := None; events := ev |}
  else
    match env_dmabuf e with
    | None =>
        {| ret := - EINVAL; app_after := app; state_after := None;
           valid_compbits_out := None; fence_out := None;
           events := ev ++ [dma_buf_get buffer_fd false] |}
    | Some dmabuf =>
        let err := env_get_state e in
        let ev := ev ++ [dma_buf_get buffer_fd true;
                         gk20a_dmabuf_get_state dmabuf offset err] in
        if negb (err =? 0) then
          {| ret := err; app_after := app; state_after := None;
             valid_compbits_out := None; fence_out := None;
             events := ev ++ [dma_buf_put dmabuf] |}
        else
          let missing_bits :=
            Z.land (Z.lxor (valid_compbits state) request) request in
          let ev := ev ++ [state_mutex_lock] in
          if negb (valid_compbits state =? 0) && (request =? NVHOST_GPU_COMPBITS_NONE)
          then
            (* the decompression that is not there: err = -EINVAL; goto out *)
            let ev := ev ++ [gk20a_fence_put (fence state)] in
            let state := {| valid_compbits := valid_compbits state; fence := None |} in
            prepare_out app state dmabuf None None ev
          else
            let '(ok, app, state, new_fence, ev') :=
              if negb (missing_bits =? 0) then
                let '(ok, app, state, new_fence, ev1) :=
                  convert_missing g app state None dmabuf missing_bits
                    NVHOST_GPU_COMPBITS_CDEH offset compbits_hoffset width height
                    block_height_log2 submit_flags (env_cdeh e) in
                if negb ok then (false, app, state, new_fence, ev1)
                else
                  let '(ok, app, state, new_fence, ev2) :=
                    convert_missing g app state new_fence dmabuf missing_bits
                      NVHOST_GPU_COMPBITS_CDEV offset compbits_voffset width height
                      block_height_log2 submit_flags (env_cdev e) in
                  (ok, app, state, new_fence, ev1 ++ ev2)
              else (true, app, state, None, []) in
            let ev := ev ++ ev' in
            if negb ok then prepare_out app state dmabuf None None ev
            else
              let give_fence := match fence state with
                                | Some f => if want_fence_out then Some f else None
                                | None => None
                                end in
              let ev := ev ++ match give_fence with
                              | Some f => [gk20a_fence_get f]
                              | None => []
                              end in
              prepare_out app state dmabuf
                (if want_valid_compbits then Some (valid_compbits state) else None)
                give_fence ev
    end.

(** [gk20a_mark_compressible_write], for the state that
    [gk20a_dmabuf_get_state] finds. *)
Definition gk20a_mark_compressible_write (state : gk20a_buffer_state)
    (new_valid_compbits : Z) : gk20a_buffer_state * list event :=
  ({| valid_compbits := new_valid_compbits; fence := None |},
   [state_mutex_lock; gk20a_fence_put (fence state); state_mutex_unlock]).

End Engine.

(** ** The context pool: [gk20a_cde_destroy] *)

Section Destroy.

Context {hdr : cde_gk20a_h}.

(** The loop of [gk20a_cde_destroy]; [ret] is the local variable. *)
Fixpoint destroy_slots (g : gk20a_hw) (app : gk20a_cde_app) (indices : list Z)
    (ret : Z) : Z * gk20a_cde_app * list event :=
  match indices with
  | [] => (ret, app, [])
  | i :: rest =>
      let '(ret, c, ev) := gk20a_cde_remove g (cde_ctx app i) in
      let '(ret, app, ev') := destroy_slots g (set_ctx app i c) rest ret in
      (ret, app, ev ++ ev')
  end.

(** [gk20a_cde_destroy].  The local [ret] is not initialised; the loop
    assigns it in its first round. *)
Definition gk20a_cde_destroy (g : gk20a_hw) (app : gk20a_cde_app)
    : Z * gk20a_cde_app * list event :=
  if negb (initialised app) then (0, app, [])
  else
    let '(ret, app, ev) := destroy_slots g app (upto NUM_CDE_CTX) 0 in
    (ret, set_initialised app false, ev).

End Destroy.

(** * Vocabulary of the properties *)

(** ** Binary patcher *)

(** Width in bits of the target of a patch, by type. *)
Definition stored_width (type : param_type) : Z :=
  match type with TYPE_PARAM_TYPE_U32 => 32 | _ => 64 end.

Definition known_type (type : param_type) : Prop :=
  match type with TYPE_PARAM_TYPE_unknown _ => False | _ => True end.

(** The part of a 64-bit value that a target of the given type holds. *)
Definition kept_bits (type : param_type) (x : Z) : Z :=
  match type with TYPE_PARAM_TYPE_U32 => u32 x | _ => x end.

(** Round trip of one patch.  [gk20a_replace_data] succeeds; reading the
    target back the way the function reads it and applying the mask gives
    [keep] of the masked, shifted value; the bits of the target outside
    the mask are the ones from before the write. *)
Definition round_trip_with (keep : Z -> Z) (m : cells) (target : Z)
    (type : param_type) (shift mask value : Z) : Prop :=
  exists old new m',
    read_target m target type = Some old /\
    gk20a_replace_data m target type shift mask value = (0, m') /\
    read_target m' target type = Some new /\
    Z.land new mask = keep (Z.land (shift_value shift value) mask) /\
    (forall i, 0 <= i < stored_width type -> Z.testbit mask i = false ->
               Z.testbit new i = Z.testbit old i).

(** The round trip with all masked bits recovered, whatever the type. *)
Definition round_trip_as_claimed : cells -> Z -> param_type -> Z -> Z -> Z -> Prop :=
  round_trip_with (fun x => x).

(** ** Concrete inputs

    One choice of the constants of the absent headers, for the examples:
    the pool has [slots] contexts, the reserved parameter ids are numbered
    from 0 in the order of the [switch], user ids start at 1024 (the first
    value of [enum cde_launch_patch_id]). *)

Definition example_reserved_param_of (id : Z) : option reserved_param :=
  nth_error
    [ TYPE_PARAM_COMPTAGS_PER_CACHELINE; TYPE_PARAM_GPU_CONFIGURATION;
      TYPE_PARAM_FIRSTPAGEOFFSET; TYPE_PARAM_NUMPAGES; TYPE_PARAM_BACKINGSTORE;
      TYPE_PARAM_DESTINATION; TYPE_PARAM_DESTINATION_SIZE;
      TYPE_PARAM_BACKINGSTORE_SIZE; TYPE_PARAM_SOURCE_SMMU_ADDR;
      TYPE_PARAM_BACKINGSTORE_BASE_HW ]
    (if id <? 0 then 10%nat else Z.to_nat id).

Definition header_with_slots (slots : Z) : cde_gk20a_h :=
  {| MAX_CDE_BUFS := 10;
     MAX_CDE_PARAMS := 64;
     MAX_CDE_USER_PARAMS := 32;
     user_param_value_bits := 32;
     MAX_CDE_OBJ_IDS := 4;
     NUM_RESERVED_PARAMS := 1024;
     NUM_CDE_CTX := slots;
     sizeof_hdr_elem := 48;
     reserved_param_of := example_reserved_param_of;
     pbdma_gp_entry1_length_f := fun v => Z.shiftl (Z.land v 0x1fffff) 10;
     NVHOST_SUBMIT_GPFIFO_FLAGS_FENCE_GET := 2;
     NVHOST_GPU_COMPBITS_GPU := 1;
     NVHOST_GPU_COMPBITS_CDEH := 2;
     NVHOST_GPU_COMPBITS_CDEV := 4 |}.

(** A zero-filled context and pool, as in a freshly allocated
    [struct gk20a]. *)
Definition null_mem_desc : gk20a_cde_mem_desc :=
  {| sgt := 0; iova := 0; cpuva := 0; data := fun _ => 0; num_bytes := 0; gpu_va := 0 |}.

Definition null_param : gk20a_cde_hdr_param :=
  {| param_id := 0; param_target_buf := 0; param_shift := 0;
     param_type_of := TYPE_PARAM_TYPE_U32; param_data_offset := 0;
     param_target_byte_offset := 0; param_mask := 0 |}.

Definition null_ctx : gk20a_cde_ctx :=
  {| ch := 0; vm := 0; mem := fun _ => null_mem_desc; num_bufs := 0;
     params := fun _ => null_param; num_params := 0;
     user_param_values := fun _ => 0; src_vaddr := 0; src_param_offset := 0;
     src_param_lines := 0; backing_store_vaddr := 0; dest_vaddr := 0;
     dest_size := 0; obj_ids := fun _ => 0; num_obj_ids := 0;
     init_cmd := None; init_cmd_num_entries := 0;
     convert_cmd := None; convert_cmd_num_entries := 0 |}.

Definition null_app : gk20a_cde_app :=
  {| initialised := false; app_vm := 0; cde_ctx := fun _ => null_ctx;
     cde_ctx_ptr := 0; shader_parameter := 0 |}.

Definition example_hw : gk20a_hw :=
  {| ltc_count := 1; comptags_per_cacheline := 32; slices_per_ltc := 2;
     cacheline_size := 512; compbit_store_sgt := 0x5000;
     compbit_store_size := 0x10000; compbit_store_base_hw := 0x80;
     pmu_vm := 1 |}.

(** A firmware image with one buffer of 64 bytes and the two command
    lists, each of one entry that covers the first 16 bytes of the
    buffer. *)
Definition example_image : firmware :=
  {| size := 1024; version := 1;
     elems := [ TYPE_BUF {| buf_data_byte_offset := 0; buf_num_bytes := 64 |};
                TYPE_COMMAND {| command_op_of := TYPE_BUF_COMMAND_INIT;
                                command_num_entries := 1;
                                command_data_byte_offset := 512 |};
                TYPE_COMMAND {| command_op_of := TYPE_BUF_COMMAND_CONVERT;
                                command_num_entries := 1;
                                command_data_byte_offset := 512 |} ];
     cmd_elems := fun _ _ => {| cmd_target_buf := 0; cmd_target_byte_offset := 0;
                                cmd_num_bytes := 16 |};
     bytes := fun _ => 0 |}.

(** Every call succeeds. *)
Definition good_buf_env : buf_env :=
  {| alloc_cpuva := 0xC0001000; alloc_iova := 0x80001000; alloc_data := fun _ => 0;
     sgtable_err := 0; sgtable_sgt := 0xC0002000; gmmu_map_va := 0x100000 |}.

Definition good_elem_env : elem_env :=
  {| env_buf := good_buf_env; obj_ctx_err := 0; obj_ctx_id := 7; kzalloc_ok := true |}.

Definition good_load_env : load_env :=
  {| env_firmware := Some example_image; env_channel := 5; env_commit_va := 0;
     env_alloc_gpfifo := 0; env_backing_store := 0x200000;
     env_elems := fun _ => good_elem_env |}.

(** The firmware cannot be fetched. *)
Definition no_firmware_env : load_env :=
  {| env_firmware := None; env_channel := 5; env_commit_va := 0;
     env_alloc_gpfifo := 0; env_backing_store := 0x200000;
     env_elems := fun _ => good_elem_env |}.

(** ** Buffer allocator *)

(** The coherent allocation [(cpuva, iova)] of [num_bytes] bytes is
    released in the events: [dma_free_coherent] is called with the
    pointer that [dma_alloc_coherent] returned. *)
Definition coherent_released (ev : list event) (num_bytes cpuva iova : Z) : Prop :=
  In (dma_free_coherent num_bytes (cpuva_of cpuva) iova) ev.

(** The image can hold the declared buffer (the first test of
    [gk20a_init_cde_buf] passes). *)
Definition buf_fits (img : firmware) (buf : gk20a_cde_hdr_buf) : Prop :=
  buf_data_byte_offset buf = 0
  \/ u64 (buf_data_byte_offset buf + buf_num_bytes buf) <= size img.

(** A buffer declaration whose coherent memory is obtained and whose
    scatter-gather table cannot be built. *)
Definition sgtable_fails_env : buf_env :=
  {| alloc_cpuva := 0xC0001000; alloc_iova := 0x80001000; alloc_data := fun _ => 0;
     sgtable_err := - ENOMEM; sgtable_sgt := 0; gmmu_map_va := 0 |}.

(** A context whose buffer table is full. *)
Definition full_ctx : gk20a_cde_ctx := set_num_bufs null_ctx 10.

Definition small_buf : gk20a_cde_hdr_buf :=
  {| buf_data_byte_offset := 0; buf_num_bytes := 64 |}.

(** ** Per-conversion parameters *)

(** A context with one buffer of 64 bytes, every cell [0xFFFFFFFF], and
    one declared parameter: the SMMU address of the source, stored as a
    little-endian 64-bit value at the start of the buffer. *)
Definition smmu_param : gk20a_cde_hdr_param :=
  {| param_id := 8; param_target_buf := 0; param_shift := 0;
     param_type_of := TYPE_PARAM_TYPE_U64_LITTLE; param_data_offset := 0;
     param_target_byte_offset := 0; param_mask := 2 ^ 64 - 1 |}.

Definition smmu_ctx : gk20a_cde_ctx :=
  let buffer := {| sgt := 0xC0002000; iova := 0x80001000; cpuva := 0xC0001000;
                   data := fun _ => 0xFFFFFFFF; num_bytes := 64;
                   gpu_va := 0x100000 |} in
  let c := set_num_bufs (set_mem null_ctx (aset (mem null_ctx) 0 buffer)) 1 in
  set_num_params (set_params c (aset (params c) 0 smmu_param)) 1.

(** ** Firmware image parser *)






(** What [gk20a_deinit_cde_img] leaves. *)
Definition torn_down (c : gk20a_cde_ctx) : Prop :=
  init_cmd c = None /\ convert_cmd c = None /\
  num_bufs c = 0 /\ num_obj_ids c = 0 /\ num_params c = 0 /\
  init_cmd_num_entries c = 0 /\ convert_cmd_num_entries c = 0.

Section ParserVocabulary.

Context {hdr : cde_gk20a_h}.

(** The two size tests of [gk20a_init_cde_img] pass. *)
Definition header_fits (img : firmware) : Prop :=
  2 * 4 <= size img /\ u32 (2 * 4 + num_of_elems img * sizeof_hdr_elem) <= size img.

(** Every element of the image is handled without error. *)
Definition all_handled (c : gk20a_cde_ctx) (img : firmware) (env : array elem_env) : Prop :=
  fst (fst (init_cde_elems c img env 0 (elems img))) = 0.


End ParserVocabulary.


(** The test that [gk20a_init_cde_img] and [gk20a_cde_execute_buffer]
    make of a command list: the pointer is set and the count is not 0. *)
Definition cmd_ready (op : command_op) (c : gk20a_cde_ctx) : bool :=
  match op with
  | TYPE_BUF_COMMAND_INIT =>
      negb (is_null (init_cmd c) || (init_cmd_num_entries c =? 0))
  | TYPE_BUF_COMMAND_CONVERT =>
      negb (is_null (convert_cmd c) || (convert_cmd_num_entries c =? 0))
  | TYPE_BUF_COMMAND_unknown _ => false
  end.

(** ** The context pool *)

(** A pool slot is loaded when both of its command lists are ready: the
    state in which [gk20a_init_cde_img] returns success, and the one
    [gk20a_cde_execute_buffer] asks for. *)
Definition slot_loaded (c : gk20a_cde_ctx) : bool :=
  cmd_ready TYPE_BUF_COMMAND_INIT c && cmd_ready TYPE_BUF_COMMAND_CONVERT c.

(** The first error in a list of statuses, 0 if there is none; and the
    last status. *)
Fixpoint first_error (statuses : list Z) : Z :=
  match statuses with
  | [] => 0
  | s :: rest => if s =? 0 then first_error rest else s
  end.

Definition last_status (statuses : list Z) : Z := default 0 (last statuses).

Section PoolVocabulary.

Context {hdr : cde_gk20a_h}.

(** The status of the tear-down-and-reload of slot [i] of the pool. *)
Definition slot_status (g : gk20a_hw) (app : gk20a_cde_app) (env : pool_env) (i : Z) : Z :=
  fst (fst (gk20a_cde_load g (snd (fst (gk20a_cde_remove g (cde_ctx app i)))) (env i))).

(** A reload resets the round-robin pointer and returns what [pick]
    selects from the statuses of the slots, in slot order. *)
Definition reload_returns (pick : list Z -> Z) (g : gk20a_hw) (app : gk20a_cde_app)
    (env : pool_env) : Prop :=
  let '(err, app', _) := gk20a_cde_reload g app env in
  cde_ctx_ptr app' = 0 /\
  err = pick (map (slot_status g app env) (upto NUM_CDE_CTX)).

(** The pool invariant: once the pool is initialised, the round-robin
    pointer is the index of a loaded slot. *)
Definition pool_invariant (app : gk20a_cde_app) : Prop :=
  initialised app = true ->
  0 <= cde_ctx_ptr app < NUM_CDE_CTX /\
  slot_loaded (cde_ctx app (cde_ctx_ptr app)) = true.

End PoolVocabulary.

(** A pool of [slots] contexts, initialised from the example image. *)
Definition loaded_app (slots : Z) : gk20a_cde_app :=
  snd (fst (gk20a_init_cde_support (hdr := header_with_slots slots) example_hw
              null_app (fun _ => good_load_env))).

(** The firmware cannot be fetched for slot 0; the other slots load. *)
Definition first_slot_fails : pool_env :=
  fun i => if i =? 0 then no_firmware_env else good_load_env.

(** ** Compression-state tracker *)

(** A surface whose GPU compression bits are valid, with a pending
    fence. *)
Definition gpu_valid_state : gk20a_buffer_state :=
  {| valid_compbits := 1; fence := Some 9 |}.

Definition example_dmabuf : dma_buf := {| dmabuf_id := 3; dmabuf_size := 0x40000 |}.

(** A conversion in which every call succeeds and the channel has not
    timed out. *)
Definition example_convert_env : convert_env :=
  {| env_dst_drvdata := 0; env_dst_vaddr := 0x300000;
     env_src_drvdata := 0; env_src_vaddr := 0x400000;
     env_has_timedout := false; env_reload := fun _ => good_load_env;
     env_channel_finish := 0; env_comptags_offset := 16; env_comptags_lines := 4;
     env_src_iova := 0x80400000; env_submit_init := 0; env_submit_convert := 0;
     env_fence_out := 11 |}.

Definition example_prepare_env : prepare_env :=
  {| env_prepare_reload := fun _ => good_load_env;
     env_dmabuf := Some example_dmabuf; env_get_state := 0;
     env_cdeh := {| env_init_support := fun _ => good_load_env;
                    env_convert := example_convert_env |};
     env_cdev := {| env_init_support := fun _ => good_load_env;
                    env_convert := example_convert_env |} |}.

(** ** Conversion: what a trace says about mappings and the pool lock *)

(** The events on the pool lock and on the mappings of external
    buffers. *)
Definition is_pool_event (e : event) : bool :=
  match e with
  | mutex_lock | mutex_unlock | gk20a_vm_map _ _ _ | gk20a_vm_unmap _ => true
  | _ => false
  end.

Definition pool_events (ev : list event) : list event := List.filter is_pool_event ev.

Fixpoint remove_one (va : Z) (mapped : list Z) : list Z :=
  match mapped with
  | [] => []
  | x :: rest => if x =? va then rest else x :: remove_one va rest
  end.

(** The GPU addresses that successful [gk20a_vm_map] calls of a trace
    returned and that no [gk20a_vm_unmap] of the trace has given back. *)
Fixpoint still_mapped_from (ev : list event) (mapped : list Z) : list Z :=
  match ev with
  | [] => mapped
  | gk20a_vm_map _ _ vaddr :: rest =>
      still_mapped_from rest (if vaddr =? 0 then mapped else vaddr :: mapped)
  | gk20a_vm_unmap vaddr :: rest => still_mapped_from rest (remove_one vaddr mapped)
  | _ :: rest => still_mapped_from rest mapped
  end.

Definition still_mapped (ev : list event) : list Z := still_mapped_from ev [].

(** The pool lock along a trace, from the state [held]: [None] if the
    lock is taken while held or released while free. *)
Fixpoint mutex_after (ev : list event) (held : bool) : option bool :=
  match ev with
  | [] => Some held
  | mutex_lock :: rest => if held then None else mutex_after rest true
  | mutex_unlock :: rest => if held then mutex_after rest false else None
  | _ :: rest => mutex_after rest held
  end.

(** Every lock of the trace is followed by its unlock, and the lock is
    free at the end. *)
Definition mutex_released (ev : list event) : Prop := mutex_after ev false = Some false.


(** The channel of the selected context has timed out and the firmware
    cannot be fetched for the reload. *)
Definition timed_out_env : convert_env :=
  {| env_dst_drvdata := 0; env_dst_vaddr := 0x300000;
     env_src_drvdata := 0; env_src_vaddr := 0x400000;
     env_has_timedout := true; env_reload := fun _ => no_firmware_env;
     env_channel_finish := 0; env_comptags_offset := 16; env_comptags_lines := 4;
     env_src_iova := 0x80400000; env_submit_init := 0; env_submit_convert := 0;
     env_fence_out := 11 |}.

Section ConvertVocabulary.

Context {hdr : cde_gk20a_h}.

(** The pool as [gk20a_cde_convert] leaves it after picking a context. *)
Definition advanced (app : gk20a_cde_app) : gk20a_cde_app :=
  set_cde_ctx_ptr app ((cde_ctx_ptr app + 1) mod NUM_CDE_CTX).

(** The path of [gk20a_cde_convert] on which both buffers are mapped, the
    channel of the selected context has timed out, and the reload of the
    pool fails. *)
Definition reload_fails_in (g : gk20a_hw) (app : gk20a_cde_app) (e : convert_env) : Prop :=
  env_dst_drvdata e = 0 /\ env_dst_vaddr e <> 0 /\
  env_src_drvdata e = 0 /\ env_src_vaddr e <> 0 /\
  env_has_timedout e = true /\
  fst (fst (gk20a_cde_reload g (advanced app) (env_reload e))) <> 0.

End ConvertVocabulary.

(** ** Further vocabulary *)

Definition is_u64 (x : Z) : Prop := 0 <= x < 2 ^ 64.

(** A buffer of 64 bytes whose cells all hold [0x11111111]. *)
Definition patterned_cells : cells := fun _ => 0x11111111.

(** ** Static relocations *)

(** The test that [gk20a_init_cde_replace] makes of a relocation: both
    buffers are allocated and both offsets, plus 3, lie within them. *)
Definition replace_in_bounds (c : gk20a_cde_ctx) (r : gk20a_cde_hdr_replace) : Prop :=
  replace_target_buf r < num_bufs c /\
  replace_source_buf r < num_bufs c /\
  u64 (replace_source_byte_offset r + 3) <= num_bytes (mem c (replace_source_buf r)) /\
  u64 (replace_target_byte_offset r + 3) <= num_bytes (mem c (replace_target_buf r)).

(** A context with two buffers, of 64 and 128 bytes. *)
Definition two_buffer_ctx : gk20a_cde_ctx :=
  let b0 := {| sgt := 0xC0002000; iova := 0x80001000; cpuva := 0xC0001000;
               data := patterned_cells; num_bytes := 64; gpu_va := 0x100000 |} in
  let b1 := {| sgt := 0xC0004000; iova := 0x80003000; cpuva := 0xC0003000;
               data := patterned_cells; num_bytes := 128; gpu_va := 0x1234500 |} in
  set_num_bufs (set_mem null_ctx (aset (aset (mem null_ctx) 0 b0) 1 b1)) 2.


(** ** Contexts under construction *)

(** Two descriptors of the same buffer: they differ at most in the
    content of the memory. *)
Definition same_desc (m m' : gk20a_cde_mem_desc) : Prop :=
  sgt m' = sgt m /\ iova m' = iova m /\ cpuva m' = cpuva m /\
  num_bytes m' = num_bytes m /\ gpu_va m' = gpu_va m.

(** [c'] extends [c]: it has the buffers, parameters and object contexts
    of [c], as registered in [c], and possibly more; the command lists of
    [c] are still ready in [c']. *)
Definition extends (c c' : gk20a_cde_ctx) : Prop :=
  num_bufs c <= num_bufs c' /\
  (forall k, k < num_bufs c -> same_desc (mem c k) (mem c' k)) /\
  num_params c <= num_params c' /\
  (forall i, i < num_params c -> params c' i = params c i) /\
  num_obj_ids c <= num_obj_ids c' /\
  (forall i, i < num_obj_ids c -> obj_ids c' i = obj_ids c i).

Definition is_buf_elem (e : gk20a_cde_hdr_elem) : bool :=
  match e with TYPE_BUF _ => true | _ => false end.

Definition is_param_elem (e : gk20a_cde_hdr_elem) : bool :=
  match e with TYPE_PARAM _ => true | _ => false end.

Definition is_class_elem (e : gk20a_cde_hdr_elem) : bool :=
  match e with TYPE_REQUIRED_CLASS _ => true | _ => false end.

(** The number of elements of one kind. *)
Definition count_elems (kind : gk20a_cde_hdr_elem -> bool)
    (es : list gk20a_cde_hdr_elem) : Z :=
  Z.of_nat (length (List.filter kind es)).

(** ** Resources taken and released

    Read off a trace: the GPU addresses of the mappings that succeeded
    and of the mappings that were removed, the object contexts that were
    allocated and those that were freed, in the order of the calls. *)
Definition mapped_vas (ev : list event) : list Z :=
  flat_map (fun e => match e with
                     | gk20a_gmmu_map _ _ va => if va =? 0 then [] else [va]
                     | _ => []
                     end) ev.

Definition unmapped_vas (ev : list event) : list Z :=
  flat_map (fun e => match e with gk20a_gmmu_unmap va _ => [va] | _ => [] end) ev.

Definition allocated_objs (ev : list event) : list Z :=
  flat_map (fun e => match e with
                     | gk20a_alloc_obj_ctx _ err id => if err =? 0 then [id] else []
                     | _ => []
                     end) ev.

Definition freed_objs (ev : list event) : list Z :=
  flat_map (fun e => match e with gk20a_free_obj_ctx id => [id] | _ => [] end) ev.

(** The GPU addresses of the buffers a context has registered, and the
    object contexts it has registered. *)
Definition held_vas (c : gk20a_cde_ctx) : list Z :=
  map (fun k => gpu_va (mem c k)) (upto (num_bufs c)).

Definition held_objs (c : gk20a_cde_ctx) : list Z :=
  map (obj_ids c) (upto (num_obj_ids c)).

(** The functions that build and tear down the content of a context:
    device memory, scatter-gather tables, GPU mappings, object contexts
    and the memory of the command lists. *)
Definition is_build_event (e : event) : bool :=
  match e with
  | dma_alloc_coherent _ _ _ | dma_free_coherent _ _ _
  | gk20a_get_sgtable _ _ _ _ _ | gk20a_free_sgtable _ | kfree_sgt _
  | gk20a_gmmu_map _ _ _ | gk20a_gmmu_unmap _ _
  | gk20a_alloc_obj_ctx _ _ _ | gk20a_free_obj_ctx _
  | kzalloc_gpfifo _ _ _ | kfree_gpfifo _ => true
  | _ => false
  end.

(** The fetches and releases of the firmware in a trace, the channels
    that were opened and those that were freed. *)
Definition is_firmware_event (e : event) : bool :=
  match e with
  | gk20a_request_firmware _ | release_firmware => true
  | _ => false
  end.

Definition firmware_events (ev : list event) : list event :=
  List.filter is_firmware_event ev.

Definition opened_channels (ev : list event) : list Z :=
  flat_map (fun e => match e with
                     | gk20a_open_new_channel ch => if ch =? 0 then [] else [ch]
                     | _ => []
                     end) ev.

Definition freed_channels (ev : list event) : list Z :=
  flat_map (fun e => match e with gk20a_free_channel ch => [ch] | _ => [] end) ev.

(** A trace faults when it reads a field of the channel [NULL]. *)
Definition is_null_read (e : event) : bool :=
  match e with
  | read_channel ch => ch =? 0
  | _ => false
  end.

Definition faults (ev : list event) : bool := existsb is_null_read ev.

(** The calls of [gk20a_cde_load] that come before the parse of the
    image. *)
Definition load_prefix (g : gk20a_hw) (e : load_env) : list event :=
  [gk20a_request_firmware true; gk20a_open_new_channel (env_channel e);
   gk20a_vm_get; channel_gk20a_commit_va (env_channel e) (env_commit_va e);
   gk20a_alloc_channel_gpfifo (env_channel e) (env_alloc_gpfifo e);
   gk20a_gmmu_map (compbit_store_sgt g) (compbit_store_size g) (env_backing_store e)].

(** The references on the address space that a trace returns. *)
Definition is_vm_put (e : event) : bool :=
  match e with gk20a_vm_put => true | _ => false end.

Definition vm_puts (ev : list event) : list event := List.filter is_vm_put ev.

(** The channel, the address space and the backing store mapping of
    [c'] are those of [c]. *)
Definition same_channel (c c' : gk20a_cde_ctx) : Prop :=
  ch c' = ch c /\ vm c' = vm c /\ backing_store_vaddr c' = backing_store_vaddr c.


(** Parameter [j] of the context patches cell [q] of buffer [k]; and no
    parameter declared after [i] patches a cell that parameter [i]
    patches. *)
Definition param_writes (c : gk20a_cde_ctx) (j k q : Z) : Prop :=
  param_target_buf (params c j) = k
  /\ (q = param_target_byte_offset (params c j) / 4
      \/ (stored_width (param_type_of (params c j)) = 64
          /\ q = param_target_byte_offset (params c j) / 4 + 1)).

Definition last_writer (c : gk20a_cde_ctx) (i : Z) : Prop :=
  forall j k q, i < j < num_params c -> param_writes c i k q -> ~ param_writes c j k q.

(** A context with the parameter of the richer image declared on its
    first buffer. *)
Definition one_param_ctx : gk20a_cde_ctx :=
  set_num_params
    (set_params two_buffer_ctx
       (aset (params two_buffer_ctx) 0
          {| param_id := 1029; param_target_buf := 0; param_shift := 0;
             param_type_of := TYPE_PARAM_TYPE_U64_LITTLE;
             param_data_offset := 0; param_target_byte_offset := 16;
             param_mask := 2 ^ 64 - 1 |})) 1.

(** The submissions to a channel in a trace. *)
Definition is_submission (e : event) : bool :=
  match e with gk20a_submit_channel_gpfifo _ _ _ _ _ => true | _ => false end.

Definition submissions (ev : list event) : list event := List.filter is_submission ev.








(** The command list of an operation and its number of entries, as
    [gk20a_cde_execute_buffer] selects them. *)
Definition cmd_of (op : command_op) (c : gk20a_cde_ctx) : option (list nvhost_gpfifo) :=
  match op with
  | TYPE_BUF_COMMAND_INIT => init_cmd c
  | _ => convert_cmd c
  end.

Definition cmd_num_entries_of (op : command_op) (c : gk20a_cde_ctx) : Z :=
  match op with
  | TYPE_BUF_COMMAND_INIT => init_cmd_num_entries c
  | _ => convert_cmd_num_entries c
  end.

Definition known_op (op : command_op) : Prop :=
  op = TYPE_BUF_COMMAND_INIT \/ op = TYPE_BUF_COMMAND_CONVERT.

Section BuildVocabulary.

Context {hdr : cde_gk20a_h}.



(** The tables of the context are within their bounds; the buffer table
    can reach one entry past its bound. *)
Definition tables_bounded (c : gk20a_cde_ctx) : Prop :=
  num_bufs c <= MAX_CDE_BUFS + 1 /\
  num_params c <= MAX_CDE_PARAMS /\
  num_obj_ids c <= MAX_CDE_OBJ_IDS.


(** The load of slot [i] of the pool, as [gk20a_init_cde_support]
    calls it. *)
Definition slot_load (g : gk20a_hw) (app : gk20a_cde_app) (env : pool_env) (i : Z)
    : Z * gk20a_cde_ctx * list event :=
  gk20a_cde_load g (cde_ctx app i) (env i).

(** Every slot of the pool is loaded. *)
Definition all_loaded (app : gk20a_cde_app) : Prop :=
  forall i, 0 <= i < NUM_CDE_CTX -> slot_loaded (cde_ctx app i) = true.

(** A load of the context [c] in which the backing store is mapped and
    every element of the image that is fetched is handled without
    error. *)
Definition slot_parses (g : gk20a_hw) (c : gk20a_cde_ctx) (e : load_env) : Prop :=
  env_backing_store e <> 0
  /\ forall img, env_firmware e = Some img ->
       all_handled (set_channel c (env_channel e) (pmu_vm g) (env_backing_store e))
         img (env_elems e).

Definition every_slot_parses (g : gk20a_hw) (ctx : array gk20a_cde_ctx) (env : pool_env)
    : Prop :=
  forall i, 0 <= i < NUM_CDE_CTX -> slot_parses g (ctx i) (env i).

(** The slot of the user table that an argument of a conversion goes
    to, and the arguments that [gk20a_cde_convert] accepts. *)
Definition user_slot (p : gk20a_cde_param) : Z := s32 (user_id p - NUM_RESERVED_PARAMS).

Definition in_user_range (p : gk20a_cde_param) : Prop :=
  0 <= user_slot p < MAX_CDE_USER_PARAMS.

End BuildVocabulary.

(** An image with a parameter and a required class besides the buffer
    and the two command lists. *)
Definition richer_image : firmware :=
  {| size := 1024; version := 1;
     elems := [ TYPE_BUF {| buf_data_byte_offset := 0; buf_num_bytes := 64 |};
                TYPE_REQUIRED_CLASS 0xA0C0;
                TYPE_PARAM {| param_id := 5; param_target_buf := 0; param_shift := 0;
                              param_type_of := TYPE_PARAM_TYPE_U64_LITTLE;
                              param_data_offset := 0; param_target_byte_offset := 16;
                              param_mask := 2 ^ 64 - 1 |};
                TYPE_COMMAND {| command_op_of := TYPE_BUF_COMMAND_INIT;
                                command_num_entries := 1;
                                command_data_byte_offset := 512 |};
                TYPE_COMMAND {| command_op_of := TYPE_BUF_COMMAND_CONVERT;
                                command_num_entries := 2;
                                command_data_byte_offset := 512 |} ];
     cmd_elems := fun _ i => {| cmd_target_buf := 0; cmd_target_byte_offset := 8 * i;
                                cmd_num_bytes := 16 |};
     bytes := fun _ => 0 |}.

(** An image whose second element refers to a buffer that was never
    declared; a buffer declaration follows it. *)
Definition broken_image : firmware :=
  {| size := 1024; version := 1;
     elems := [ TYPE_BUF {| buf_data_byte_offset := 0; buf_num_bytes := 64 |};
                TYPE_PARAM {| param_id := 5; param_target_buf := 3; param_shift := 0;
                              param_type_of := TYPE_PARAM_TYPE_U32;
                              param_data_offset := 0; param_target_byte_offset := 0;
                              param_mask := 0xFFFFFFFF |};
                TYPE_BUF {| buf_data_byte_offset := 0; buf_num_bytes := 32 |} ];
     cmd_elems := fun _ _ => {| cmd_target_buf := 0; cmd_target_byte_offset := 0;
                                cmd_num_bytes := 16 |};
     bytes := fun _ => 0 |}.

(** The firmware cannot be fetched for slot 1; the other slots load. *)
Definition second_slot_fails : pool_env :=
  fun i => if i =? 1 then no_firmware_env else good_load_env.

(** An image that declares a buffer and no command list, and a pool
    whose slot 1 is loaded from it. *)
Definition no_commands_image : firmware :=
  {| size := 1024; version := 1;
     elems := [ TYPE_BUF {| buf_data_byte_offset := 0; buf_num_bytes := 64 |} ];
     cmd_elems := fun _ _ => {| cmd_target_buf := 0; cmd_target_byte_offset := 0;
                                cmd_num_bytes := 16 |};
     bytes := fun _ => 0 |}.

Definition no_commands_env : load_env :=
  {| env_firmware := Some no_commands_image; env_channel := 6; env_commit_va := 0;
     env_alloc_gpfifo := 0; env_backing_store := 0x200000;
     env_elems := fun _ => good_elem_env |}.

Definition second_slot_lacks_commands : pool_env :=
  fun i => if i =? 1 then no_commands_env else good_load_env.

(** A load from the broken image. *)
Definition broken_load_env : load_env :=
  {| env_firmware := Some broken_image; env_channel := 5; env_commit_va := 0;
     env_alloc_gpfifo := 0; env_backing_store := 0x200000;
     env_elems := fun _ => good_elem_env |}.

(** * Properties *)

(** ** Fixed-width arithmetic and buffer memory *)

Lemma u32_bits x n : 0 <= n -> Z.testbit (u32 x) n = (n <? 32) && Z.testbit x n.
Proof. intros. unfold u32. apply Z.testbit_mod_pow2. lia. Qed.

Lemma u64_bits x n : 0 <= n -> Z.testbit (u64 x) n = (n <? 64) && Z.testbit x n.
Proof. intros. unfold u64. apply Z.testbit_mod_pow2. lia. Qed.

Lemma not64_bits x n : 0 <= n -> Z.testbit (not64 x) n = (n <? 64) && negb (Z.testbit x n).
Proof. intros. unfold not64. rewrite u64_bits, Z.lnot_spec by lia. reflexivity. Qed.

Lemma u32_range x : 0 <= u32 x < 2 ^ 32.
Proof. unfold u32. apply Z.mod_pos_bound. lia. Qed.

Lemma u32_idem x : u32 (u32 x) = u32 x.
Proof. unfold u32. apply Z.mod_mod. lia. Qed.

Lemma load_store_u32 m p v : load_u32 (store_u32 m p v) p = u32 v.
Proof. unfold load_u32, store_u32, aset. rewrite Z.eqb_refl. apply u32_idem. Qed.

Lemma load_store_u32_other m p q v : q <> p -> load_u32 (store_u32 m p v) q = load_u32 m q.
Proof. intros. unfold load_u32, store_u32, aset. destruct (Z.eqb_spec q p); [lia|reflexivity]. Qed.

Lemma load_store_u64 m p v : load_u64 (store_u64 m p v) p = u64 v.
Proof.
  unfold load_u64, store_u64.
  rewrite load_store_u32_other by lia. rewrite !load_store_u32.
  unfold u64_lo32, u64_hi32. rewrite !u32_idem. unfold u32, u64.
  rewrite Z.shiftr_div_pow2 by lia.
  change (2 ^ 64) with (2 ^ 32 * 2 ^ 32).
  rewrite Z.rem_mul_r by lia. reflexivity.
Qed.

Lemma load_u64_range m p : 0 <= load_u64 m p < 2 ^ 64.
Proof. unfold load_u64. pose proof (u32_range (m p)). pose proof (u32_range (m (p+1))). unfold load_u32. lia. Qed.

Lemma u64_small x : 0 <= x < 2 ^ 64 -> u64 x = x.
Proof. intros. unfold u64. apply Z.mod_small. lia. Qed.

Lemma high_bits_zero x n : 0 <= x < 2 ^ 64 -> 64 <= n -> Z.testbit x n = false.
Proof. intros. rewrite <- (u64_small x) by lia. rewrite u64_bits by lia. destruct (Z.ltb_spec n 64); [lia|reflexivity]. Qed.

Lemma swap_halves_bits x n : 0 <= n ->
  Z.testbit (swap_halves x) n = Z.testbit x (n + 32) || ((n <? 64) && Z.testbit x (n - 32)).
Proof. intros. unfold swap_halves. rewrite Z.lor_spec, Z.shiftr_spec, u64_bits, Z.shiftl_spec by lia. reflexivity. Qed.

Lemma in_u64_of_bits x : 0 <= x -> (forall n, 64 <= n -> Z.testbit x n = false) -> 0 <= x < 2 ^ 64.
Proof.
  intros Hx Hb. split; [lia|].
  assert (x = u64 x) as ->; [|unfold u64; apply Z.mod_pos_bound; lia].
  apply Z.bits_inj'. intros n Hn. rewrite u64_bits by lia.
  destruct (Z.ltb_spec n 64); simpl; [reflexivity|]. apply Hb. lia.
Qed.

Lemma swap_halves_range x : 0 <= x < 2 ^ 64 -> 0 <= swap_halves x < 2 ^ 64.
Proof.
  intros Hx. apply in_u64_of_bits.
  - unfold swap_halves. apply Z.lor_nonneg. split.
    + apply Z.shiftr_nonneg. lia.
    + unfold u64. apply Z.mod_pos_bound. lia.
  - intros n Hn. rewrite swap_halves_bits by lia.
    rewrite (high_bits_zero x (n + 32)) by lia.
    destruct (Z.ltb_spec n 64); [lia|reflexivity].
Qed.

Ltac ltb_cases :=
  repeat match goal with
  | |- context [?a <? ?b] => destruct (Z.ltb_spec a b); try lia
  end.

Lemma swap_halves_involutive x : 0 <= x < 2 ^ 64 -> swap_halves (swap_halves x) = x.
Proof.
  intros Hx. apply Z.bits_inj'. intros n Hn.
  rewrite swap_halves_bits by lia.
  destruct (Z.ltb_spec n 32).
  - rewrite swap_halves_bits by lia. replace (n + 32 - 32) with n by lia.
    rewrite (high_bits_zero x (n + 32 + 32)) by lia.
    rewrite (Z.testbit_neg_r _ (n - 32)) by lia.
    ltb_cases; simpl; destruct (Z.testbit x n); reflexivity.
  - rewrite (swap_halves_bits x (n + 32)) by lia.
    rewrite (high_bits_zero x (n + 32 + 32)) by lia.
    destruct (Z.ltb_spec n 64).
    + rewrite swap_halves_bits by lia. replace (n - 32 + 32) with n by lia.
      rewrite (Z.testbit_neg_r _ (n - 32 - 32)) by lia.
      ltb_cases; simpl; destruct (Z.testbit x n); reflexivity.
    + rewrite (high_bits_zero x n) by lia. ltb_cases; reflexivity.
Qed.

Lemma patched_bits cur sv mask n : 0 <= n ->
  Z.testbit (Z.lor (Z.land cur (not64 mask)) (Z.land sv mask)) n =
  if Z.testbit mask n then Z.testbit sv n else (n <? 64) && Z.testbit cur n.
Proof.
  intros. rewrite Z.lor_spec, !Z.land_spec, not64_bits by lia.
  destruct (Z.testbit mask n), (Z.testbit sv n), (Z.testbit cur n), (n <? 64); reflexivity.
Qed.

Lemma patched_range cur sv mask :
  0 <= cur < 2 ^ 64 -> 0 <= mask < 2 ^ 64 ->
  0 <= Z.lor (Z.land cur (not64 mask)) (Z.land sv mask) < 2 ^ 64.
Proof.
  intros Hc Hm. apply in_u64_of_bits.
  - apply Z.lor_nonneg. split; apply Z.land_nonneg; lia.
  - intros n Hn. rewrite patched_bits by lia.
    rewrite (high_bits_zero mask n) by lia.
    destruct (Z.ltb_spec n 64); [lia|reflexivity].
Qed.

Lemma read_target_range m target type old :
  read_target m target type = Some old -> 0 <= old < 2 ^ 64.
Proof.
  destruct type; simpl; intros [= <-].
  - pose proof (u32_range (m target)). unfold load_u32. lia.
  - apply load_u64_range.
  - apply swap_halves_range, load_u64_range.
Qed.

(** ** The binary patcher *)

(** C8, as amended.  For each of the three patch types, every target,
    signed shift, 64-bit mask and value: [gk20a_replace_data] succeeds,
    and reading the target back with the same type and applying the same
    mask gives the masked bits of the shifted value -- all of them for
    the two 64-bit types, their low 32 bits for the 32-bit type -- while
    every bit of the target outside the mask is as it was before the
    write. *)
Theorem replace_data_round_trip m target type shift mask value :
  0 <= mask < 2 ^ 64 -> known_type type ->
  round_trip_with (kept_bits type) m target type shift mask value.
Proof.
  intros Hm Hk. unfold round_trip_with, gk20a_replace_data.
  destruct (read_target m target type) as [old|] eqn:Hold;
    [|destruct type; simpl in *; try discriminate; contradiction].
  pose proof (read_target_range _ _ _ _ Hold) as Hr.
  set (sv := shift_value shift value).
  set (new_value := Z.lor (Z.land old (not64 mask)) (Z.land sv mask)).
  assert (Hn : 0 <= new_value < 2 ^ 64) by (apply patched_range; assumption).
  assert (Hbits : forall i, 0 <= i < 64 -> Z.testbit mask i = false ->
                            Z.testbit new_value i = Z.testbit old i).
  { intros i Hi Hmi. unfold new_value. rewrite patched_bits, Hmi by lia.
    destruct (Z.ltb_spec i 64); [reflexivity|lia]. }
  assert (Hland : Z.land new_value mask = Z.land sv mask).
  { apply Z.bits_inj'. intros n Hn0. unfold new_value.
    rewrite !Z.land_spec, patched_bits by lia.
    destruct (Z.testbit mask n); [reflexivity|]. rewrite !andb_false_r. reflexivity. }
  destruct type; simpl in Hk; try contradiction; simpl.
  - exists old, (u32 new_value), (store_u32 m target (u32 new_value)).
    rewrite load_store_u32, u32_idem. repeat split; try reflexivity.
    + apply Z.bits_inj'. intros n Hn0.
      rewrite Z.land_spec, !u32_bits, <- Hland, Z.land_spec by lia.
      destruct (n <? 32); reflexivity.
    + intros i Hi Hmi. rewrite u32_bits by lia.
      destruct (Z.ltb_spec i 32); [|lia]. simpl. apply Hbits; [lia|assumption].
  - exists old, new_value, (store_u64 m target new_value).
    rewrite load_store_u64, u64_small by assumption. repeat split; try reflexivity.
    + exact Hland.
    + exact Hbits.
  - exists old, new_value, (store_u64 m target (swap_halves new_value)).
    rewrite load_store_u64, u64_small by (apply swap_halves_range; assumption).
    rewrite swap_halves_involutive by assumption. repeat split; try reflexivity.
    + exact Hland.
    + exact Hbits.
Qed.

(** A half-swapped 64-bit patch of an empty buffer. *)
Lemma replace_data_round_trip_witness :
  0 <= 2 ^ 40 - 1 < 2 ^ 64 /\ known_type TYPE_PARAM_TYPE_U64_BIG /\
  round_trip_with (kept_bits TYPE_PARAM_TYPE_U64_BIG) (fun _ => 0) 0
    TYPE_PARAM_TYPE_U64_BIG 8 (2 ^ 40 - 1) 0x12345678.
Proof.
  split; [lia|]. split; [exact I|].
  apply replace_data_round_trip; [lia | exact I].
Defined.

(** C8 as stated does not hold for the 32-bit type: with an all-ones mask
    and the value [2^32], the masked value has bit 32 set, the target
    keeps the low 32 bits only, and what is read back is 0. *)
Lemma replace_data_u32_truncates :
  ~ round_trip_as_claimed (fun _ => 0) 0 TYPE_PARAM_TYPE_U32 0 (2 ^ 64 - 1) (2 ^ 32).
Proof.
  intros (old & new & m' & _ & Hrun & Hread & Hland & _).
  unfold gk20a_replace_data in Hrun. simpl read_target in Hrun.
  injection Hrun as <-. simpl in Hread. rewrite load_store_u32 in Hread.
  injection Hread as <-. vm_compute in Hland. discriminate.
Qed.

(** ** Launch geometry *)

Lemma s32_multiple (d q : Z) :
  (d | 2 ^ 32) -> exists k, s32 (q * d) = k * d.
Proof.
  intros [e He]. unfold s32. cbv zeta.
  assert (Hm : exists k, (q * d) mod 2 ^ 32 = k * d).
  { pose proof (Z.mod_eq (q * d) (2 ^ 32) ltac:(lia)) as E.
    set (t := q * d / 2 ^ 32) in E. clearbody t.
    exists (q - e * t). rewrite E, He. ring. }
  destruct Hm as [k Hk]. rewrite Hk.
  destruct (k * d <? 2 ^ 31).
  - exists k. reflexivity.
  - exists (k - e). rewrite He. ring.
Qed.

Lemma roundup_multiple (x y : Z) : (y | 2 ^ 32) -> exists k, roundup x y = k * y.
Proof. intros Hy. unfold roundup. apply s32_multiple, Hy. Qed.

Section Geometry.

Context {hdr : cde_gk20a_h}.

(** The alignment test can never fail: [roundup] makes the tile pitch a
    multiple of 64 / 4 and the tile rows a multiple of 8. *)
Lemma grid_never_misaligned consumer width height :
  grid_misaligned (compute_geometry consumer width height) = false.
Proof.
  unfold grid_misaligned, compute_geometry; cbn [tilepitch ytilesaligned wgx wgy].
  change (4 * 16) with 64.
  destruct (roundup_multiple
              (Z.shiftr (s32 (s32 (if consumer =? NVHOST_GPU_COMPBITS_CDEV
                                   then height else width) + 7)) 3) 64) as [k Hk];
    [exists (2 ^ 26); reflexivity|].
  destruct (roundup_multiple
              (Z.shiftr (s32 (s32 (if consumer =? NVHOST_GPU_COMPBITS_CDEV
                                   then width else height) + 7)) 3) 8) as [j Hj];
    [exists (2 ^ 29); reflexivity|].
  rewrite Hk, Hj.
  replace (k * 64) with (k * 16 * 4) by ring.
  rewrite Z.quot_mul by lia. rewrite !Z.rem_mul by lia. reflexivity.
Qed.

(** C9.  For a conversion that is not transposed, width 128 and height 64
    give 16 by 8 tiles, a 1 by 1 grid of 16 by 8 work groups and no
    alignment error.  For every surface, the geometry stage rejects the
    launch exactly when the aligned tile pitch is not a multiple of 16 or
    the aligned number of tile rows is not a multiple of 8, and the error
    is [-EINVAL]. *)
Theorem launch_geometry_check (app : gk20a_cde_app)
    (consumer width height block_height_log2 : Z) :
  (consumer <> NVHOST_GPU_COMPBITS_CDEV ->
   let geo := compute_geometry consumer 128 64 in
   xtiles geo = 16 /\ ytiles geo = 8 /\
   gridw geo = 1 /\ gridh geo = 1 /\ wgx geo = 16 /\ wgy geo = 8 /\
   launch_setup app consumer 128 64 block_height_log2
   = inr (launch_params geo block_height_log2 (shader_parameter app)))
  /\
  (let geo := compute_geometry consumer width height in
   (exists err, launch_setup app consumer width height block_height_log2 = inl err)
   <-> (Z.rem (tilepitch geo) 16 <> 0 \/ Z.rem (ytilesaligned geo) 8 <> 0))
  /\
  (forall err, launch_setup app consumer width height block_height_log2 = inl err ->
               err = - EINVAL).
Proof.
  split; [|split].
  - intros Hc. unfold launch_setup.
    rewrite grid_never_misaligned.
    unfold compute_geometry.
    destruct (Z.eqb_spec consumer NVHOST_GPU_COMPBITS_CDEV) as [|_]; [contradiction|].
    repeat split; reflexivity.
  - cbv zeta. unfold launch_setup, grid_misaligned.
    change (wgx (compute_geometry consumer width height)) with 16.
    change (wgy (compute_geometry consumer width height)) with 8.
    destruct (Z.eqb_spec (Z.rem (tilepitch (compute_geometry consumer width height)) 16) 0) as [Hx|Hx];
      destruct (Z.eqb_spec (Z.rem (ytilesaligned (compute_geometry consumer width height)) 8) 0) as [Hy|Hy];
      simpl; split; try (intros [err Herr]; discriminate); try (intros [?|?]; contradiction);
      try (intros _; eexists; reflexivity); intros _; auto.
  - unfold launch_setup. destruct (grid_misaligned _); intros err [= <-]. reflexivity.
Qed.

(** A rejected launch leaves the pool alone: the function returns before
    [gk20a_busy]. *)
Lemma convert_gpu_to_cde_rejects_early g app dmabuf consumer offset compbits_offset
    width height block_height_log2 submit_flags e err :
  launch_setup app consumer width height block_height_log2 = inl err ->
  gk20a_buffer_convert_gpu_to_cde g app dmabuf consumer offset compbits_offset
    width height block_height_log2 submit_flags e = (err, app, None, []).
Proof. intros Hs. unfold gk20a_buffer_convert_gpu_to_cde. rewrite Hs. reflexivity. Qed.

End Geometry.

(** The horizontal conversion of a 128 by 64 surface. *)
Lemma launch_geometry_check_witness :
  2 <> NVHOST_GPU_COMPBITS_CDEV (cde_gk20a_h := header_with_slots 1) /\
  let geo := compute_geometry (hdr := header_with_slots 1) 2 128 64 in
  xtiles geo = 16 /\ ytiles geo = 8 /\ gridw geo = 1 /\ gridh geo = 1.
Proof.
  assert (Hc : 2 <> NVHOST_GPU_COMPBITS_CDEV (cde_gk20a_h := header_with_slots 1))
    by discriminate.
  split; [exact Hc|].
  destruct (proj1 (launch_geometry_check (hdr := header_with_slots 1)
                     null_app 2 128 64 0) Hc) as (Hx & Hy & Hw & Hh & _).
  cbv zeta. auto.
Defined.

(** ** The buffer allocator *)

Lemma num_bufs_set_mem c m : num_bufs (set_mem c m) = num_bufs c.
Proof. destruct c; reflexivity. Qed.

Lemma num_bufs_set_num_bufs c n : num_bufs (set_num_bufs c n) = n.
Proof. destruct c; reflexivity. Qed.

Lemma mem_set_mem c m : mem (set_mem c m) = m.
Proof. destruct c; reflexivity. Qed.

Lemma mem_set_num_bufs c n : mem (set_num_bufs c n) = mem c.
Proof. destruct c; reflexivity. Qed.

Lemma aset_same {A} (a : array A) i v : aset a i v i = v.
Proof. unfold aset. rewrite Z.eqb_refl. reflexivity. Qed.

Lemma aset_other {A} (a : array A) i j v : j <> i -> aset a i v j = a j.
Proof. intros Hne. unfold aset. destruct (Z.eqb_spec j i); [contradiction|reflexivity]. Qed.

(** A branch of the allocator that returns an error. *)
Ltac failed_step :=
  split;
  [ let E := fresh in intros E; vm_compute in E; discriminate
  | split;
    [ intros _; rewrite ?num_bufs_set_mem; reflexivity
    | let i := fresh in let Hi := fresh in
      intros i Hi; rewrite ?mem_set_mem; try apply aset_other; auto ] ].

Section Allocator.

Context {hdr : cde_gk20a_h}.

Lemma buf_fits_test img buf :
  buf_fits img buf ->
  negb (buf_data_byte_offset buf =? 0)
  && (size img <? u64 (buf_data_byte_offset buf + buf_num_bytes buf)) = false.
Proof.
  intros [H0|Hle].
  - rewrite H0. reflexivity.
  - destruct (Z.ltb_spec (size img) (u64 (buf_data_byte_offset buf + buf_num_bytes buf)));
      [lia|]. apply andb_false_r.
Qed.

(** The count moves only on success, and success means that all three
    steps succeeded; every failure returns a nonzero status. *)
Lemma init_cde_buf_count c img buf e :
  let '(err, c', ev) := gk20a_init_cde_buf c img buf e in
  (err = 0 ->
     num_bufs c' = num_bufs c + 1 /\
     alloc_cpuva e <> 0 /\ sgtable_err e = 0 /\ gmmu_map_va e <> 0 /\
     cpuva (mem c' (num_bufs c)) = alloc_cpuva e /\
     sgt (mem c' (num_bufs c)) = sgtable_sgt e /\
     gpu_va (mem c' (num_bufs c)) = gmmu_map_va e)
  /\ (err <> 0 -> num_bufs c' = num_bufs c)
  /\ (forall i, i <> num_bufs c -> mem c' i = mem c i).
Proof.
  unfold gk20a_init_cde_buf.
  destruct (negb _ && _); [failed_step|].
  destruct (num_bufs c >? MAX_CDE_BUFS); [failed_step|].
  cbn [cpuva sgt iova num_bytes gpu_va data].
  destruct (Z.eqb_spec (alloc_cpuva e) 0) as [|Hcpu]; [failed_step|].
  destruct (Z.eqb_spec (sgtable_err e) 0) as [Hsgt|Hsgt]; cbn [negb]; [|failed_step].
  destruct (Z.eqb_spec (gmmu_map_va e) 0) as [|Hmap]; [failed_step|].
  split; [intros _|split; [intros Hne; contradiction Hne; reflexivity|]].
  - rewrite num_bufs_set_num_bufs, mem_set_num_bufs, mem_set_mem, aset_same.
    repeat split; try assumption; destruct (negb _); reflexivity.
  - intros i Hi. rewrite mem_set_num_bufs, mem_set_mem. apply aset_other, Hi.
Qed.

(** C6 fails on the code.  With the buffer table full ([num_bufs] equal to
    [MAX_CDE_BUFS]) the test [num_bufs > MAX_CDE_BUFS] does not fire: when
    the three steps succeed, the declaration is accepted, memory is
    allocated for it, its descriptor is written to [mem[MAX_CDE_BUFS]],
    one past the table, and the count becomes [MAX_CDE_BUFS + 1]. *)
Theorem init_cde_buf_accepts_full_table c img buf e :
  num_bufs c = MAX_CDE_BUFS ->
  buf_fits img buf ->
  alloc_cpuva e <> 0 -> sgtable_err e = 0 -> gmmu_map_va e <> 0 ->
  exists c',
    gk20a_init_cde_buf c img buf e
    = (0, c',
       [ dma_alloc_coherent (buf_num_bytes buf) (alloc_cpuva e) (alloc_iova e);
         gk20a_get_sgtable (alloc_cpuva e) (alloc_iova e) (buf_num_bytes buf)
           0 (sgtable_sgt e);
         gk20a_gmmu_map (sgtable_sgt e) (buf_num_bytes buf) (gmmu_map_va e) ])
    /\ num_bufs c' = MAX_CDE_BUFS + 1
    /\ cpuva (mem c' MAX_CDE_BUFS) = alloc_cpuva e
    /\ gpu_va (mem c' MAX_CDE_BUFS) = gmmu_map_va e.
Proof.
  intros Hfull Hfit Hcpu Hsgt Hmap.
  unfold gk20a_init_cde_buf. rewrite (buf_fits_test _ _ Hfit).
  rewrite Hfull. rewrite Z.gtb_ltb, Z.ltb_irrefl.
  cbn [cpuva sgt iova num_bytes gpu_va data].
  destruct (Z.eqb_spec (alloc_cpuva e) 0) as [|_]; [contradiction|].
  rewrite Hsgt. cbn [Z.eqb negb].
  destruct (Z.eqb_spec (gmmu_map_va e) 0) as [|_]; [contradiction|].
  eexists. split; [reflexivity|].
  rewrite num_bufs_set_num_bufs, mem_set_num_bufs, mem_set_mem, aset_same.
  repeat split; destruct (negb _); reflexivity.
Qed.

(** The declaration is turned away only from [MAX_CDE_BUFS + 1] buffers
    on. *)
Lemma init_cde_buf_table_test c img buf e :
  buf_fits img buf ->
  (gk20a_init_cde_buf c img buf e = (- ENOMEM, c, []) <-> MAX_CDE_BUFS < num_bufs c).
Proof.
  intros Hfit. unfold gk20a_init_cde_buf. rewrite (buf_fits_test _ _ Hfit).
  destruct (Z.gtb_spec (num_bufs c) MAX_CDE_BUFS) as [Hgt|Hle].
  - split; [intros _; lia|reflexivity].
  - split; [|lia]. cbn [cpuva sgt iova num_bytes gpu_va data].
    destruct (alloc_cpuva e =? 0); [discriminate|].
    destruct (negb (sgtable_err e =? 0)); [discriminate|].
    destruct (gmmu_map_va e =? 0); discriminate.
Qed.

(** C7 fails on the code.  When the coherent memory of a declared buffer
    has been obtained and a later step fails (the scatter-gather table or
    the GPU mapping), the function returns [-ENOMEM] and leaves the count
    alone, but the memory is not released: both error paths call
    [dma_free_coherent] with the address of the descriptor's [cpuva]
    field, not with the pointer [dma_alloc_coherent] returned. *)
Theorem init_cde_buf_error_path_keeps_allocation c img buf e :
  buf_fits img buf ->
  num_bufs c <= MAX_CDE_BUFS ->
  alloc_cpuva e <> 0 ->
  sgtable_err e <> 0 \/ gmmu_map_va e = 0 ->
  exists c' ev,
    gk20a_init_cde_buf c img buf e = (- ENOMEM, c', ev)
    /\ num_bufs c' = num_bufs c
    /\ In (dma_alloc_coherent (buf_num_bytes buf) (alloc_cpuva e) (alloc_iova e)) ev
    /\ In (dma_free_coherent (buf_num_bytes buf)
             (addr_of_cpuva_field (num_bufs c)) (alloc_iova e)) ev
    /\ ~ coherent_released ev (buf_num_bytes buf) (alloc_cpuva e) (alloc_iova e).
Proof.
  intros Hfit Hroom Hcpu Hfail.
  unfold gk20a_init_cde_buf. rewrite (buf_fits_test _ _ Hfit).
  destruct (Z.gtb_spec (num_bufs c) MAX_CDE_BUFS) as [|_]; [lia|].
  cbn [cpuva sgt iova num_bytes gpu_va data].
  destruct (Z.eqb_spec (alloc_cpuva e) 0) as [|_]; [contradiction|].
  unfold coherent_released.
  destruct (Z.eqb_spec (sgtable_err e) 0) as [Hsgt|Hsgt]; cbn [negb].
  - destruct Hfail as [|Hmap]; [contradiction|]. rewrite Hmap. cbn [Z.eqb].
    eexists _, _. split; [reflexivity|]. rewrite num_bufs_set_mem.
    split; [reflexivity|]. cbn.
    split; [tauto|]. split; [tauto|].
    intros [?|[?|[?|[?|[?|[?|[]]]]]]]; discriminate.
  - eexists _, _. split; [reflexivity|]. rewrite num_bufs_set_mem.
    split; [reflexivity|]. cbn.
    split; [tauto|]. split; [tauto|].
    intros [?|[?|[?|[]]]]; discriminate.
Qed.

End Allocator.

(** The eleventh buffer of a context that holds ten. *)
Lemma init_cde_buf_accepts_full_table_witness :
  num_bufs full_ctx = MAX_CDE_BUFS (cde_gk20a_h := header_with_slots 1) /\
  exists c',
    fst (fst (gk20a_init_cde_buf (hdr := header_with_slots 1) full_ctx example_image
                small_buf good_buf_env)) = 0
    /\ snd (fst (gk20a_init_cde_buf (hdr := header_with_slots 1) full_ctx example_image
                   small_buf good_buf_env)) = c'
    /\ num_bufs c' = 11.
Proof.
  split; [reflexivity|].
  destruct (init_cde_buf_accepts_full_table (hdr := header_with_slots 1)
              full_ctx example_image small_buf good_buf_env)
    as (c' & Hrun & Hn & _);
    [reflexivity | left; reflexivity | discriminate | reflexivity | discriminate |].
  exists c'. rewrite Hrun. repeat split. exact Hn.
Defined.

(** The first buffer of an empty context, when no scatter-gather table
    can be built for it. *)
Lemma init_cde_buf_error_path_keeps_allocation_witness :
  exists c' ev,
    gk20a_init_cde_buf (hdr := header_with_slots 1) null_ctx example_image
      small_buf sgtable_fails_env = (- ENOMEM, c', ev)
    /\ In (dma_free_coherent 64 (addr_of_cpuva_field 0) 0x80001000) ev
    /\ ~ coherent_released ev 64 0xC0001000 0x80001000.
Proof.
  destruct (init_cde_buf_error_path_keeps_allocation (hdr := header_with_slots 1)
              null_ctx example_image small_buf sgtable_fails_env)
    as (c' & ev & Hrun & _ & _ & Hfree & Hkeep);
    [left; reflexivity | cbn; lia | discriminate | left; discriminate |].
  exists c', ev. repeat split; assumption.
Defined.

(** ** Per-conversion patching *)

Lemma params_set_mem c m : params (set_mem c m) = params c.
Proof. destruct c; reflexivity. Qed.

Lemma replace_data_known m target type shift mask value :
  known_type type ->
  exists d, gk20a_replace_data m target type shift mask value = (0, d).
Proof.
  intros Hk. unfold gk20a_replace_data.
  destruct type; simpl in *; try contradiction; eexists; reflexivity.
Qed.

Lemma upto_spec n i : In i (upto n) <-> 0 <= i < n.
Proof.
  unfold upto. rewrite in_map_iff. split.
  - intros (k & <- & Hk). apply in_seq in Hk. lia.
  - intros Hi. exists (Z.to_nat i). split; [lia|]. apply in_seq. lia.
Qed.

Section Params.

Context {hdr : cde_gk20a_h}.

(** With parameter types that the patcher knows, the loop cannot fail,
    whatever the address lookup returns. *)
Lemma patch_params_from_succeeds g src_iova indices :
  forall c err,
    (forall i, In i indices -> known_type (param_type_of (params c i))) ->
    fst (patch_params_from g c src_iova indices err) = 0.
Proof.
  induction indices as [|i rest IH]; intros c err Hk; [reflexivity|].
  cbn [patch_params_from].
  destruct (patch_value g c src_iova (params c i) err) as [[new_data err']|].
  - destruct (replace_data_known
                (data (mem c (param_target_buf (params c i))))
                (param_target_byte_offset (params c i) / 4)
                (param_type_of (params c i)) (param_shift (params c i))
                (param_mask (params c i))
                (u64 (new_data + param_data_offset (params c i)))) as [d Hd];
      [apply Hk; left; reflexivity|].
    rewrite Hd. cbn [Z.eqb negb]. apply IH.
    intros j Hj. rewrite params_set_mem. apply Hk. right. exact Hj.
  - apply IH. intros j Hj. apply Hk. right. exact Hj.
Qed.

End Params.

(** A conversion whose source has no SMMU address: the 64-bit field, all
    ones before, holds the address 0 afterwards. *)
Example patch_params_writes_zero_address :
  let before := data (mem smmu_ctx 0) in
  let after := data (mem (snd (gk20a_cde_patch_params (hdr := header_with_slots 1)
                                 example_hw smmu_ctx 0)) 0) in
  load_u64 before 0 = 2 ^ 64 - 1 /\ load_u64 after 0 = 0.
Proof. split; vm_compute; reflexivity. Qed.

(** ** The firmware image parser *)

Lemma torn_down_clear_img c : torn_down (clear_img c).
Proof. destruct c. repeat split. Qed.

(** A status that is an error constant is not 0. *)
Ltac not_ok H := exfalso; vm_compute in H; discriminate H.

Section Parser.

Context {hdr : cde_gk20a_h}.










End Parser.



(** ** The context pool: reload *)

Lemma cde_ctx_set_ctx_same app i c : cde_ctx (set_ctx app i c) i = c.
Proof. apply aset_same. Qed.

Lemma cde_ctx_set_ctx_other app i j c : j <> i -> cde_ctx (set_ctx app i c) j = cde_ctx app j.
Proof. apply aset_other. Qed.

Lemma default_last_cons {A} (x d : A) (l : list A) :
  default d (last (x :: l)) = default x (last l).
Proof. rewrite last_cons. destruct (last l); reflexivity. Qed.

Section Reload.

Context {hdr : cde_gk20a_h}.

(** The loop of the reload over the slots [k], ..., [k + n - 1]: its
    status is the one of the last slot, and it touches neither the
    pointer, nor the flag, nor any other slot. *)
Lemma reload_slots_spec g env n :
  forall k app err0,
    let r := reload_slots g app env (map Z.of_nat (seq k n)) err0 in
    fst (fst r)
    = default err0 (last (map (slot_status g app env) (map Z.of_nat (seq k n))))
    /\ cde_ctx_ptr (snd (fst r)) = cde_ctx_ptr app
    /\ initialised (snd (fst r)) = initialised app
    /\ (forall j, j < Z.of_nat k \/ Z.of_nat (k + n) <= j ->
                  cde_ctx (snd (fst r)) j = cde_ctx app j)
    /\ (n <> 0%nat ->
        cde_ctx (snd (fst r)) (Z.of_nat k)
        = snd (fst (gk20a_cde_load g
                      (snd (fst (gk20a_cde_remove g (cde_ctx app (Z.of_nat k)))))
                      (env (Z.of_nat k))))).
Proof.
  induction n as [|n IH]; intros k app err0.
  - cbn. repeat split; try reflexivity. intros E. contradiction E. reflexivity.
  - cbn [seq map reload_slots].
    destruct (gk20a_cde_remove g (cde_ctx app (Z.of_nat k))) as [[r0 c0] ev0] eqn:Hrem.
    destruct (gk20a_cde_load g c0 (env (Z.of_nat k))) as [[err1 c1] ev1] eqn:Hload.
    specialize (IH (S k) (set_ctx app (Z.of_nat k) c1) err1).
    destruct (reload_slots g (set_ctx app (Z.of_nat k) c1) env
                (map Z.of_nat (seq (S k) n)) err1) as [[err2 app2] ev2].
    cbv zeta in IH |- *. cbn [fst snd] in IH |- *.
    destruct IH as (Herr & Hptr & Hinit & Hframe & _).
    assert (Hstatus : slot_status g app env (Z.of_nat k) = err1).
    { unfold slot_status. rewrite Hrem. cbn [fst snd]. rewrite Hload. reflexivity. }
    assert (Hmap : map (slot_status g (set_ctx app (Z.of_nat k) c1) env)
                     (map Z.of_nat (seq (S k) n))
                   = map (slot_status g app env) (map Z.of_nat (seq (S k) n))).
    { apply map_ext_in. intros j Hj. apply in_map_iff in Hj.
      destruct Hj as (m & <- & Hm). apply in_seq in Hm.
      unfold slot_status. rewrite cde_ctx_set_ctx_other by lia. reflexivity. }
    split; [|split; [|split; [|split]]].
    + rewrite default_last_cons, Hstatus, <- Hmap. exact Herr.
    + exact Hptr.
    + exact Hinit.
    + intros j Hj. rewrite Hframe by lia. apply cde_ctx_set_ctx_other. lia.
    + intros _. rewrite Hframe by lia. rewrite cde_ctx_set_ctx_same, Hload. reflexivity.
Qed.

(** What [gk20a_cde_reload] does on an initialised pool: the pointer is
    reset, the pool stays initialised, and the status returned is the one
    of the last slot. *)
Lemma reload_returns_last_status g app env :
  initialised app = true ->
  reload_returns last_status g app env
  /\ initialised (snd (fst (gk20a_cde_reload g app env))) = true.
Proof.
  intros Hinit. unfold reload_returns, gk20a_cde_reload. rewrite Hinit. cbn [negb].
  pose proof (reload_slots_spec g env (Z.to_nat NUM_CDE_CTX) 0 app 0) as Hspec.
  fold (upto NUM_CDE_CTX) in Hspec.
  destruct (reload_slots g app env (upto NUM_CDE_CTX) 0) as [[err app'] ev].
  cbv zeta in Hspec. cbn [fst snd] in Hspec |- *.
  destruct Hspec as (Herr & _ & Hi & _).
  split; [split|].
  - destruct app'; reflexivity.
  - exact Herr.
  - destruct app'; cbn in *. congruence.
Qed.

(** A slot whose firmware cannot be fetched is left torn down by the
    reload, in a pool that still reports itself initialised and whose
    pointer is reset to slot 0. *)
Lemma reload_leaves_failed_slot g app env :
  initialised app = true ->
  0 < NUM_CDE_CTX ->
  env_firmware (env 0) = None ->
  let app' := snd (fst (gk20a_cde_reload g app env)) in
  initialised app' = true /\ cde_ctx_ptr app' = 0 /\
  torn_down (cde_ctx app' 0) /\ slot_loaded (cde_ctx app' 0) = false.
Proof.
  intros Hinit Hn Hfw. unfold gk20a_cde_reload. rewrite Hinit. cbn [negb].
  pose proof (reload_slots_spec g env (Z.to_nat NUM_CDE_CTX) 0 app 0) as Hspec.
  fold (upto NUM_CDE_CTX) in Hspec.
  destruct (reload_slots g app env (upto NUM_CDE_CTX) 0) as [[err app'] ev].
  cbv zeta in Hspec |- *. cbn [fst snd] in Hspec |- *.
  destruct Hspec as (_ & _ & Hi & _ & Hslot).
  specialize (Hslot ltac:(lia)). change (Z.of_nat 0) with 0 in Hslot.
  assert (Hc : cde_ctx app' 0 = clear_img (cde_ctx app 0)).
  { rewrite Hslot. unfold gk20a_cde_remove, gk20a_deinit_cde_img, gk20a_cde_load.
    cbn [fst snd]. rewrite Hfw. reflexivity. }
  assert (Hset : forall p, cde_ctx (set_cde_ctx_ptr app' p) 0 = cde_ctx app' 0)
    by (intros p; destruct app'; reflexivity).
  rewrite Hset, Hc.
  split; [destruct app'; cbn in *; congruence|].
  split; [destruct app'; reflexivity|].
  split; [apply torn_down_clear_img|].
  destruct (cde_ctx app 0); reflexivity.
Qed.

End Reload.

(** C4 fails on the code.  A pool of two slots is reloaded; the firmware
    cannot be fetched for slot 0 ([-ENOSYS]) and slot 1 loads.  The
    pointer is reset to slot 0, but the loop has overwritten the status of
    slot 0 with the status of slot 1: the reload returns 0, not the first
    error. *)
Theorem reload_loses_first_error :
  let app := loaded_app 2 in
  let r := gk20a_cde_reload (hdr := header_with_slots 2) example_hw app first_slot_fails in
  initialised app = true /\
  map (slot_status (hdr := header_with_slots 2) example_hw app first_slot_fails)
      (upto 2) = [- ENOSYS; 0] /\
  cde_ctx_ptr (snd (fst r)) = 0 /\
  fst (fst r) = 0 /\
  ~ reload_returns (hdr := header_with_slots 2) first_error example_hw app first_slot_fails.
Proof.
  cbv zeta. split; [vm_compute; reflexivity|].
  assert (Hs : map (slot_status (hdr := header_with_slots 2) example_hw (loaded_app 2)
                      first_slot_fails) (upto 2) = [- ENOSYS; 0])
    by (vm_compute; reflexivity).
  assert (Hr : fst (fst (gk20a_cde_reload (hdr := header_with_slots 2) example_hw
                           (loaded_app 2) first_slot_fails)) = 0)
    by (vm_compute; reflexivity).
  split; [exact Hs|]. split; [vm_compute; reflexivity|]. split; [exact Hr|].
  unfold reload_returns.
  destruct (gk20a_cde_reload _ _ _) as [[err app'] ev]. cbn [fst] in Hr. subst err.
  change (NUM_CDE_CTX (cde_gk20a_h := header_with_slots 2)) with 2.
  rewrite Hs. intros [_ E]. vm_compute in E. discriminate E.
Qed.

(** C5 fails on the code.  A pool of one slot is initialised and its
    slot loaded, so the invariant holds.  It is reloaded while the
    firmware cannot be fetched: the slot has been torn down and not
    loaded again, yet the pool still reports itself initialised and the
    pointer designates that slot. *)
Theorem reload_breaks_pool_invariant :
  let app := loaded_app 1 in
  let app' := snd (fst (gk20a_cde_reload (hdr := header_with_slots 1) example_hw app
                          (fun _ => no_firmware_env))) in
  initialised app = true /\
  pool_invariant (hdr := header_with_slots 1) app /\
  initialised app' = true /\
  cde_ctx_ptr app' = 0 /\
  slot_loaded (cde_ctx app' 0) = false /\
  ~ pool_invariant (hdr := header_with_slots 1) app'.
Proof.
  cbv zeta.
  assert (Hi : initialised (loaded_app 1) = true) by (vm_compute; reflexivity).
  destruct (reload_leaves_failed_slot (hdr := header_with_slots 1) example_hw
              (loaded_app 1) (fun _ => no_firmware_env) Hi)
    as (Hi' & Hptr & _ & Hslot); [reflexivity | reflexivity |].
  split; [exact Hi|].
  split.
  { intros _. split; [|vm_compute; reflexivity].
    replace (cde_ctx_ptr (loaded_app 1)) with 0 by (vm_compute; reflexivity).
    change (NUM_CDE_CTX (cde_gk20a_h := header_with_slots 1)) with 1. lia. }
  split; [exact Hi'|]. split; [exact Hptr|]. split; [exact Hslot|].
  intros Hinv. destruct (Hinv Hi') as [_ Hloaded].
  rewrite Hptr, Hslot in Hloaded. discriminate Hloaded.
Qed.

(** ** The compression-state tracker *)

Section Tracker.

Context {hdr : cde_gk20a_h}.

(** C2 fails on the code.  For a surface with valid bits, a request for
    "none" takes the branch of the decompression that is not there, which
    sets [err] to [-EINVAL] and jumps to [out]; the function ends in
    [return 0] there, so the caller is told of success.  The valid bits
    are unchanged, the tracked fence is released and dropped, and nothing
    is stored through the result pointers. *)
Theorem prepare_read_none_returns_success g app state buffer_fd offset
    compbits_hoffset compbits_voffset width height block_height_log2 submit_flags
    want_valid_compbits want_fence_out e dmabuf :
  initialised app = true ->
  env_dmabuf e = Some dmabuf ->
  env_get_state e = 0 ->
  valid_compbits state <> 0 ->
  gk20a_prepare_compressible_read g app state buffer_fd NVHOST_GPU_COMPBITS_NONE
    offset compbits_hoffset compbits_voffset width height block_height_log2
    submit_flags want_valid_compbits want_fence_out e
  = {| ret := 0; app_after := app;
       state_after := Some {| valid_compbits := valid_compbits state; fence := None |};
       valid_compbits_out := None; fence_out := None;
       events := [ dma_buf_get buffer_fd true;
                   gk20a_dmabuf_get_state dmabuf offset 0;
                   state_mutex_lock;
                   gk20a_fence_put (fence state);
                   state_mutex_unlock;
                   dma_buf_put dmabuf ] |}.
Proof.
  intros Hinit Hbuf Hstate Hvalid.
  unfold gk20a_prepare_compressible_read. rewrite Hinit, Hbuf, Hstate.
  cbn [negb Z.eqb].
  destruct (Z.eqb_spec (valid_compbits state) 0) as [|_]; [contradiction|].
  reflexivity.
Qed.

(** Past the lookup of the surface state, the function returns 0 on
    every path, also when a conversion fails. *)
Lemma prepare_read_returns_zero g app state buffer_fd request offset
    compbits_hoffset compbits_voffset width height block_height_log2 submit_flags
    want_valid_compbits want_fence_out e dmabuf :
  initialised app = true ->
  env_dmabuf e = Some dmabuf ->
  env_get_state e = 0 ->
  ret (gk20a_prepare_compressible_read g app state buffer_fd request
         offset compbits_hoffset compbits_voffset width height block_height_log2
         submit_flags want_valid_compbits want_fence_out e) = 0.
Proof.
  intros Hinit Hbuf Hstate.
  unfold gk20a_prepare_compressible_read. rewrite Hinit, Hbuf, Hstate.
  cbn [negb Z.eqb].
  destruct (negb (valid_compbits state =? 0) && (request =? NVHOST_GPU_COMPBITS_NONE));
    [reflexivity|].
  destruct (negb (Z.land (Z.lxor (valid_compbits state) request) request =? 0)).
  - destruct (convert_missing _ _ _ _ _ _ _ _ _ _ _ _ _ _) as [[[[ok1 app1] state1] nf1] ev1].
    destruct ok1; cbn [negb].
    + destruct (convert_missing _ _ _ _ _ _ _ _ _ _ _ _ _ _) as [[[[ok2 app2] state2] nf2] ev2].
      destruct ok2; reflexivity.
    + reflexivity.
  - reflexivity.
Qed.

End Tracker.

(** Marking a surface written twice with the same mask leaves the state
    of the first call, and the second call has no fence to release. *)
Lemma mark_compressible_write_idempotent state mask :
  let '(state1, _) := gk20a_mark_compressible_write state mask in
  let '(state2, ev) := gk20a_mark_compressible_write state1 mask in
  state2 = state1 /\ In (gk20a_fence_put None) ev.
Proof. cbn. split; [reflexivity|]. right. left. reflexivity. Qed.

(** A surface with valid GPU bits and a pending fence, asked for
    "none". *)
Lemma prepare_read_none_returns_success_witness :
  initialised (loaded_app 1) = true /\
  valid_compbits gpu_valid_state <> 0 /\
  let r := gk20a_prepare_compressible_read (hdr := header_with_slots 1) example_hw
             (loaded_app 1) gpu_valid_state 3 NVHOST_GPU_COMPBITS_NONE 0 0 0 128 64 0 0
             true true example_prepare_env in
  ret r = 0 /\
  state_after r = Some {| valid_compbits := 1; fence := None |}.
Proof.
  assert (Hi : initialised (loaded_app 1) = true) by (vm_compute; reflexivity).
  assert (Hv : valid_compbits gpu_valid_state <> 0) by discriminate.
  split; [exact Hi|]. split; [exact Hv|]. cbv zeta.
  rewrite (prepare_read_none_returns_success (hdr := header_with_slots 1) example_hw
             (loaded_app 1) gpu_valid_state 3 0 0 0 128 64 0 0 true true
             example_prepare_env example_dmabuf Hi eq_refl eq_refl Hv).
  split; reflexivity.
Defined.

(** ** Conversion *)

Lemma pool_events_app ev1 ev2 : pool_events (ev1 ++ ev2) = pool_events ev1 ++ pool_events ev2.
Proof. apply List.filter_app. Qed.

Lemma still_mapped_from_pool_events ev :
  forall mapped, still_mapped_from ev mapped = still_mapped_from (pool_events ev) mapped.
Proof.
  induction ev as [|e ev IH]; intros mapped; [reflexivity|].
  destruct e; cbn; apply IH.
Qed.

Lemma mutex_after_pool_events ev :
  forall held, mutex_after ev held = mutex_after (pool_events ev) held.
Proof.
  induction ev as [|e ev IH]; intros held; [reflexivity|].
  destruct e; cbn; try apply IH; destruct held; try reflexivity; apply IH.
Qed.

Lemma pool_events_flat_map {A} (f : A -> list event) (l : list A) :
  (forall a, pool_events (f a) = []) -> pool_events (flat_map f l) = [].
Proof.
  intros Hf. induction l as [|a l IH]; [reflexivity|].
  cbn [flat_map]. rewrite pool_events_app, Hf, IH. reflexivity.
Qed.

Lemma pool_events_map {A} (f : A -> event) (l : list A) :
  (forall a, is_pool_event (f a) = false) -> pool_events (map f l) = [].
Proof.
  intros Hf. induction l as [|a l IH]; [reflexivity|].
  cbn. rewrite Hf. exact IH.
Qed.

Section Convert.

Context {hdr : cde_gk20a_h}.

(** Loading and tearing down a context touches neither the pool lock nor
    the mappings of external buffers. *)
Lemma deinit_cde_img_quiet c : pool_events (snd (gk20a_deinit_cde_img c)) = [].
Proof.
  unfold gk20a_deinit_cde_img. cbn [snd].
  rewrite !pool_events_app, pool_events_flat_map, pool_events_map; reflexivity.
Qed.

Lemma init_cde_elem_quiet c img elem e :
  pool_events (snd (init_cde_elem c img elem e)) = [].
Proof.
  destruct elem; cbn [init_cde_elem].
  - unfold gk20a_init_cde_buf.
    repeat match goal with
           | |- context [if ?b then _ else _] => destruct b
           end; reflexivity.
  - unfold gk20a_init_cde_replace.
    destruct (_ || _); [reflexivity|]. destruct (_ || _); [reflexivity|].
    destruct (gk20a_replace_data _ _ _ _ _ _). reflexivity.
  - unfold gk20a_init_cde_param.
    repeat match goal with
           | |- context [if ?b then _ else _] => destruct b
           end; reflexivity.
  - unfold gk20a_init_cde_required_class.
    repeat match goal with
           | |- context [if ?b then _ else _] => destruct b
           end; reflexivity.
  - unfold gk20a_init_cde_command.
    destruct (command_op_of command); try reflexivity;
      (destruct (kzalloc_ok e); [|reflexivity]);
      destruct (fill_gpfifo _ _ _ _) as [err gpfifo];
      destruct (negb (err =? 0)); reflexivity.
  - reflexivity.
Qed.

Lemma init_cde_elems_quiet img env es :
  forall c i, pool_events (snd (init_cde_elems c img env i es)) = [].
Proof.
  induction es as [|elem rest IH]; intros c i; [reflexivity|].
  cbn [init_cde_elems].
  pose proof (init_cde_elem_quiet c img elem (env i)) as He.
  destruct (init_cde_elem c img elem (env i)) as [[err c1] ev1]. cbn [snd] in He.
  destruct (negb (err =? 0)); [exact He|].
  specialize (IH c1 (i + 1)).
  destruct (init_cde_elems c1 img env (i + 1) rest) as [[err2 c2] ev2].
  cbn [snd] in IH |- *. rewrite pool_events_app, He, IH. reflexivity.
Qed.

Lemma init_cde_img_quiet c img env :
  pool_events (snd (gk20a_init_cde_img c img env)) = [].
Proof.
  unfold gk20a_init_cde_img.
  destruct (size img <? 2 * 4); [reflexivity|].
  destruct (size img <? _); [reflexivity|].
  pose proof (init_cde_elems_quiet img env (elems img) c 0) as Hl.
  destruct (init_cde_elems c img env 0 (elems img)) as [[err c1] ev1]. cbn [snd] in Hl.
  unfold deinit_image.
  pose proof (deinit_cde_img_quiet c1) as Hd.
  destruct (gk20a_deinit_cde_img c1) as [c2 ev2]. cbn [snd] in Hd.
  repeat match goal with
         | |- context [if ?b then _ else _] => destruct b
         end; cbn [snd]; rewrite ?pool_events_app, ?Hl, ?Hd; reflexivity.
Qed.

Lemma cde_remove_quiet g c : pool_events (snd (gk20a_cde_remove g c)) = [].
Proof.
  unfold gk20a_cde_remove.
  pose proof (deinit_cde_img_quiet c) as Hd.
  destruct (gk20a_deinit_cde_img c) as [c' ev]. cbn [snd] in Hd |- *.
  rewrite !pool_events_app, Hd. reflexivity.
Qed.

Lemma cde_load_quiet g c e : pool_events (snd (gk20a_cde_load g c e)) = [].
Proof.
  unfold gk20a_cde_load.
  destruct (env_firmware e) as [img|]; [|reflexivity].
  destruct (env_channel e =? 0); [reflexivity|].
  destruct (negb (env_commit_va e =? 0)); [reflexivity|].
  destruct (negb (env_alloc_gpfifo e =? 0)); [reflexivity|].
  destruct (env_backing_store e =? 0); [reflexivity|].
  pose proof (init_cde_img_quiet
                (set_channel c (env_channel e) (pmu_vm g) (env_backing_store e))
                img (env_elems e)) as Hi.
  destruct (gk20a_init_cde_img _ img (env_elems e)) as [[err c1] ev1]. cbn [snd] in Hi.
  destruct (negb (err =? 0)); cbn [snd]; rewrite !pool_events_app, Hi; reflexivity.
Qed.

Lemma reload_slots_quiet g env indices :
  forall app err, pool_events (snd (reload_slots g app env indices err)) = [].
Proof.
  induction indices as [|i rest IH]; intros app err; [reflexivity|].
  cbn [reload_slots].
  pose proof (cde_remove_quiet g (cde_ctx app i)) as Hr.
  destruct (gk20a_cde_remove g (cde_ctx app i)) as [[r0 c0] ev0]. cbn [snd] in Hr.
  pose proof (cde_load_quiet g c0 (env i)) as Hl.
  destruct (gk20a_cde_load g c0 (env i)) as [[err1 c1] ev1]. cbn [snd] in Hl.
  specialize (IH (set_ctx app i c1) err1).
  destruct (reload_slots g (set_ctx app i c1) env rest err1) as [[err2 app2] ev2].
  cbn [snd] in IH |- *. rewrite !pool_events_app, Hr, Hl, IH. reflexivity.
Qed.

(** A reload of an initialised pool takes the pool lock once and
    releases it. *)
Lemma cde_reload_pool_events g app env :
  initialised app = true ->
  pool_events (snd (gk20a_cde_reload g app env)) = [mutex_lock; mutex_unlock].
Proof.
  intros Hinit. unfold gk20a_cde_reload. rewrite Hinit. cbn [negb].
  pose proof (reload_slots_quiet g env (upto NUM_CDE_CTX) app 0) as Hs.
  destruct (reload_slots g app env (upto NUM_CDE_CTX) 0) as [[err app'] ev].
  cbn [snd] in Hs |- *. rewrite !pool_events_app, Hs. reflexivity.
Qed.




(** C1 fails on the code.  When both buffers have been mapped, the
    channel of the selected context has timed out and the reload of the
    pool fails, [gk20a_cde_convert] returns the error of the reload
    straight away: the pool lock has been released (once by the function,
    and the reload took and released it once more), but neither buffer is
    unmapped. *)
Theorem convert_reload_failure_keeps_mappings g app src dst dst_kind dst_byte_offset
    dst_size flags params e :
  initialised app = true ->
  reload_fails_in g app e ->
  let '(err, _, _, ev) :=
    gk20a_cde_convert g app src dst dst_kind dst_byte_offset dst_size flags params e in
  err = fst (fst (gk20a_cde_reload g (advanced app) (env_reload e)))
  /\ err <> 0
  /\ pool_events ev
     = [ mutex_lock;
         gk20a_vm_map dst dst_kind (env_dst_vaddr e);
         gk20a_vm_map src dst_kind (env_src_vaddr e);
         mutex_unlock; mutex_lock; mutex_unlock ]
  /\ still_mapped ev = [env_src_vaddr e; env_dst_vaddr e]
  /\ mutex_released ev.
Proof.
  intros Hinit (Hdd & Hdv & Hsd & Hsv & Hto & Hfail).
  unfold gk20a_cde_convert. rewrite Hinit, Hdd, Hsd, Hto. cbn [negb Z.eqb].
  apply Z.eqb_neq in Hdv, Hsv. rewrite Hdv, Hsv.
  fold (advanced app).
  pose proof (cde_reload_pool_events g (advanced app) (env_reload e) Hinit) as Hre.
  destruct (gk20a_cde_reload g (advanced app) (env_reload e)) as [[err app1] ev1].
  cbn [fst snd] in Hfail, Hre.
  destruct (Z.eqb_spec err 0) as [|_]; [contradiction|]. cbn [negb].
  split; [reflexivity|]. split; [exact Hfail|].
  match goal with
  | |- pool_events ?t = ?l /\ _ =>
      assert (Hpool : pool_events t = l)
        by (rewrite !pool_events_app, Hre; reflexivity)
  end.
  split; [exact Hpool|].
  unfold still_mapped, mutex_released.
  rewrite still_mapped_from_pool_events, mutex_after_pool_events, Hpool.
  cbn. rewrite Hdv, Hsv. split; reflexivity.
Qed.


(** X23.  A conversion on an initialised pool leaves the round-robin
    pointer inside the pool, whatever its outcome. *)
Lemma convert_keeps_pointer_in_pool g app src dst dst_kind dst_byte_offset dst_size
    flags params e :
  0 < NUM_CDE_CTX ->
  initialised app = true ->
  let app' := snd (fst (fst (gk20a_cde_convert g app src dst dst_kind dst_byte_offset
                               dst_size flags params e))) in
  0 <= cde_ctx_ptr app' < NUM_CDE_CTX.
Proof.
  intros Hn Hinit. cbv zeta.
  assert (Hadv : 0 <= cde_ctx_ptr (advanced app) < NUM_CDE_CTX)
    by (apply Z.mod_pos_bound; exact Hn).
  assert (Hlocked : forall a idx dv sv off sz ev,
            cde_ctx_ptr (snd (fst (fst (convert_locked g a idx src dv sv off sz flags
                                          params e ev)))) = cde_ctx_ptr a).
  { intros. unfold convert_locked, exit_unlock.
    repeat match goal with
           | |- context [let '(_, _) := ?x in _] => destruct x
           | |- context [if ?b then _ else _] => destruct b
           end; reflexivity. }
  unfold gk20a_cde_convert. rewrite Hinit. cbn [negb]. fold (advanced app).
  unfold exit_unlock.
  repeat match goal with
         | |- context [if negb (?x =? 0) then _ else _] => destruct (negb (x =? 0))
         | |- context [if (?x =? 0) then _ else _] => destruct (x =? 0)
         end; cbn [fst snd]; try exact Hadv.
  all: destruct (env_has_timedout e); [|rewrite Hlocked; exact Hadv].
  all: pose proof (reload_returns_last_status g (advanced app) (env_reload e) Hinit)
         as [Hr _];
       unfold reload_returns in Hr;
       destruct (gk20a_cde_reload g (advanced app) (env_reload e)) as [[err app1] ev1];
       destruct Hr as [Hptr _];
       destruct (negb (err =? 0)); cbn [fst snd]; rewrite ?Hlocked; lia.
Qed.

End Convert.

(** A conversion on a pool of one slot whose channel has timed out, while
    the firmware cannot be fetched. *)
Lemma convert_reload_failure_keeps_mappings_witness :
  initialised (loaded_app 1) = true /\
  reload_fails_in (hdr := header_with_slots 1) example_hw (loaded_app 1) timed_out_env /\
  let r := gk20a_cde_convert (hdr := header_with_slots 1) example_hw (loaded_app 1)
             example_dmabuf example_dmabuf 0 0 0 0 [] timed_out_env in
  fst (fst (fst r)) = - ENOSYS /\
  still_mapped (snd r) = [0x400000; 0x300000].
Proof.
  assert (Hi : initialised (loaded_app 1) = true) by (vm_compute; reflexivity).
  assert (Hf : reload_fails_in (hdr := header_with_slots 1) example_hw (loaded_app 1)
                 timed_out_env).
  { unfold reload_fails_in.
    repeat split; try reflexivity; try discriminate;
      intros E; vm_compute in E; discriminate E. }
  split; [exact Hi|]. split; [exact Hf|].
  pose proof (convert_reload_failure_keeps_mappings (hdr := header_with_slots 1)
                example_hw (loaded_app 1) example_dmabuf example_dmabuf 0 0 0 0 []
                timed_out_env Hi Hf) as H.
  destruct (gk20a_cde_convert _ _ _ _ _ _ _ _ _ _) as [[[err app'] fo] ev].
  destruct H as (Herr & _ & _ & Hmapped & _). cbv zeta. cbn [fst snd].
  split; [|exact Hmapped].
  rewrite Herr. vm_compute. reflexivity.
Defined.

(** What the broken invariant leads to: after the failed reload the
    context in slot 0 still names channel 5, which the reload has freed.
    The next conversion waits on that channel, preempts and rebinds it,
    and only then finds that there is no command list to submit. *)
Example convert_after_failed_reload :
  let reloaded := gk20a_cde_reload (hdr := header_with_slots 1) example_hw (loaded_app 1)
                    (fun _ => no_firmware_env) in
  let r := gk20a_cde_convert (hdr := header_with_slots 1) example_hw (snd (fst reloaded))
             example_dmabuf example_dmabuf 0 0 0 0 [] example_convert_env in
  In (gk20a_free_channel 5) (snd reloaded) /\
  In (gk20a_fifo_preempt_channel 5) (snd r) /\
  fst (fst (fst r)) = - ENOSYS /\
  still_mapped (snd r) = [] /\ mutex_released (snd r).
Proof.
  cbv zeta. split; [|split; [|split; [|split]]].
  - vm_compute. repeat (first [left; reflexivity | right]).
  - vm_compute. repeat (first [left; reflexivity | right]).
  - vm_compute. reflexivity.
  - vm_compute. reflexivity.
  - vm_compute. reflexivity.
Qed.

(** * Further properties *)

(** ** The binary patcher, continued *)

Lemma store_u32_other m p q v : q <> p -> store_u32 m p v q = m q.
Proof. intros. unfold store_u32. apply aset_other. assumption. Qed.

Lemma store_u64_other m p q v : q <> p -> q <> p + 1 -> store_u64 m p v q = m q.
Proof.
  intros. unfold store_u64. rewrite store_u32_other by assumption.
  apply store_u32_other. assumption.
Qed.

(** X1.  [gk20a_replace_data] writes the target and nothing else: every
    cell but the target cell -- and, for the two 64-bit types, the cell
    after it -- keeps its content.  It fails exactly for a type that is
    none of the three, with [-EINVAL] and the memory as it was. *)
Theorem replace_data_touches_target_only m target type shift mask value :
  let '(err, m') := gk20a_replace_data m target type shift mask value in
  (forall q, q <> target -> stored_width type = 32 \/ q <> target + 1 -> m' q = m q)
  /\ (err <> 0 <-> ~ known_type type)
  /\ (err <> 0 -> err = - EINVAL /\ m' = m).
Proof.
  unfold gk20a_replace_data. destruct type; cbn [read_target stored_width known_type].
  - split; [|split].
    + intros q Hq _. apply store_u32_other, Hq.
    + split; [intros E; contradiction E; reflexivity|intros E; contradiction E; exact I].
    + intros E. contradiction E. reflexivity.
  - split; [|split].
    + intros q Hq [E|Hq']; [discriminate E|]. apply store_u64_other; assumption.
    + split; [intros E; contradiction E; reflexivity|intros E; contradiction E; exact I].
    + intros E. contradiction E. reflexivity.
  - split; [|split].
    + intros q Hq [E|Hq']; [discriminate E|]. apply store_u64_other; assumption.
    + split; [intros E; contradiction E; reflexivity|intros E; contradiction E; exact I].
    + intros E. contradiction E. reflexivity.
  - split; [|split].
    + reflexivity.
    + split; [intros _ E; exact E|intros _ E; vm_compute in E; discriminate E].
    + intros _. split; reflexivity.
Qed.

(** What a patch leaves in the target, read back the way the patcher
    reads it. *)
Lemma read_back_after_replace m target type shift mask value :
  is_u64 mask -> known_type type ->
  exists old,
    read_target m target type = Some old /\
    gk20a_replace_data m target type shift mask value
    = (0, match type with
          | TYPE_PARAM_TYPE_U32 =>
              store_u32 m target
                (u32 (Z.lor (Z.land old (not64 mask))
                        (Z.land (shift_value shift value) mask)))
          | TYPE_PARAM_TYPE_U64_LITTLE =>
              store_u64 m target
                (Z.lor (Z.land old (not64 mask)) (Z.land (shift_value shift value) mask))
          | _ =>
              store_u64 m target
                (swap_halves (Z.lor (Z.land old (not64 mask))
                                (Z.land (shift_value shift value) mask)))
          end) /\
    read_target (snd (gk20a_replace_data m target type shift mask value)) target type
    = Some (kept_bits type (Z.lor (Z.land old (not64 mask))
                              (Z.land (shift_value shift value) mask))).
Proof.
  intros Hm Hk. unfold gk20a_replace_data.
  destruct (read_target m target type) as [old|] eqn:Hold;
    [|destruct type; simpl in *; try discriminate; contradiction].
  pose proof (read_target_range _ _ _ _ Hold) as Hr.
  pose proof (patched_range old (shift_value shift value) mask Hr Hm) as Hn.
  exists old. split; [reflexivity|].
  destruct type; simpl in Hk; try contradiction; cbn [snd read_target kept_bits].
  - split; [reflexivity|]. rewrite load_store_u32, u32_idem. reflexivity.
  - split; [reflexivity|]. rewrite load_store_u64, u64_small by assumption. reflexivity.
  - split; [reflexivity|].
    rewrite load_store_u64, u64_small by (apply swap_halves_range; assumption).
    rewrite swap_halves_involutive by assumption. reflexivity.
Qed.

Lemma repatched_bits cur sv mask n :
  0 <= n ->
  Z.testbit (Z.lor (Z.land (Z.lor (Z.land cur (not64 mask)) (Z.land sv mask))
                      (not64 mask)) (Z.land sv mask)) n
  = Z.testbit (Z.lor (Z.land cur (not64 mask)) (Z.land sv mask)) n.
Proof.
  intros Hn. rewrite !Z.lor_spec, !Z.land_spec, !Z.lor_spec, !Z.land_spec.
  rewrite not64_bits by lia.
  destruct (Z.testbit cur n), (Z.testbit mask n), (Z.testbit sv n), (n <? 64); reflexivity.
Qed.

Lemma repatched cur sv mask :
  Z.lor (Z.land (Z.lor (Z.land cur (not64 mask)) (Z.land sv mask)) (not64 mask))
    (Z.land sv mask)
  = Z.lor (Z.land cur (not64 mask)) (Z.land sv mask).
Proof. apply Z.bits_inj'. intros n Hn. apply repatched_bits, Hn. Qed.

Lemma repatched_u32 cur sv mask :
  u32 (Z.lor (Z.land (u32 (Z.lor (Z.land cur (not64 mask)) (Z.land sv mask)))
                (not64 mask)) (Z.land sv mask))
  = u32 (Z.lor (Z.land cur (not64 mask)) (Z.land sv mask)).
Proof.
  apply Z.bits_inj'. intros n Hn.
  rewrite !u32_bits by lia. rewrite Z.lor_spec, Z.land_spec, u32_bits by lia.
  rewrite not64_bits by lia.
  rewrite !Z.lor_spec, !Z.land_spec, not64_bits by lia.
  destruct (Z.testbit cur n), (Z.testbit mask n), (Z.testbit sv n), (n <? 64), (n <? 32);
    reflexivity.
Qed.

Lemma store_u32_twice m p v q : store_u32 (store_u32 m p v) p v q = store_u32 m p v q.
Proof. unfold store_u32, aset. destruct (q =? p); reflexivity. Qed.

Lemma store_u64_twice m p v q : store_u64 (store_u64 m p v) p v q = store_u64 m p v q.
Proof.
  unfold store_u64, store_u32, aset.
  destruct (q =? p + 1), (q =? p); reflexivity.
Qed.

(** X2.  Patching is idempotent: applying the same patch (type, shift,
    64-bit mask, value) to the same target a second time leaves every
    cell of the memory as the first application left it.  The parameters
    of a context are patched again at every conversion. *)
Theorem replace_data_idempotent m target type shift mask value :
  is_u64 mask -> known_type type ->
  let m1 := snd (gk20a_replace_data m target type shift mask value) in
  let m2 := snd (gk20a_replace_data m1 target type shift mask value) in
  forall q, m2 q = m1 q.
Proof.
  intros Hm Hk m1 m2 q. subst m2.
  destruct (read_back_after_replace m target type shift mask value Hm Hk)
    as (old & Hold & Hrun & Hback).
  fold m1 in Hback.
  destruct (read_back_after_replace m1 target type shift mask value Hm Hk)
    as (old1 & Hold1 & Hrun1 & _).
  rewrite Hold1 in Hback. injection Hback as ->.
  rewrite Hrun1. cbn [snd]. subst m1. rewrite Hrun. cbn [snd].
  destruct type; simpl in Hk; try contradiction; cbn [kept_bits].
  - rewrite repatched_u32. apply store_u32_twice.
  - rewrite repatched. apply store_u64_twice.
  - rewrite repatched. apply store_u64_twice.
Qed.

Lemma replace_data_idempotent_witness :
  is_u64 0xFF00 /\ known_type TYPE_PARAM_TYPE_U64_BIG /\
  let m1 := snd (gk20a_replace_data patterned_cells 2 TYPE_PARAM_TYPE_U64_BIG (-4)
                   0xFF00 0xABCDE) in
  let m2 := snd (gk20a_replace_data m1 2 TYPE_PARAM_TYPE_U64_BIG (-4) 0xFF00 0xABCDE) in
  m2 2 = m1 2 /\ m2 3 = m1 3.
Proof.
  assert (Hm : is_u64 0xFF00) by (unfold is_u64; lia).
  split; [exact Hm|]. split; [exact I|]. cbv zeta.
  split; apply (replace_data_idempotent patterned_cells 2 TYPE_PARAM_TYPE_U64_BIG (-4)
                  0xFF00 0xABCDE Hm I).
Defined.

(** ** Static relocations *)

Lemma kept_masked type nv sv mask :
  Z.land nv mask = Z.land sv mask ->
  Z.land (kept_bits type nv) mask = kept_bits type (Z.land sv mask).
Proof.
  intros H. destruct type; cbn [kept_bits]; try exact H.
  apply Z.bits_inj'. intros n Hn.
  rewrite Z.land_spec, !u32_bits, <- H, Z.land_spec by lia.
  destruct (n <? 32); reflexivity.
Qed.

Lemma patched_masked cur sv mask :
  Z.land (Z.lor (Z.land cur (not64 mask)) (Z.land sv mask)) mask = Z.land sv mask.
Proof.
  apply Z.bits_inj'. intros n Hn.
  rewrite !Z.land_spec, patched_bits by lia.
  destruct (Z.testbit mask n); [reflexivity|]. rewrite !andb_false_r. reflexivity.
Qed.


Lemma replace_data_status m target type shift mask value :
  let '(err, m') := gk20a_replace_data m target type shift mask value in
  (err <> 0 <-> ~ known_type type) /\ (err <> 0 -> err = - EINVAL /\ m' = m).
Proof.
  unfold gk20a_replace_data. destruct type; cbn [read_target known_type].
  1-3: split; [split; [intros E; contradiction E; reflexivity
                      |intros E; contradiction E; exact I]
              |intros E; contradiction E; reflexivity].
  split; [split; [intros _ E; exact E|intros _ E; vm_compute in E; discriminate E]|].
  intros _. split; reflexivity.
Qed.

(** X3.  [gk20a_init_cde_replace] accepts a relocation exactly when both
    buffers are allocated, both offsets plus 3 lie within their buffers,
    and the type is one the patcher knows.  It emits no call; a rejected
    relocation returns [-EINVAL] and leaves the buffer count and the
    content of every buffer as they were. *)
Theorem init_cde_replace_accepts_iff c img r :
  let '(err, c', ev) := gk20a_init_cde_replace c img r in
  ev = []
  /\ (err = 0 <-> replace_in_bounds c r /\ known_type (replace_type r))
  /\ (err <> 0 ->
        err = - EINVAL /\ num_bufs c' = num_bufs c /\
        forall k q, data (mem c' k) q = data (mem c k) q).
Proof.
  unfold gk20a_init_cde_replace, replace_in_bounds.
  destruct (Z.geb_spec (replace_target_buf r) (num_bufs c)) as [Ht|Ht];
    [|destruct (Z.geb_spec (replace_source_buf r) (num_bufs c)) as [Hs|Hs]];
    cbn [orb].
  - split; [reflexivity|]. split.
    + split; [intros E; vm_compute in E; discriminate E|intros [[? _] _]; lia].
    + intros _. repeat split.
  - split; [reflexivity|]. split.
    + split; [intros E; vm_compute in E; discriminate E|intros [[_ [? _]] _]; lia].
    + intros _. repeat split.
  - destruct (Z.ltb_spec (num_bytes (mem c (replace_source_buf r)))
                (u64 (replace_source_byte_offset r + 3))) as [Hso|Hso];
      [|destruct (Z.ltb_spec (num_bytes (mem c (replace_target_buf r)))
                   (u64 (replace_target_byte_offset r + 3))) as [Hto|Hto]];
      cbn [orb].
    + split; [reflexivity|]. split.
      * split; [intros E; vm_compute in E; discriminate E|intros [(_ & _ & ? & _) _]; lia].
      * intros _. repeat split.
    + split; [reflexivity|]. split.
      * split; [intros E; vm_compute in E; discriminate E|intros [(_ & _ & _ & ?) _]; lia].
      * intros _. repeat split.
    + pose proof (replace_data_status
                    (data (mem c (replace_target_buf r)))
                    (replace_target_byte_offset r / 4) (replace_type r)
                    (replace_shift r) (replace_mask r)
                    (u64 (gpu_va (mem c (replace_source_buf r))
                          + replace_source_byte_offset r))) as Hrd.
      destruct (gk20a_replace_data _ _ _ _ _ _) as [err d].
      destruct Hrd as (Herr & Hfail).
      split; [reflexivity|]. split.
      * split.
        -- intros ->. split; [repeat split; assumption|].
           destruct (replace_type r); cbn; auto.
           exfalso. apply (proj2 Herr); [intros F; exact F|reflexivity].
        -- intros [_ Hk]. destruct (Z.eq_dec err 0) as [|Hne]; [assumption|].
           exfalso. apply (proj1 Herr Hne), Hk.
      * intros Hne. destruct (Hfail Hne) as [-> ->].
        split; [reflexivity|]. split; [apply num_bufs_set_mem|].
        intros k q. rewrite mem_set_mem. unfold aset.
        destruct (k =? replace_target_buf r) eqn:Hk; [|reflexivity].
        apply Z.eqb_eq in Hk. subst k. reflexivity.
Qed.



(** ** Building a context from the image *)

Lemma torn_down_not_loaded c : torn_down c -> slot_loaded c = false.
Proof. intros (Hi & _). unfold slot_loaded, cmd_ready. rewrite Hi. reflexivity. Qed.

Lemma same_desc_refl m : same_desc m m.
Proof. repeat split. Qed.

Lemma same_desc_trans m1 m2 m3 : same_desc m1 m2 -> same_desc m2 m3 -> same_desc m1 m3.
Proof.
  intros (A1 & A2 & A3 & A4 & A5) (B1 & B2 & B3 & B4 & B5).
  repeat split; congruence.
Qed.

Lemma extends_refl c : extends c c.
Proof. repeat split; try lia. Qed.

Lemma extends_trans c1 c2 c3 : extends c1 c2 -> extends c2 c3 -> extends c1 c3.
Proof.
  intros (A1 & A2 & A3 & A4 & A5 & A6) (B1 & B2 & B3 & B4 & B5 & B6).
  split; [lia|]. split.
  { intros k Hk. eapply same_desc_trans; [apply A2, Hk|apply B2; lia]. }
  split; [lia|]. split.
  { intros i Hi. rewrite B4 by lia. apply A4, Hi. }
  split; [lia|].
  intros i Hi. rewrite B6 by lia. apply A6, Hi.
Qed.

(** A context that differs from [c] in the buffer table from index
    [num_bufs c] on, and in contents. *)
Lemma extends_set_mem_at_end c m n :
  num_bufs c <= n ->
  extends c (set_num_bufs (set_mem c (aset (mem c) (num_bufs c) m)) n).
Proof.
  intros Hn. unfold extends, same_desc. destruct c; cbn -[aset] in *.
  repeat split; try lia; intros; rewrite ?aset_other by lia; reflexivity.
Qed.

Lemma extends_set_mem_failed c m :
  extends c (set_mem c (aset (mem c) (num_bufs c) m)).
Proof.
  unfold extends, same_desc. destruct c; cbn -[aset] in *.
  repeat split; try lia; intros; rewrite ?aset_other by lia; reflexivity.
Qed.

Lemma extends_set_data c k d :
  extends c (set_mem c (aset (mem c) k (set_data (mem c k) d))).
Proof.
  unfold extends, same_desc. destruct c; cbn -[aset] in *.
  repeat split; try lia; intros; try reflexivity;
    unfold aset; destruct (_ =? k) eqn:E; try reflexivity;
    apply Z.eqb_eq in E; subst; reflexivity.
Qed.

Section Build.

Context {hdr : cde_gk20a_h}.

Lemma init_cde_buf_extends c img buf e :
  extends c (snd (fst (gk20a_init_cde_buf c img buf e))).
Proof.
  unfold gk20a_init_cde_buf.
  destruct (negb _ && _); [apply extends_refl|].
  destruct (num_bufs c >? MAX_CDE_BUFS); [apply extends_refl|].
  cbn [cpuva sgt iova num_bytes gpu_va data].
  destruct (alloc_cpuva e =? 0); [apply extends_set_mem_failed|].
  destruct (negb (sgtable_err e =? 0)); [apply extends_set_mem_failed|].
  destruct (gmmu_map_va e =? 0); [apply extends_set_mem_failed|].
  cbn [fst snd]. apply extends_set_mem_at_end. lia.
Qed.

Lemma init_cde_replace_extends c img r :
  extends c (snd (fst (gk20a_init_cde_replace c img r))).
Proof.
  unfold gk20a_init_cde_replace.
  destruct (_ || _); [apply extends_refl|]. destruct (_ || _); [apply extends_refl|].
  destruct (gk20a_replace_data _ _ _ _ _ _) as [err d]. apply extends_set_data.
Qed.

Lemma init_cde_param_extends c img param :
  extends c (snd (fst (gk20a_init_cde_param c img param))).
Proof.
  unfold gk20a_init_cde_param.
  repeat match goal with
         | |- context [if ?b then _ else _] => destruct b
         end; try apply extends_refl.
  unfold extends, same_desc. destruct c; cbn -[aset] in *. repeat split; try lia. intros i Hi.
  rewrite aset_other by lia. reflexivity.
Qed.

Lemma init_cde_required_class_extends c img class e :
  extends c (snd (fst (gk20a_init_cde_required_class c img class e))).
Proof.
  unfold gk20a_init_cde_required_class.
  repeat match goal with
         | |- context [if ?b then _ else _] => destruct b
         end; try apply extends_refl.
  unfold extends, same_desc. destruct c; cbn -[aset] in *. repeat split; try lia. intros i Hi.
  rewrite aset_other by lia. reflexivity.
Qed.

Lemma init_cde_command_extends c img op cmd_elem num e :
  extends c (snd (fst (gk20a_init_cde_command c img op cmd_elem num e))).
Proof.
  unfold gk20a_init_cde_command.
  destruct op; try apply extends_refl;
    (destruct (kzalloc_ok e); cbn [negb];
     [|unfold extends, same_desc; destruct c; cbn; repeat split; lia]);
    destruct (fill_gpfifo _ _ _ _) as [err gpfifo];
    destruct (negb (err =? 0)); unfold extends, same_desc; destruct c; cbn; repeat split; lia.
Qed.

Lemma init_cde_elem_extends c img elem e :
  extends c (snd (fst (init_cde_elem c img elem e))).
Proof.
  destruct elem; cbn [init_cde_elem].
  - apply init_cde_buf_extends.
  - apply init_cde_replace_extends.
  - apply init_cde_param_extends.
  - apply init_cde_required_class_extends.
  - apply init_cde_command_extends.
  - apply extends_refl.
Qed.

(** Whatever the outcome, the element loop only adds to the context: the
    buffers, parameters and object contexts that were registered stay
    registered, with the same addresses and sizes. *)
Lemma init_cde_elems_extends img env es :
  forall c i, extends c (snd (fst (init_cde_elems c img env i es))).
Proof.
  induction es as [|elem rest IH]; intros c i; [apply extends_refl|].
  cbn [init_cde_elems].
  pose proof (init_cde_elem_extends c img elem (env i)) as He.
  destruct (init_cde_elem c img elem (env i)) as [[err c1] ev1]. cbn [fst snd] in He.
  destruct (negb (err =? 0)); [exact He|].
  specialize (IH c1 (i + 1)).
  destruct (init_cde_elems c1 img env (i + 1) rest) as [[err2 c2] ev2].
  cbn [fst snd] in IH |- *. eapply extends_trans; eassumption.
Qed.

Lemma init_cde_elem_bounded c img elem e :
  tables_bounded c -> tables_bounded (snd (fst (init_cde_elem c img elem e))).
Proof.
  intros (Hb & Hp & Ho). unfold tables_bounded.
  destruct elem; cbn [init_cde_elem].
  - unfold gk20a_init_cde_buf.
    destruct (negb _ && _); [auto|].
    destruct (Z.gtb_spec (num_bufs c) MAX_CDE_BUFS); [auto|].
    cbn [cpuva sgt iova num_bytes gpu_va data].
    repeat match goal with
           | |- context [if ?b then _ else _] => destruct b
           end; destruct c; cbn in *; repeat split; lia.
  - unfold gk20a_init_cde_replace.
    destruct (_ || _); [auto|]. destruct (_ || _); [auto|].
    destruct (gk20a_replace_data _ _ _ _ _ _). destruct c; cbn in *. auto.
  - unfold gk20a_init_cde_param.
    destruct (_ >=? _); [auto|]. destruct (_ <? _); [auto|].
    destruct (Z.geb_spec (num_params c) MAX_CDE_PARAMS); [auto|].
    destruct (_ >=? _); [auto|]. destruct c; cbn in *. repeat split; lia.
  - unfold gk20a_init_cde_required_class.
    destruct (Z.geb_spec (num_obj_ids c) MAX_CDE_OBJ_IDS); [auto|].
    destruct (negb _); [auto|]. destruct c; cbn in *. repeat split; lia.
  - unfold gk20a_init_cde_command.
    destruct (command_op_of command); auto;
      (destruct (kzalloc_ok e); cbn [negb]; [|destruct c; cbn in *; auto]);
      destruct (fill_gpfifo _ _ _ _) as [err gpfifo];
      destruct (negb (err =? 0)); destruct c; cbn in *; auto.
  - auto.
Qed.

(** The tables stay within their bounds through the element loop,
    whatever its outcome. *)
Lemma init_cde_elems_bounded img env es :
  forall c i, tables_bounded c ->
              tables_bounded (snd (fst (init_cde_elems c img env i es))).
Proof.
  induction es as [|elem rest IH]; intros c i Hc; [exact Hc|].
  cbn [init_cde_elems].
  pose proof (init_cde_elem_bounded c img elem (env i) Hc) as He.
  destruct (init_cde_elem c img elem (env i)) as [[err c1] ev1]. cbn [fst snd] in He.
  destruct (negb (err =? 0)); [exact He|].
  specialize (IH c1 (i + 1) He).
  destruct (init_cde_elems c1 img env (i + 1) rest) as [[err2 c2] ev2]. exact IH.
Qed.

Lemma count_elems_cons kind elem es :
  count_elems kind (elem :: es) = (if kind elem then 1 else 0) + count_elems kind es.
Proof.
  unfold count_elems. cbn [List.filter]. destruct (kind elem); cbn [length]; lia.
Qed.

Lemma init_cde_elem_counts c img elem e c1 ev1 :
  init_cde_elem c img elem e = (0, c1, ev1) ->
  num_bufs c1 = num_bufs c + (if is_buf_elem elem then 1 else 0)
  /\ num_params c1 = num_params c + (if is_param_elem elem then 1 else 0)
  /\ num_obj_ids c1 = num_obj_ids c + (if is_class_elem elem then 1 else 0).
Proof.
  destruct elem; cbn [init_cde_elem is_buf_elem is_param_elem is_class_elem].
  - unfold gk20a_init_cde_buf.
    repeat match goal with
           | |- context [if ?b then _ else _] => destruct b
           end; intros H; first [ injection H as E _ _; not_ok E | injection H as <- _ ];
      destruct c; cbn; repeat split; lia.
  - unfold gk20a_init_cde_replace.
    destruct (_ || _); [intros H; injection H as E _ _; not_ok E|].
    destruct (_ || _); [intros H; injection H as E _ _; not_ok E|].
    destruct (gk20a_replace_data _ _ _ _ _ _) as [rerr rdata]. intros H.
    injection H as E <- _.
    destruct c; cbn; repeat split; lia.
  - unfold gk20a_init_cde_param.
    repeat match goal with
           | |- context [if ?b then _ else _] => destruct b
           end; intros H; first [ injection H as E _ _; not_ok E | injection H as <- _ ];
      destruct c; cbn; repeat split; lia.
  - unfold gk20a_init_cde_required_class.
    destruct (_ >=? _); [intros H; injection H as E _ _; not_ok E|].
    destruct (Z.eqb_spec (obj_ctx_err e) 0) as [He|He]; cbn [negb];
      [|intros H; injection H as E _ _; contradiction].
    intros H; injection H as <- _. destruct c; cbn; repeat split; lia.
  - intros H. unfold gk20a_init_cde_command in H.
    destruct (command_op_of command); try (injection H as E _ _; not_ok E);
      (destruct (kzalloc_ok e); cbn [negb] in H; [|injection H as E _ _; not_ok E]);
      destruct (fill_gpfifo _ _ _ _) as [err gpfifo];
      (destruct (Z.eqb_spec err 0) as [->|Hne]; cbn [negb] in H;
       [|injection H as E _ _; contradiction]);
      injection H as <- _; destruct c; cbn; repeat split; lia.
  - intros H; injection H as E _ _. not_ok E.
Qed.

(** X5.  When every element of the list is handled without error, the
    context gains exactly one buffer per buffer declaration, one
    parameter per parameter declaration and one object context per
    required class.  With tables that were within their bounds, a list
    that is handled to its end therefore declares no more parameters and
    classes than the tables have room for, and no more buffers than the
    room plus one. *)
Theorem init_cde_elems_registers_each_declaration img env es :
  forall c i c' ev,
    tables_bounded c ->
    init_cde_elems c img env i es = (0, c', ev) ->
    num_bufs c' = num_bufs c + count_elems is_buf_elem es
    /\ num_params c' = num_params c + count_elems is_param_elem es
    /\ num_obj_ids c' = num_obj_ids c + count_elems is_class_elem es
    /\ num_bufs c + count_elems is_buf_elem es <= MAX_CDE_BUFS + 1
    /\ num_params c + count_elems is_param_elem es <= MAX_CDE_PARAMS
    /\ num_obj_ids c + count_elems is_class_elem es <= MAX_CDE_OBJ_IDS.
Proof.
  intros c i c' ev Hb Hrun.
  assert (Hcount : num_bufs c' = num_bufs c + count_elems is_buf_elem es
                   /\ num_params c' = num_params c + count_elems is_param_elem es
                   /\ num_obj_ids c' = num_obj_ids c + count_elems is_class_elem es).
  { clear Hb. revert c i c' ev Hrun.
    induction es as [|elem rest IH]; intros c i c' ev Hrun.
    - injection Hrun as <- _. unfold count_elems. cbn. repeat split; lia.
    - cbn [init_cde_elems] in Hrun.
      destruct (init_cde_elem c img elem (env i)) as [[err c1] ev1] eqn:Helem.
      destruct (Z.eqb_spec err 0) as [->|Hne]; cbn [negb] in Hrun;
        [|injection Hrun as E _ _; contradiction].
      destruct (init_cde_elems c1 img env (i + 1) rest) as [[err2 c2] ev2] eqn:Hrest.
      injection Hrun as -> <- _.
      destruct (init_cde_elem_counts _ _ _ _ _ _ Helem) as (A1 & A2 & A3).
      destruct (IH _ _ _ _ Hrest) as (B1 & B2 & B3).
      rewrite !count_elems_cons. repeat split; lia. }
  pose proof (init_cde_elems_bounded img env es c i Hb) as Hb'.
  rewrite Hrun in Hb'. cbn [fst snd] in Hb'. destruct Hb' as (C1 & C2 & C3).
  destruct Hcount as (A1 & A2 & A3). repeat split; lia.
Qed.



Lemma header_fits_dec img : header_fits img \/ ~ header_fits img.
Proof.
  unfold header_fits.
  destruct (Z_le_dec (2 * 4) (size img));
    destruct (Z_le_dec (u32 (2 * 4 + num_of_elems img * sizeof_hdr_elem)) (size img));
    tauto.
Qed.


(** The outcomes of [gk20a_init_cde_img], by the status of the element
    loop and the context it built.  The [err] that the loop body
    declares hides the one of the function: a handler that fails leads
    to the tear-down and to the status 0. *)
Lemma init_cde_img_cases c img env :
  let '(err, c', ev) := gk20a_init_cde_img c img env in
  let '(lerr, built, lev) := init_cde_elems c img env 0 (elems img) in
  (~ header_fits img -> err = - EINVAL /\ c' = c /\ ev = [])
  /\ (header_fits img -> lerr <> 0 ->
      err = 0 /\ c' = clear_img built
      /\ ev = lev ++ snd (gk20a_deinit_cde_img built))
  /\ (header_fits img -> lerr = 0 ->
      (slot_loaded built = true /\ err = 0 /\ c' = built /\ ev = lev)
      \/ (slot_loaded built = false /\ err = - EINVAL /\ c' = clear_img built
          /\ ev = lev ++ snd (gk20a_deinit_cde_img built))).
Proof.
  unfold gk20a_init_cde_img, deinit_image, header_fits.
  destruct (Z.ltb_spec (size img) (2 * 4)) as [Hs1|Hs1].
  { destruct (init_cde_elems c img env 0 (elems img)) as [[lerr built] lev].
    split; [auto|]. split; intros; lia. }
  destruct (Z.ltb_spec (size img) (u32 (2 * 4 + num_of_elems img * sizeof_hdr_elem)))
    as [Hs2|Hs2].
  { destruct (init_cde_elems c img env 0 (elems img)) as [[lerr built] lev].
    split; [auto|]. split; intros; lia. }
  destruct (init_cde_elems c img env 0 (elems img)) as [[lerr built] lev].
  unfold gk20a_deinit_cde_img. cbn [snd].
  destruct (Z.eqb_spec lerr 0) as [->|Hne]; cbn [negb].
  2:{ split; [intros F; exfalso; apply F; lia|]. split; [auto|contradiction]. }
  unfold slot_loaded, cmd_ready.
  destruct (is_null (init_cmd built) || (init_cmd_num_entries built =? 0)) eqn:Hi.
  { split; [intros F; exfalso; apply F; lia|].
    split; [intros _ F; contradiction F; reflexivity|]. intros _ _. right. auto. }
  destruct (is_null (convert_cmd built) || (convert_cmd_num_entries built =? 0)) eqn:Hc.
  { split; [intros F; exfalso; apply F; lia|].
    split; [intros _ F; contradiction F; reflexivity|]. intros _ _. right. auto. }
  split; [intros F; exfalso; apply F; lia|].
  split; [intros _ F; contradiction F; reflexivity|]. intros _ _. left. auto.
Qed.


(** The outcomes of [gk20a_init_cde_img], by what the caller sees. *)
Lemma init_cde_img_outcomes c img env :
  let '(err, c', ev) := gk20a_init_cde_img c img env in
  (err = 0 \/ err = - EINVAL)
  /\ (~ header_fits img <-> err = - EINVAL /\ c' = c /\ ev = [])
  /\ (header_fits img ->
      (all_handled c img env /\ err = 0 /\ extends c c' /\ slot_loaded c' = true)
      \/ (all_handled c img env /\ err = - EINVAL /\ torn_down c')
      \/ (~ all_handled c img env /\ err = 0 /\ torn_down c')).
Proof.
  pose proof (init_cde_img_cases c img env) as H.
  pose proof (init_cde_elems_extends img env (elems img) c 0) as Hext.
  unfold all_handled.
  destruct (gk20a_init_cde_img c img env) as [[err c'] ev].
  destruct (init_cde_elems c img env 0 (elems img)) as [[lerr built] lev].
  cbn [fst snd] in *. destruct H as (Hsize & Hfail & Hok).
  destruct (header_fits_dec img) as [Hh|Hh].
  2:{ destruct (Hsize Hh) as (-> & -> & ->).
      split; [auto|]. split; [tauto|]. intros F. contradiction. }
  destruct (Z.eq_dec lerr 0) as [->|Hne].
  - destruct (Hok Hh eq_refl) as [(Hl & -> & -> & _)|(Hl & -> & -> & ->)].
    + split; [auto|]. split; [|auto 10].
      split; [contradiction|]. intros (E & _). not_ok E.
    + split; [auto|]. split.
      * split; [contradiction|].
        intros (_ & _ & E). exfalso.
        apply app_eq_nil in E as [_ E]. unfold gk20a_deinit_cde_img in E. cbn [snd] in E.
        apply app_eq_nil in E as [_ E]. apply app_eq_nil in E as [_ E]. discriminate E.
      * intros _. right. left. auto using torn_down_clear_img.
  - destruct (Hfail Hh Hne) as (-> & -> & _).
    split; [auto|]. split.
    + split; [contradiction|]. intros (E & _). not_ok E.
    + intros _. right. right. auto using torn_down_clear_img.
Qed.

(** What the status 0 of [gk20a_init_cde_img] tells. *)
Lemma init_cde_img_zero c img env c' ev :
  gk20a_init_cde_img c img env = (0, c', ev) ->
  header_fits img
  /\ ((all_handled c img env /\ extends c c' /\ slot_loaded c' = true)
      \/ (~ all_handled c img env /\ torn_down c')).
Proof.
  intros Hrun. pose proof (init_cde_img_outcomes c img env) as H.
  rewrite Hrun in H. destruct H as (_ & Hsize & Hfit).
  destruct (header_fits_dec img) as [Hh|Hh].
  2:{ apply Hsize in Hh. destruct Hh as (E & _). not_ok E. }
  split; [exact Hh|].
  destruct (Hfit Hh) as [(Ha & _ & He & Hl)|[(_ & E & _)|(Ha & _ & Ht)]]; auto.
  not_ok E.
Qed.

(** X7.  The outcomes of [gk20a_init_cde_img].  It returns 0 or
    [-EINVAL].  An image that does not pass the size tests gives
    [-EINVAL], and nothing is touched or called.  Otherwise the context
    is left in one of three ways.  Every element was handled and both
    command lists are ready: the status is 0 and the context extends the
    one that was given.  Every element was handled and a command list is
    missing: the status is [-EINVAL] and the context is torn down.  A
    handler failed: the context is torn down as well, but the status is
    0, because the [err] that the handler's error was stored in is the
    one declared in the loop body, not the one that is returned. *)
Theorem init_cde_img_all_or_nothing c img env :
  let '(err, c', ev) := gk20a_init_cde_img c img env in
  (err = 0 \/ err = - EINVAL)
  /\ (~ header_fits img <-> err = - EINVAL /\ c' = c /\ ev = [])
  /\ (header_fits img ->
      (all_handled c img env /\ err = 0 /\ extends c c' /\ slot_loaded c' = true)
      \/ (all_handled c img env /\ err = - EINVAL /\ torn_down c')
      \/ (~ all_handled c img env /\ err = 0 /\ torn_down c')).
Proof. exact (init_cde_img_outcomes c img env). Qed.

Lemma upto_succ n : 0 <= n -> upto (n + 1) = upto n ++ [n].
Proof.
  intros Hn. unfold upto.
  replace (Z.to_nat (n + 1)) with (S (Z.to_nat n)) by lia.
  rewrite seq_S, map_app. cbn [map Nat.add]. rewrite Z2Nat.id by lia. reflexivity.
Qed.

Lemma mapped_vas_app a b : mapped_vas (a ++ b) = mapped_vas a ++ mapped_vas b.
Proof. apply flat_map_app. Qed.

Lemma unmapped_vas_app a b : unmapped_vas (a ++ b) = unmapped_vas a ++ unmapped_vas b.
Proof. apply flat_map_app. Qed.

Lemma allocated_objs_app a b : allocated_objs (a ++ b) = allocated_objs a ++ allocated_objs b.
Proof. apply flat_map_app. Qed.

Lemma freed_objs_app a b : freed_objs (a ++ b) = freed_objs a ++ freed_objs b.
Proof. apply flat_map_app. Qed.

Lemma held_vas_same c c1 :
  num_bufs c1 = num_bufs c ->
  (forall k, k < num_bufs c -> same_desc (mem c k) (mem c1 k)) ->
  held_vas c1 = held_vas c.
Proof.
  intros Hn Hm. unfold held_vas. rewrite Hn. apply map_ext_in.
  intros k Hk. apply upto_spec in Hk. destruct (Hm k) as (_ & _ & _ & _ & Hva); [lia|].
  exact Hva.
Qed.

Lemma held_objs_same c c1 :
  num_obj_ids c1 = num_obj_ids c ->
  (forall i, i < num_obj_ids c -> obj_ids c1 i = obj_ids c i) ->
  held_objs c1 = held_objs c.
Proof.
  intros Hn Hm. unfold held_objs. rewrite Hn. apply map_ext_in.
  intros k Hk. apply upto_spec in Hk. apply Hm. lia.
Qed.

(** What one element adds to the registered buffers and object contexts
    is what its handler mapped and allocated; no handler releases
    anything that is registered. *)
Lemma init_cde_elem_ledger c img elem e :
  0 <= num_bufs c -> 0 <= num_obj_ids c ->
  let r := init_cde_elem c img elem e in
  0 <= num_bufs (snd (fst r)) /\ 0 <= num_obj_ids (snd (fst r))
  /\ held_vas (snd (fst r)) = held_vas c ++ mapped_vas (snd r)
  /\ held_objs (snd (fst r)) = held_objs c ++ allocated_objs (snd r)
  /\ unmapped_vas (snd r) = [] /\ freed_objs (snd r) = [].
Proof.
  intros Hb Ho.
  pose proof (init_cde_elem_extends c img elem e) as Hext.
  destruct Hext as (_ & Hm & _ & _ & _ & Hobj).
  assert (Hquiet : forall r : Z * gk20a_cde_ctx * list event,
             (forall k, k < num_bufs c -> same_desc (mem c k) (mem (snd (fst r)) k)) ->
             (forall i, i < num_obj_ids c -> obj_ids (snd (fst r)) i = obj_ids c i) ->
             num_bufs (snd (fst r)) = num_bufs c ->
             num_obj_ids (snd (fst r)) = num_obj_ids c ->
             mapped_vas (snd r) = [] -> allocated_objs (snd r) = [] ->
             unmapped_vas (snd r) = [] -> freed_objs (snd r) = [] ->
             0 <= num_bufs (snd (fst r)) /\ 0 <= num_obj_ids (snd (fst r))
             /\ held_vas (snd (fst r)) = held_vas c ++ mapped_vas (snd r)
             /\ held_objs (snd (fst r)) = held_objs c ++ allocated_objs (snd r)
             /\ unmapped_vas (snd r) = [] /\ freed_objs (snd r) = []).
  { intros r Hm' Ho' Hnb Hno -> -> -> ->. rewrite !app_nil_r.
    repeat split; try lia.
    - apply held_vas_same; assumption.
    - apply held_objs_same; assumption. }
  cbv zeta. revert Hm Hobj.
  destruct elem; cbn [init_cde_elem]; intros Hm Hobj.
  - (* buffers *)
    unfold gk20a_init_cde_buf in *.
    destruct (negb _ && _); [apply Hquiet; auto|].
    destruct (num_bufs c >? MAX_CDE_BUFS); [apply Hquiet; auto|].
    cbn [cpuva sgt iova num_bytes gpu_va data] in *.
    destruct (alloc_cpuva (env_buf e) =? 0);
      [apply Hquiet; auto; destruct c; reflexivity|].
    destruct (negb (sgtable_err (env_buf e) =? 0));
      [apply Hquiet; auto; destruct c; reflexivity|].
    destruct (gmmu_map_va (env_buf e) =? 0) eqn:Hva.
    + apply Hquiet; auto; try (destruct c; reflexivity).
      cbn. rewrite Hva. reflexivity.
    + cbn [fst snd] in *.
      assert (Hobjs : forall m n, held_objs (set_num_bufs (set_mem c m) n) = held_objs c)
        by (intros; destruct c; reflexivity).
      rewrite Hobjs.
      assert (Hvas : forall m,
                 held_vas (set_num_bufs (set_mem c (aset (mem c) (num_bufs c) m))
                             (num_bufs c + 1))
                 = held_vas c ++ [gpu_va m]).
      { intros m. unfold held_vas.
        replace (num_bufs (set_num_bufs (set_mem c (aset (mem c) (num_bufs c) m))
                             (num_bufs c + 1))) with (num_bufs c + 1)
          by (destruct c; reflexivity).
        replace (mem (set_num_bufs (set_mem c (aset (mem c) (num_bufs c) m))
                        (num_bufs c + 1))) with (aset (mem c) (num_bufs c) m)
          by (destruct c; reflexivity).
        rewrite upto_succ, map_app by lia. cbn [map]. rewrite aset_same.
        f_equal. apply map_ext_in. intros k Hk. apply upto_spec in Hk.
        rewrite aset_other by lia. reflexivity. }
      rewrite Hvas.
      replace (num_bufs (set_num_bufs _ _)) with (num_bufs c + 1)
        by (destruct c; reflexivity).
      replace (num_obj_ids (set_num_bufs _ _)) with (num_obj_ids c)
        by (destruct c; reflexivity).
      split; [lia|]. split; [lia|].
      split.
      { cbn [mapped_vas flat_map app]. rewrite Hva.
        destruct (negb (buf_data_byte_offset buf =? 0)); reflexivity. }
      rewrite app_nil_r. auto.
  - (* relocations *)
    unfold gk20a_init_cde_replace in *.
    destruct (_ || _); [apply Hquiet; auto|].
    destruct (_ || _); [apply Hquiet; auto|].
    destruct (gk20a_replace_data _ _ _ _ _ _) as [rerr rdata].
    apply Hquiet; auto; destruct c; reflexivity.
  - (* parameters *)
    unfold gk20a_init_cde_param in *.
    repeat match goal with
           | |- context [if ?b then _ else _] => destruct b
           end; apply Hquiet; auto; destruct c; reflexivity.
  - (* required classes *)
    unfold gk20a_init_cde_required_class in *.
    destruct (num_obj_ids c >=? MAX_CDE_OBJ_IDS); [apply Hquiet; auto|].
    destruct (obj_ctx_err e =? 0) eqn:Herr; cbn [negb] in *.
    2:{ apply Hquiet; auto. cbn. rewrite Herr. reflexivity. }
    cbn [fst snd] in *.
    assert (Hvas : forall m n, held_vas (set_num_obj_ids (set_obj_ids c m) n) = held_vas c)
      by (intros; destruct c; reflexivity).
    rewrite Hvas.
    unfold held_objs.
    replace (num_obj_ids (set_num_obj_ids _ _)) with (num_obj_ids c + 1)
      by (destruct c; reflexivity).
    replace (num_bufs (set_num_obj_ids _ _)) with (num_bufs c)
      by (destruct c; reflexivity).
    replace (obj_ids (set_num_obj_ids _ _))
      with (aset (obj_ids c) (num_obj_ids c) (obj_ctx_id e))
      by (destruct c; reflexivity).
    split; [lia|]. split; [lia|]. split; [rewrite app_nil_r; reflexivity|].
    split; [|auto].
    rewrite upto_succ, map_app by lia. cbn [map]. rewrite aset_same.
    cbn [allocated_objs flat_map app]. rewrite Herr. cbn [app].
    f_equal. apply map_ext_in. intros k Hk. apply upto_spec in Hk.
    rewrite aset_other by lia. reflexivity.
  - (* command lists *)
    unfold gk20a_init_cde_command in *.
    destruct (command_op_of command); try (apply Hquiet; now auto);
      (destruct (kzalloc_ok e); cbn [negb] in *;
       [|apply Hquiet; auto; destruct c; reflexivity]);
      destruct (fill_gpfifo _ _ _ _) as [err gpfifo];
      destruct (negb (err =? 0)); apply Hquiet; auto; destruct c; reflexivity.
  - apply Hquiet; auto.
Qed.

Lemma init_cde_elems_ledger img env es :
  forall c i,
    0 <= num_bufs c -> 0 <= num_obj_ids c ->
    let r := init_cde_elems c img env i es in
    0 <= num_bufs (snd (fst r)) /\ 0 <= num_obj_ids (snd (fst r))
    /\ held_vas (snd (fst r)) = held_vas c ++ mapped_vas (snd r)
    /\ held_objs (snd (fst r)) = held_objs c ++ allocated_objs (snd r)
    /\ unmapped_vas (snd r) = [] /\ freed_objs (snd r) = [].
Proof.
  induction es as [|elem rest IH]; intros c i Hb Ho; cbv zeta.
  - cbn. rewrite !app_nil_r. auto 10.
  - cbn [init_cde_elems].
    pose proof (init_cde_elem_ledger c img elem (env i) Hb Ho) as He. cbv zeta in He.
    destruct (init_cde_elem c img elem (env i)) as [[err c1] ev1]. cbn [fst snd] in He.
    destruct He as (Hb1 & Ho1 & Hv1 & Hj1 & Hu1 & Hf1).
    destruct (negb (err =? 0)); [cbn [fst snd]; auto 10|].
    specialize (IH c1 (i + 1) Hb1 Ho1). cbv zeta in IH.
    destruct (init_cde_elems c1 img env (i + 1) rest) as [[err2 c2] ev2].
    cbn [fst snd] in *. destruct IH as (Hb2 & Ho2 & Hv2 & Hj2 & Hu2 & Hf2).
    rewrite mapped_vas_app, allocated_objs_app, unmapped_vas_app, freed_objs_app.
    rewrite Hv2, Hj2, Hv1, Hj1, Hu1, Hu2, Hf1, Hf2, !app_assoc. auto 10.
Qed.

Lemma deinit_cde_img_ledger c :
  mapped_vas (snd (gk20a_deinit_cde_img c)) = []
  /\ allocated_objs (snd (gk20a_deinit_cde_img c)) = []
  /\ unmapped_vas (snd (gk20a_deinit_cde_img c)) = held_vas c
  /\ freed_objs (snd (gk20a_deinit_cde_img c)) = held_objs c.
Proof.
  unfold gk20a_deinit_cde_img, held_vas, held_objs. cbn [snd].
  rewrite !mapped_vas_app, !allocated_objs_app, !unmapped_vas_app, !freed_objs_app.
  generalize (upto (num_bufs c)) as bs. generalize (upto (num_obj_ids c)) as os.
  intros os bs.
  assert (B : mapped_vas (flat_map (deinit_buf c) bs) = []
              /\ allocated_objs (flat_map (deinit_buf c) bs) = []
              /\ unmapped_vas (flat_map (deinit_buf c) bs)
                 = map (fun k => gpu_va (mem c k)) bs
              /\ freed_objs (flat_map (deinit_buf c) bs) = []).
  { induction bs as [|b bs IHb]; [cbn; auto|].
    destruct IHb as (I1 & I2 & I3 & I4). cbn [flat_map].
    rewrite mapped_vas_app, allocated_objs_app, unmapped_vas_app, freed_objs_app.
    rewrite I1, I2, I3, I4. cbn. auto. }
  assert (O : mapped_vas (map (fun i => gk20a_free_obj_ctx (obj_ids c i)) os) = []
              /\ allocated_objs (map (fun i => gk20a_free_obj_ctx (obj_ids c i)) os) = []
              /\ unmapped_vas (map (fun i => gk20a_free_obj_ctx (obj_ids c i)) os) = []
              /\ freed_objs (map (fun i => gk20a_free_obj_ctx (obj_ids c i)) os)
                 = map (obj_ids c) os).
  { induction os as [|o os IHo]; [cbn; auto|].
    destruct IHo as (I1 & I2 & I3 & I4). cbn [map].
    change (?x :: ?l) with ([x] ++ l) at 1 2 3 4.
    rewrite mapped_vas_app, allocated_objs_app, unmapped_vas_app, freed_objs_app.
    rewrite I1, I2, I3, I4. cbn. auto. }
  destruct B as (B1 & B2 & B3 & B4). destruct O as (O1 & O2 & O3 & O4).
  rewrite B1, B2, B3, B4, O1, O2, O3, O4. cbn. rewrite !app_nil_r. auto.
Qed.

Lemma held_vas_clear_img c : held_vas (clear_img c) = [].
Proof. destruct c; reflexivity. Qed.

Lemma held_objs_clear_img c : held_objs (clear_img c) = [].
Proof. destruct c; reflexivity. Qed.

(** The ledger of a parse into a context without buffers and object
    contexts, on every path. *)
Lemma init_cde_img_balance c img env :
  num_bufs c = 0 -> num_obj_ids c = 0 ->
  let '(err, c', ev) := gk20a_init_cde_img c img env in
  unmapped_vas ev ++ held_vas c' = mapped_vas ev
  /\ freed_objs ev ++ held_objs c' = allocated_objs ev
  /\ (slot_loaded c' = true -> unmapped_vas ev = [] /\ freed_objs ev = [])
  /\ (slot_loaded c' = false -> held_vas c' = [] /\ held_objs c' = []).
Proof.
  intros Hb Ho.
  pose proof (init_cde_img_cases c img env) as H.
  pose proof (init_cde_elems_ledger img env (elems img) c 0) as L. cbv zeta in L.
  destruct (gk20a_init_cde_img c img env) as [[err c'] ev].
  destruct (init_cde_elems c img env 0 (elems img)) as [[lerr built] lev].
  cbn [fst snd] in L.
  destruct L as (_ & _ & Hv & Hj & Hu & Hf); [lia|lia|].
  assert (Hv0 : held_vas c = []) by (unfold held_vas; rewrite Hb; reflexivity).
  assert (Hj0 : held_objs c = []) by (unfold held_objs; rewrite Ho; reflexivity).
  rewrite Hv0 in Hv. rewrite Hj0 in Hj. cbn [Datatypes.app] in Hv, Hj.
  destruct (deinit_cde_img_ledger built) as (D1 & D2 & D3 & D4).
  assert (Hfail :
    let ev2 := lev ++ snd (gk20a_deinit_cde_img built) in
    unmapped_vas ev2 ++ held_vas (clear_img built) = mapped_vas ev2
    /\ freed_objs ev2 ++ held_objs (clear_img built) = allocated_objs ev2
    /\ (slot_loaded (clear_img built) = true -> unmapped_vas ev2 = [] /\ freed_objs ev2 = [])
    /\ (slot_loaded (clear_img built) = false ->
        held_vas (clear_img built) = [] /\ held_objs (clear_img built) = [])).
  { cbv zeta.
    rewrite mapped_vas_app, allocated_objs_app, unmapped_vas_app, freed_objs_app.
    rewrite held_vas_clear_img, held_objs_clear_img.
    rewrite D1, D2, D3, D4, Hu, Hf, Hv, Hj, !app_nil_r.
    split; [reflexivity|]. split; [reflexivity|]. split; [|auto].
    intros E. rewrite (torn_down_not_loaded _ (torn_down_clear_img built)) in E.
    discriminate E. }
  cbv zeta in Hfail.
  destruct H as (Hsize & Hbad & Hok).
  destruct (header_fits_dec img) as [Hh|Hh].
  2:{ destruct (Hsize Hh) as (_ & -> & ->). rewrite Hv0, Hj0. cbn. auto. }
  destruct (Z.eq_dec lerr 0) as [->|Hne].
  2:{ destruct (Hbad Hh Hne) as (_ & -> & ->). exact Hfail. }
  destruct (Hok Hh eq_refl) as [(Hl & _ & -> & ->)|(_ & _ & -> & ->)]; [|exact Hfail].
  rewrite Hu, Hf, Hv, Hj. cbn [Datatypes.app].
  split; [reflexivity|]. split; [reflexivity|]. split; [auto|].
  intros E. rewrite Hl in E. discriminate E.
Qed.

(** X8.  Parsing an image into a context that has no buffer and no
    object context registered, on every path.  The GPU mappings that the
    parse removed and those of the buffers that the context holds are,
    together, the mappings the parse made, in the order they were made;
    likewise the object contexts it freed, those the context holds, and
    those it allocated.  When the context is left loaded nothing was
    released; when it is not, it holds nothing, so every mapping was
    removed and every object context freed, each once.  That is so
    whether the status is [-EINVAL] or the 0 that is returned after a
    handler failed. *)
Theorem init_cde_img_releases_what_it_took c img env :
  num_bufs c = 0 -> num_obj_ids c = 0 ->
  let '(err, c', ev) := gk20a_init_cde_img c img env in
  unmapped_vas ev ++ held_vas c' = mapped_vas ev
  /\ freed_objs ev ++ held_objs c' = allocated_objs ev
  /\ (slot_loaded c' = true -> unmapped_vas ev = [] /\ freed_objs ev = [])
  /\ (slot_loaded c' = false -> held_vas c' = [] /\ held_objs c' = []).
Proof. exact (init_cde_img_balance c img env). Qed.

End Build.

(** The richer image, parsed into an empty context: one buffer, one
    parameter, one object context. *)
Lemma init_cde_elems_registers_each_declaration_witness :
  tables_bounded (hdr := header_with_slots 1) null_ctx /\
  exists c' ev,
    init_cde_elems (hdr := header_with_slots 1) null_ctx richer_image
      (fun _ => good_elem_env) 0 (elems richer_image) = (0, c', ev)
    /\ num_bufs c' = 1 /\ num_params c' = 1 /\ num_obj_ids c' = 1.
Proof.
  assert (Hb : tables_bounded (hdr := header_with_slots 1) null_ctx)
    by (unfold tables_bounded; cbn; lia).
  split; [exact Hb|].
  destruct (init_cde_elems (hdr := header_with_slots 1) null_ctx richer_image
              (fun _ => good_elem_env) 0 (elems richer_image)) as [[err c'] ev] eqn:Hrun.
  assert (Herr : err = 0).
  { change err with (fst (fst (err, c', ev))). rewrite <- Hrun. vm_compute. reflexivity. }
  subst err. exists c', ev. split; [reflexivity|].
  destruct (init_cde_elems_registers_each_declaration (hdr := header_with_slots 1)
              richer_image (fun _ => good_elem_env) (elems richer_image)
              null_ctx 0 c' ev Hb Hrun) as (A1 & A2 & A3 & _).
  rewrite A1, A2, A3. repeat split.
Defined.


(** The broken image: its first buffer is mapped, and unmapped when the
    second element is refused; the status is 0. *)
Lemma init_cde_img_releases_what_it_took_witness :
  let '(err, c', ev) :=
    gk20a_init_cde_img (hdr := header_with_slots 1) null_ctx broken_image
      (fun _ => good_elem_env) in
  err = 0
  /\ slot_loaded c' = false
  /\ mapped_vas ev = [gmmu_map_va good_buf_env]
  /\ unmapped_vas ev = mapped_vas ev
  /\ freed_objs ev = allocated_objs ev.
Proof.
  pose proof (init_cde_img_releases_what_it_took (hdr := header_with_slots 1)
                null_ctx broken_image (fun _ => good_elem_env) eq_refl eq_refl) as H.
  destruct (gk20a_init_cde_img (hdr := header_with_slots 1) null_ctx broken_image
              (fun _ => good_elem_env)) as [[err c'] ev] eqn:Hrun.
  assert (Herr : err = 0).
  { change err with (fst (fst (err, c', ev))). rewrite <- Hrun. vm_compute. reflexivity. }
  assert (Hl : slot_loaded c' = false).
  { change c' with (snd (fst (err, c', ev))). rewrite <- Hrun. vm_compute. reflexivity. }
  assert (Hmap : mapped_vas ev = [gmmu_map_va good_buf_env]).
  { change ev with (snd (err, c', ev)). rewrite <- Hrun. vm_compute. reflexivity. }
  destruct H as (Hu & Hf & _ & Hheld).
  destruct (Hheld Hl) as [Hhv Hho].
  rewrite Hhv in Hu. rewrite Hho in Hf. rewrite !app_nil_r in Hu, Hf.
  auto.
Defined.

(** ** The content of a declared buffer *)




Section Content.

Context {hdr : cde_gk20a_h}.


End Content.

(** ** Command lists *)

Section Commands.

Context {hdr : cde_gk20a_h}.



(** X10.  The element loop stops at the first element whose handler
    fails: what the elements before it built is torn down and the
    elements after it are not looked at.  The error of the handler is
    lost: it was stored in the [err] that the loop body declares, and
    [gk20a_init_cde_img] returns the [err] of the function, which is
    0. *)
Theorem init_cde_img_stops_at_first_failure c img env before elem after c1 ev1 err c2 ev2 :
  header_fits img ->
  elems img = before ++ elem :: after ->
  init_cde_elems c img env 0 before = (0, c1, ev1) ->
  init_cde_elem c1 img elem (env (Z.of_nat (length before))) = (err, c2, ev2) ->
  err <> 0 ->
  gk20a_init_cde_img c img env
  = (0, clear_img c2, (ev1 ++ ev2) ++ snd (gk20a_deinit_cde_img c2)).
Proof.
  intros [Hs1 Hs2] Helems Hbefore Helem Herr.
  assert (Hloop : forall es c i c1 ev1,
             init_cde_elems c img env i es = (0, c1, ev1) ->
             init_cde_elem c1 img elem (env (i + Z.of_nat (length es))) = (err, c2, ev2) ->
             init_cde_elems c img env i (es ++ elem :: after) = (err, c2, ev1 ++ ev2)).
  { clear - Herr. induction es as [|x es IH]; intros c i c1 ev1 Hes He.
    - injection Hes as <- <-. cbn [length Z.of_nat] in He. rewrite Z.add_0_r in He.
      cbn [app init_cde_elems]. rewrite He.
      destruct (Z.eqb_spec err 0); [contradiction|reflexivity].
    - cbn [app init_cde_elems] in *.
      destruct (init_cde_elem c img x (env i)) as [[e0 c0] ev0].
      destruct (Z.eqb_spec e0 0) as [->|Hne]; cbn [negb] in *;
        [|injection Hes as E _ _; contradiction].
      destruct (init_cde_elems c0 img env (i + 1) es) as [[e3 c3] ev3] eqn:Hrest.
      injection Hes as -> -> <-.
      rewrite (IH c0 (i + 1) c1 ev3 Hrest).
      + rewrite app_assoc. reflexivity.
      + replace (i + 1 + Z.of_nat (length es)) with (i + Z.of_nat (length (x :: es)))
          by (cbn [length]; lia).
        exact He. }
  unfold gk20a_init_cde_img, deinit_image.
  destruct (Z.ltb_spec (size img) (2 * 4)); [lia|].
  destruct (Z.ltb_spec (size img) (u32 (2 * 4 + num_of_elems img * sizeof_hdr_elem)));
    [lia|].
  rewrite Helems, (Hloop before c 0 c1 ev1 Hbefore Helem).
  destruct (Z.eqb_spec err 0); [contradiction|]. cbn [negb].
  unfold gk20a_deinit_cde_img. reflexivity.
Qed.

Lemma execute_buffer_torn_down c op flags submit_err :
  known_op op -> torn_down c ->
  gk20a_cde_execute_buffer c op flags submit_err = (- ENOSYS, []).
Proof.
  intros Hop (Hi & Hc & _). unfold gk20a_cde_execute_buffer.
  destruct Hop as [-> | ->]; [rewrite Hi|rewrite Hc]; reflexivity.
Qed.

(** X11.  The status 0 of [gk20a_init_cde_img] does not tell whether
    there is a command list to submit.  For an image that passes the
    size tests and either of the two operations: when every element was
    handled and the status is 0, [gk20a_cde_execute_buffer] hands the
    recorded list and its number of entries, which is not 0, to the
    channel of the context and returns what the submission returns; when
    the status is [-EINVAL], or is 0 after a handler failed, the context
    holds no command list and [gk20a_cde_execute_buffer] returns
    [-ENOSYS] without a submission. *)
Theorem execute_buffer_after_init_cde_img c img env op flags submit_err :
  header_fits img ->
  known_op op ->
  let '(err, c', ev) := gk20a_init_cde_img c img env in
  (all_handled c img env /\ err = 0 /\ slot_loaded c' = true
   /\ exists gpfifo,
       cmd_of op c' = Some gpfifo
       /\ cmd_num_entries_of op c' <> 0
       /\ gk20a_cde_execute_buffer c' op flags submit_err
          = (submit_err,
             [gk20a_submit_channel_gpfifo (ch c') gpfifo (cmd_num_entries_of op c')
                flags submit_err]))
  \/ ((err = - EINVAL \/ (err = 0 /\ ~ all_handled c img env))
      /\ slot_loaded c' = false
      /\ gk20a_cde_execute_buffer c' op flags submit_err = (- ENOSYS, [])).
Proof.
  intros Hh Hop.
  pose proof (init_cde_img_cases c img env) as H. unfold all_handled.
  destruct (gk20a_init_cde_img c img env) as [[err c'] ev].
  destruct (init_cde_elems c img env 0 (elems img)) as [[lerr built] lev].
  cbn [fst snd]. destruct H as (_ & Hfail & Hok).
  destruct (Z.eq_dec lerr 0) as [->|Hne].
  2:{ destruct (Hfail Hh Hne) as (-> & -> & _). right.
      split; [auto|]. split; [apply torn_down_not_loaded, torn_down_clear_img|].
      apply execute_buffer_torn_down; [exact Hop|apply torn_down_clear_img]. }
  destruct (Hok Hh eq_refl) as [(Hl & -> & -> & _)|(_ & -> & -> & _)].
  2:{ right. split; [auto|].
      split; [apply torn_down_not_loaded, torn_down_clear_img|].
      apply execute_buffer_torn_down; [exact Hop|apply torn_down_clear_img]. }
  left. split; [reflexivity|]. split; [reflexivity|]. split; [exact Hl|].
  unfold slot_loaded, cmd_ready in Hl. apply andb_prop in Hl as [Hi Hc].
  apply negb_true_iff, orb_false_elim in Hi, Hc.
  destruct Hi as [Hi1 Hi2]. destruct Hc as [Hc1 Hc2].
  unfold gk20a_cde_execute_buffer.
  destruct Hop as [-> | ->]; cbn [cmd_of cmd_num_entries_of].
  - destruct (init_cmd built) as [l|]; [|discriminate Hi1].
    exists l. rewrite Hi2. apply Z.eqb_neq in Hi2. auto.
  - destruct (convert_cmd built) as [l|]; [|discriminate Hc1].
    exists l. rewrite Hc2. apply Z.eqb_neq in Hc2. auto.
Qed.

End Commands.


(** The broken image: the parameter that names buffer 3 is refused with
    [-EINVAL], the buffer declared after it is never allocated, and the
    status is 0. *)
Lemma init_cde_img_stops_at_first_failure_witness :
  exists c2,
    fst (fst (init_cde_elems (hdr := header_with_slots 1) null_ctx broken_image
                (fun _ => good_elem_env) 0 (elems broken_image))) = - EINVAL
    /\ gk20a_init_cde_img (hdr := header_with_slots 1) null_ctx broken_image
         (fun _ => good_elem_env)
       = (0, clear_img c2,
          ([dma_alloc_coherent 64 (alloc_cpuva good_buf_env) (alloc_iova good_buf_env);
            gk20a_get_sgtable (alloc_cpuva good_buf_env) (alloc_iova good_buf_env) 64
              (sgtable_err good_buf_env) (sgtable_sgt good_buf_env);
            gk20a_gmmu_map (sgtable_sgt good_buf_env) 64 (gmmu_map_va good_buf_env)] ++ [])
          ++ snd (gk20a_deinit_cde_img c2)).
Proof.
  eexists. split; [vm_compute; reflexivity|].
  eapply (init_cde_img_stops_at_first_failure (hdr := header_with_slots 1)
            null_ctx broken_image (fun _ => good_elem_env)
            [TYPE_BUF {| buf_data_byte_offset := 0; buf_num_bytes := 64 |}]
            _ [TYPE_BUF {| buf_data_byte_offset := 0; buf_num_bytes := 32 |}]).
  - split; apply Z.leb_le; vm_compute; reflexivity.
  - reflexivity.
  - reflexivity.
  - reflexivity.
  - vm_compute. discriminate.
Defined.

(** The convert list of the richer image is submitted; after the parse
    of the broken image, which returns 0 as well, there is none. *)
Lemma execute_buffer_after_init_cde_img_witness :
  (let '(err, c', ev) :=
     gk20a_init_cde_img (hdr := header_with_slots 1) null_ctx richer_image
       (fun _ => good_elem_env) in
   err = 0 /\
   exists gpfifo,
     cmd_of TYPE_BUF_COMMAND_CONVERT c' = Some gpfifo
     /\ gk20a_cde_execute_buffer c' TYPE_BUF_COMMAND_CONVERT 0 0
        = (0, [gk20a_submit_channel_gpfifo (ch c') gpfifo 2 0 0]))
  /\ (let '(err, c', ev) :=
        gk20a_init_cde_img (hdr := header_with_slots 1) null_ctx broken_image
          (fun _ => good_elem_env) in
      err = 0 /\
      gk20a_cde_execute_buffer c' TYPE_BUF_COMMAND_CONVERT 0 0 = (- ENOSYS, [])).
Proof.
  split.
  - assert (Hh : header_fits (hdr := header_with_slots 1) richer_image)
      by (split; apply Z.leb_le; vm_compute; reflexivity).
    pose proof (execute_buffer_after_init_cde_img (hdr := header_with_slots 1)
                  null_ctx richer_image (fun _ => good_elem_env)
                  TYPE_BUF_COMMAND_CONVERT 0 0 Hh (or_intror eq_refl)) as H.
    destruct (gk20a_init_cde_img (hdr := header_with_slots 1) null_ctx richer_image
                (fun _ => good_elem_env)) as [[err c'] ev] eqn:Hrun.
    assert (Hl : slot_loaded c' = true).
    { change c' with (snd (fst (err, c', ev))). rewrite <- Hrun. vm_compute. reflexivity. }
    assert (Hn : cmd_num_entries_of TYPE_BUF_COMMAND_CONVERT c' = 2).
    { change c' with (snd (fst (err, c', ev))). rewrite <- Hrun. vm_compute. reflexivity. }
    destruct H as [(_ & Herr & _ & gpfifo & Hcmd & _ & Hexec)|(_ & Hl' & _)];
      [|rewrite Hl in Hl'; discriminate Hl'].
    split; [exact Herr|]. exists gpfifo. split; [exact Hcmd|].
    rewrite Hexec, Hn. reflexivity.
  - assert (Hh : header_fits (hdr := header_with_slots 1) broken_image)
      by (split; apply Z.leb_le; vm_compute; reflexivity).
    pose proof (execute_buffer_after_init_cde_img (hdr := header_with_slots 1)
                  null_ctx broken_image (fun _ => good_elem_env)
                  TYPE_BUF_COMMAND_CONVERT 0 0 Hh (or_intror eq_refl)) as H.
    destruct (gk20a_init_cde_img (hdr := header_with_slots 1) null_ctx broken_image
                (fun _ => good_elem_env)) as [[err c'] ev] eqn:Hrun.
    assert (Herr : err = 0).
    { change err with (fst (fst (err, c', ev))). rewrite <- Hrun. vm_compute. reflexivity. }
    assert (Hl : slot_loaded c' = false).
    { change c' with (snd (fst (err, c', ev))). rewrite <- Hrun. vm_compute. reflexivity. }
    destruct H as [(_ & _ & Hl' & _)|(_ & _ & Hexec)];
      [rewrite Hl in Hl'; discriminate Hl'|].
    split; [exact Herr|exact Hexec].
Defined.
(** ** The context pool: loading, initialisation, reload and removal *)

Lemma filter_none {A} (p q : A -> bool) (l : list A) :
  (forall a, p a = true -> q a = false) ->
  Forall (fun a => p a = true) l -> List.filter q l = [].
Proof.
  intros Hpq Hl. induction Hl as [|a l Ha _ IH]; [reflexivity|].
  cbn [List.filter]. rewrite (Hpq a Ha). exact IH.
Qed.

Lemma flat_map_none {A B} (p : A -> bool) (f : A -> list B) (l : list A) :
  (forall a, p a = true -> f a = []) ->
  Forall (fun a => p a = true) l -> flat_map f l = [].
Proof.
  intros Hpf Hl. induction Hl as [|a l Ha _ IH]; [reflexivity|].
  cbn [flat_map]. rewrite (Hpf a Ha). exact IH.
Qed.

Lemma build_events_firmware ev :
  Forall (fun e => is_build_event e = true) ev -> firmware_events ev = [].
Proof. apply filter_none. intros e; destruct e; cbn; congruence. Qed.

Lemma build_events_opened ev :
  Forall (fun e => is_build_event e = true) ev -> opened_channels ev = [].
Proof. apply flat_map_none. intros e; destruct e; cbn; congruence. Qed.

Lemma build_events_freed ev :
  Forall (fun e => is_build_event e = true) ev -> freed_channels ev = [].
Proof. apply flat_map_none. intros e; destruct e; cbn; congruence. Qed.

Lemma firmware_events_app a b :
  firmware_events (a ++ b) = firmware_events a ++ firmware_events b.
Proof. apply List.filter_app. Qed.

Lemma opened_channels_app a b :
  opened_channels (a ++ b) = opened_channels a ++ opened_channels b.
Proof. apply flat_map_app. Qed.

Lemma freed_channels_app a b :
  freed_channels (a ++ b) = freed_channels a ++ freed_channels b.
Proof. apply flat_map_app. Qed.

Lemma same_channel_refl c : same_channel c c.
Proof. repeat split. Qed.

Lemma same_channel_trans c1 c2 c3 :
  same_channel c1 c2 -> same_channel c2 c3 -> same_channel c1 c3.
Proof. intros (A1 & A2 & A3) (B1 & B2 & B3). repeat split; congruence. Qed.

Lemma same_channel_clear_img c : same_channel c (clear_img c).
Proof. destruct c. repeat split. Qed.

Lemma faults_app a b : faults (a ++ b) = faults a || faults b.
Proof. apply existsb_app. Qed.

Lemma build_events_faults ev :
  Forall (fun e => is_build_event e = true) ev -> faults ev = false.
Proof.
  intros H. induction H as [|e l He _ IH]; [reflexivity|].
  cbn [faults existsb]. fold (faults l). rewrite IH.
  destruct e; cbn in He |- *; congruence.
Qed.

Lemma existsb_eq {A} (f f' : A -> bool) (l : list A) :
  (forall x, f x = f' x) -> existsb f l = existsb f' l.
Proof. intros H. induction l as [|x l IH]; [reflexivity|]. cbn. rewrite H, IH. reflexivity. Qed.

Section Pool.

Context {hdr : cde_gk20a_h}.

(** The parser and the tear-down call nothing but the functions that
    build the content of a context, and leave its channel alone. *)
Lemma deinit_cde_img_builds c :
  Forall (fun e => is_build_event e = true) (snd (gk20a_deinit_cde_img c)).
Proof.
  unfold gk20a_deinit_cde_img. cbn [snd].
  apply Forall_app. split; [|apply Forall_app; split].
  - apply Forall_flat_map. apply Forall_forall. intros k _.
    repeat constructor.
  - apply Forall_map. apply Forall_forall. intros k _. reflexivity.
  - repeat constructor.
Qed.

Lemma init_cde_elem_builds c img elem e :
  Forall (fun e => is_build_event e = true) (snd (init_cde_elem c img elem e))
  /\ same_channel c (snd (fst (init_cde_elem c img elem e))).
Proof.
  destruct elem; cbn [init_cde_elem].
  - unfold gk20a_init_cde_buf.
    repeat match goal with
           | |- context [if ?b then _ else _] => destruct b
           end; (split; [repeat constructor|destruct c; repeat split]).
  - unfold gk20a_init_cde_replace.
    destruct (_ || _); [split; [constructor|apply same_channel_refl]|].
    destruct (_ || _); [split; [constructor|apply same_channel_refl]|].
    destruct (gk20a_replace_data _ _ _ _ _ _).
    split; [constructor|destruct c; repeat split].
  - unfold gk20a_init_cde_param.
    repeat match goal with
           | |- context [if ?b then _ else _] => destruct b
           end; (split; [repeat constructor|destruct c; repeat split]).
  - unfold gk20a_init_cde_required_class.
    repeat match goal with
           | |- context [if ?b then _ else _] => destruct b
           end; (split; [repeat constructor|destruct c; repeat split]).
  - unfold gk20a_init_cde_command.
    destruct (command_op_of command);
      try (split; [constructor|apply same_channel_refl]);
      (destruct (kzalloc_ok e); cbn [negb];
       [|split; [repeat constructor|destruct c; repeat split]]);
      destruct (fill_gpfifo _ _ _ _) as [err gpfifo];
      destruct (negb (err =? 0));
      (split; [repeat constructor|destruct c; repeat split]).
  - split; [constructor|apply same_channel_refl].
Qed.

Lemma init_cde_elems_builds img env es :
  forall c i,
    Forall (fun e => is_build_event e = true) (snd (init_cde_elems c img env i es))
    /\ same_channel c (snd (fst (init_cde_elems c img env i es))).
Proof.
  induction es as [|elem rest IH]; intros c i.
  - split; [constructor|apply same_channel_refl].
  - cbn [init_cde_elems].
    destruct (init_cde_elem_builds c img elem (env i)) as [Hb Hs].
    destruct (init_cde_elem c img elem (env i)) as [[err c1] ev1]. cbn [fst snd] in *.
    destruct (negb (err =? 0)); [auto|].
    destruct (IH c1 (i + 1)) as [Hb2 Hs2].
    destruct (init_cde_elems c1 img env (i + 1) rest) as [[err2 c2] ev2].
    cbn [fst snd] in *. split.
    + apply Forall_app. auto.
    + eapply same_channel_trans; eassumption.
Qed.

Lemma init_cde_img_builds c img env :
  Forall (fun e => is_build_event e = true) (snd (gk20a_init_cde_img c img env))
  /\ same_channel c (snd (fst (gk20a_init_cde_img c img env))).
Proof.
  unfold gk20a_init_cde_img, deinit_image.
  destruct (size img <? 2 * 4); [split; [constructor|apply same_channel_refl]|].
  destruct (size img <? _); [split; [constructor|apply same_channel_refl]|].
  destruct (init_cde_elems_builds img env (elems img) c 0) as [Hb Hs].
  destruct (init_cde_elems c img env 0 (elems img)) as [[err c1] ev1].
  cbn [fst snd] in *.
  pose proof (deinit_cde_img_builds c1) as Hd.
  assert (Hc : same_channel c (fst (gk20a_deinit_cde_img c1))).
  { eapply same_channel_trans; [exact Hs|apply same_channel_clear_img]. }
  destruct (gk20a_deinit_cde_img c1) as [c2 ev2]. cbn [fst snd] in *.
  repeat match goal with
         | |- context [if ?b then _ else _] => destruct b
         end; cbn [fst snd]; (split; [try apply Forall_app; auto|auto]).
Qed.

(** The paths of [gk20a_cde_load]. *)
Lemma cde_load_cases g c e :
  let '(err, c', ev) := gk20a_cde_load g c e in
  (err = 0 ->
     (env_backing_store e = 0 /\ c' = c)
     \/ (env_backing_store e <> 0 /\ env_channel e <> 0
         /\ ch c' = env_channel e /\ vm c' = pmu_vm g
         /\ backing_store_vaddr c' = env_backing_store e
         /\ exists img ev',
             env_firmware e = Some img
             /\ gk20a_init_cde_img
                  (set_channel c (env_channel e) (pmu_vm g) (env_backing_store e))
                  img (env_elems e) = (0, c', ev')
             /\ ev = load_prefix g e ++ ev' ++ [release_firmware]))
  /\ (err <> 0 ->
      c' = c
      \/ c' = set_channel c (env_channel e) (pmu_vm g) (env_backing_store e)
      \/ torn_down c').
Proof.
  unfold gk20a_cde_load.
  destruct (env_firmware e) as [img|];
    [|split; [intros E; not_ok E|auto]].
  destruct (Z.eqb_spec (env_channel e) 0) as [|Hch];
    [split; [intros E; not_ok E|auto]|].
  destruct (Z.eqb_spec (env_commit_va e) 0) as [Hcv|Hcv]; cbn [negb];
    [|split; [intros E; contradiction|auto]].
  destruct (Z.eqb_spec (env_alloc_gpfifo e) 0) as [Hag|Hag]; cbn [negb];
    [|split; [intros E; contradiction|auto]].
  destruct (Z.eqb_spec (env_backing_store e) 0) as [Hbs|Hbs];
    [split; [auto|intros E; contradiction]|].
  pose proof (init_cde_img_outcomes
                (set_channel c (env_channel e) (pmu_vm g) (env_backing_store e))
                img (env_elems e)) as Hall.
  destruct (init_cde_img_builds
              (set_channel c (env_channel e) (pmu_vm g) (env_backing_store e))
              img (env_elems e)) as [_ (Sc & Sv & Sb)].
  destruct (gk20a_init_cde_img _ img (env_elems e)) as [[err c1] ev1] eqn:Himg.
  cbn [fst snd] in *.
  assert (Hch1 : ch c1 = env_channel e) by (rewrite Sc; destruct c; reflexivity).
  assert (Hvm1 : vm c1 = pmu_vm g) by (rewrite Sv; destruct c; reflexivity).
  assert (Hbs1 : backing_store_vaddr c1 = env_backing_store e)
    by (rewrite Sb; destruct c; reflexivity).
  destruct Hall as (_ & Hsize & Hfit).
  destruct (Z.eqb_spec err 0) as [->|Hne]; cbn [negb].
  - split; [|intros E; exfalso; apply E; reflexivity].
    intros _. right.
    repeat (split; [assumption|]).
    exists img, ev1. split; [reflexivity|]. split; [exact Himg|].
    unfold load_prefix. cbn [Datatypes.app]. rewrite <- ?app_assoc. reflexivity.
  - split; [intros E; contradiction|]. intros _.
    destruct (header_fits_dec img) as [Hh|Hh].
    + destruct (Hfit Hh) as [(_ & E & _)|[(_ & _ & Ht)|(_ & E & _)]];
        [contradiction|auto|contradiction].
    + destruct (proj1 Hsize Hh) as (_ & -> & _). auto.
Qed.

Lemma slot_loaded_set_channel c ch' vm' vaddr :
  slot_loaded (set_channel c ch' vm' vaddr) = slot_loaded c.
Proof. destruct c; reflexivity. Qed.

Lemma cde_load_firmware g c e :
  firmware_events (snd (gk20a_cde_load g c e))
  = match env_firmware e with
    | Some _ => [gk20a_request_firmware true; release_firmware]
    | None => [gk20a_request_firmware false]
    end.
Proof.
  unfold gk20a_cde_load.
  destruct (env_firmware e) as [img|]; [|reflexivity].
  destruct (env_channel e =? 0); [reflexivity|].
  destruct (negb (env_commit_va e =? 0)); [reflexivity|].
  destruct (negb (env_alloc_gpfifo e =? 0)); [reflexivity|].
  destruct (env_backing_store e =? 0); [reflexivity|].
  destruct (init_cde_img_builds
              (set_channel c (env_channel e) (pmu_vm g) (env_backing_store e))
              img (env_elems e)) as [Hb _].
  apply build_events_firmware in Hb.
  destruct (gk20a_init_cde_img _ img (env_elems e)) as [[err c1] ev1].
  cbn [fst snd] in *.
  destruct (negb (err =? 0)); cbn [snd];
    rewrite !firmware_events_app, Hb; reflexivity.
Qed.

(** A load reads no field of a channel it did not open. *)
Lemma cde_load_faults g c e : faults (snd (gk20a_cde_load g c e)) = false.
Proof.
  unfold gk20a_cde_load.
  destruct (env_firmware e) as [img|]; [|reflexivity].
  destruct (env_channel e =? 0); [reflexivity|].
  destruct (negb (env_commit_va e =? 0)); [reflexivity|].
  destruct (negb (env_alloc_gpfifo e =? 0)); [reflexivity|].
  destruct (env_backing_store e =? 0); [reflexivity|].
  destruct (init_cde_img_builds
              (set_channel c (env_channel e) (pmu_vm g) (env_backing_store e))
              img (env_elems e)) as [Hb _].
  apply build_events_faults in Hb.
  destruct (gk20a_init_cde_img _ img (env_elems e)) as [[err c1] ev1].
  cbn [fst snd] in *.
  destruct (negb (err =? 0)); cbn [snd];
    rewrite !faults_app, Hb; reflexivity.
Qed.

(** X12.  [gk20a_cde_load] releases the firmware image once on every
    path on which it was fetched.  It returns 0 in three cases.  The
    backing store could not be mapped: the context is as it was.  The
    image was parsed and every element handled: both command lists are
    ready, and the context holds the channel that was opened and the
    mapping of the backing store.  A handler of the parse failed: the
    parse returned 0 all the same, the context holds the channel and the
    mapping of the backing store but is torn down, and the load went on
    as after a success, so that after the parse it only released the
    firmware: the mapping of the backing store is not removed and the
    reference on the address space is not returned.  When the load
    fails, a context that was not loaded is still not loaded. *)
Theorem cde_load_outcomes g c e :
  let '(err, c', ev) := gk20a_cde_load g c e in
  firmware_events ev
  = match env_firmware e with
    | Some _ => [gk20a_request_firmware true; release_firmware]
    | None => [gk20a_request_firmware false]
    end
  /\ (err = 0 ->
      (env_backing_store e = 0 /\ c' = c)
      \/ (env_backing_store e <> 0 /\ env_channel e <> 0
          /\ ch c' = env_channel e
          /\ backing_store_vaddr c' = env_backing_store e
          /\ exists img ev',
              let c0 := set_channel c (env_channel e) (pmu_vm g) (env_backing_store e) in
              env_firmware e = Some img
              /\ gk20a_init_cde_img c0 img (env_elems e) = (0, c', ev')
              /\ ev = load_prefix g e ++ ev' ++ [release_firmware]
              /\ vm_puts ev = []
              /\ ((all_handled c0 img (env_elems e) /\ slot_loaded c' = true)
                  \/ (~ all_handled c0 img (env_elems e) /\ torn_down c'))))
  /\ (err <> 0 -> slot_loaded c = false -> slot_loaded c' = false).
Proof.
  pose proof (cde_load_firmware g c e) as Hfw.
  pose proof (cde_load_cases g c e) as Hcases.
  destruct (gk20a_cde_load g c e) as [[err c'] ev]. cbn [snd] in Hfw.
  destruct Hcases as [Hok Hfail].
  split; [exact Hfw|]. split.
  - intros E.
    destruct (Hok E) as [H|(H1 & H2 & H3 & _ & H5 & img & ev' & Hf & Himg & Hev)];
      [auto|].
    right. repeat (split; [assumption|]).
    exists img, ev'. cbv zeta.
    split; [exact Hf|]. split; [exact Himg|]. split; [exact Hev|].
    destruct (init_cde_img_zero _ _ _ _ _ Himg) as (_ & Hz).
    split.
    + rewrite Hev. unfold vm_puts. rewrite !List.filter_app.
      destruct (init_cde_img_builds
                  (set_channel c (env_channel e) (pmu_vm g) (env_backing_store e))
                  img (env_elems e)) as [Hb _].
      rewrite Himg in Hb. cbn [snd] in Hb.
      rewrite (filter_none is_build_event is_vm_put ev'); [reflexivity| |exact Hb].
      intros a; destruct a; cbn; congruence.
    + destruct Hz as [(Ha & _ & Hl)|(Ha & Ht)]; auto.
  - intros E Hc. destruct (Hfail E) as [->|[->|Ht]].
    + exact Hc.
    + rewrite slot_loaded_set_channel. exact Hc.
    + apply torn_down_not_loaded, Ht.
Qed.

Lemma cde_remove_spec g c :
  gk20a_cde_remove g c
  = (0, clear_img c,
     [read_channel (ch c)] ++ [gk20a_free_channel (ch c)]
     ++ snd (gk20a_deinit_cde_img c)
     ++ [gk20a_gmmu_unmap (backing_store_vaddr c) (compbit_store_size g)]).
Proof. reflexivity. Qed.

(** A removal faults exactly when the context has no channel. *)
Lemma cde_remove_faults g c : faults (snd (gk20a_cde_remove g c)) = (ch c =? 0).
Proof.
  rewrite cde_remove_spec. cbn [snd]. rewrite !faults_app.
  rewrite (build_events_faults _ (deinit_cde_img_builds c)).
  cbn. rewrite !orb_false_r. reflexivity.
Qed.

(** X13.  Removal undoes a load that returned 0 with the backing store
    mapped, whether the parse left the context loaded or torn down.  The
    context had no buffer and no object context before the load.  The
    removal reads the channel that the load stored, which is not [NULL],
    and frees it; over the load and the removal, the mappings of the
    buffers are removed in the order they were made and then the one of
    the backing store, and the object contexts that were allocated are
    freed; the context is left torn down.  When the load left the
    context loaded, the load itself released nothing and the buffers the
    context holds are those it mapped. *)
Theorem cde_remove_undoes_load g c e c' ev :
  num_bufs c = 0 -> num_obj_ids c = 0 ->
  env_backing_store e <> 0 ->
  gk20a_cde_load g c e = (0, c', ev) ->
  let '(ret, c'', ev') := gk20a_cde_remove g c' in
  ret = 0 /\ torn_down c'' /\ faults ev' = false
  /\ opened_channels ev = [env_channel e]
  /\ freed_channels (ev ++ ev') = [env_channel e]
  /\ (exists vas,
        mapped_vas ev = env_backing_store e :: vas
        /\ unmapped_vas (ev ++ ev') = vas ++ [env_backing_store e])
  /\ freed_objs (ev ++ ev') = allocated_objs ev
  /\ (slot_loaded c' = true ->
      freed_channels ev = [] /\ unmapped_vas ev = [] /\ freed_objs ev = []
      /\ mapped_vas ev = env_backing_store e :: held_vas c').
Proof.
  intros Hb Ho Hbs Hload.
  pose proof (cde_load_cases g c e) as Hcases. rewrite Hload in Hcases.
  destruct Hcases as [Hok _].
  destruct (Hok eq_refl) as [[E _]|(_ & Hch & Hc & _ & Hv & img & ev1 & _ & Himg & ->)];
    [contradiction|].
  pose proof (cde_remove_faults g c') as Hfault.
  rewrite cde_remove_spec in Hfault |- *. cbn [snd] in Hfault.
  destruct (init_cde_img_builds
              (set_channel c (env_channel e) (pmu_vm g) (env_backing_store e))
              img (env_elems e)) as [Hbuild _].
  rewrite Himg in Hbuild. cbn [snd] in Hbuild.
  pose proof (init_cde_img_balance
                (set_channel c (env_channel e) (pmu_vm g) (env_backing_store e))
                img (env_elems e)) as Hbal.
  rewrite Himg in Hbal.
  destruct Hbal as (Bu & Bf & Bl & _).
  { destruct c; cbn in *; lia. }
  { destruct c; cbn in *; lia. }
  destruct (deinit_cde_img_ledger c') as (D1 & D2 & D3 & D4).
  pose proof (deinit_cde_img_builds c') as Dbuild.
  assert (Hch' : (env_channel e =? 0) = false) by (apply Z.eqb_neq; exact Hch).
  assert (Hbs' : (env_backing_store e =? 0) = false) by (apply Z.eqb_neq; exact Hbs).
  split; [reflexivity|]. split; [apply torn_down_clear_img|].
  split; [rewrite Hfault, Hc; exact Hch'|].
  unfold load_prefix.
  rewrite !opened_channels_app, !freed_channels_app, !mapped_vas_app,
    !unmapped_vas_app, !freed_objs_app, !allocated_objs_app.
  rewrite (build_events_opened _ Hbuild), (build_events_freed _ Hbuild),
    (build_events_freed _ Dbuild), D3, D4.
  cbn. rewrite Hbs', Hch', Hc, Hv, !app_nil_r. cbn.
  split; [reflexivity|]. split; [reflexivity|].
  split.
  { exists (mapped_vas ev1). split; [reflexivity|].
    rewrite <- Bu, <- app_assoc. reflexivity. }
  split; [exact Bf|].
  intros Hl. destruct (Bl Hl) as [Lu Lf].
  rewrite Lu, Lf in *. cbn in Bu, Bf. rewrite <- Bu. auto.
Qed.

(** *** Initialisation of the pool *)

Lemma slot_load_set_ctx_other g app env k c i :
  i <> k -> slot_load g (set_ctx app k c) env i = slot_load g app env i.
Proof. intros Hi. unfold slot_load. rewrite cde_ctx_set_ctx_other by exact Hi. reflexivity. Qed.

(** The loop of [gk20a_init_cde_support] over the slots [k], ...,
    [k + n - 1]: each slot it reaches is replaced by what its load
    leaves, and it stops at the first slot whose load fails. *)
Lemma init_slots_spec g env n :
  forall k app,
    let '(ret, j, app', ev) := init_slots g app env (map Z.of_nat (seq k n)) in
    pool_events ev = []
    /\ initialised app' = initialised app
    /\ cde_ctx_ptr app' = cde_ctx_ptr app
    /\ (forall i, i < Z.of_nat k \/ Z.of_nat (k + n) <= i -> cde_ctx app' i = cde_ctx app i)
    /\ (ret = 0 ->
        forall i, Z.of_nat k <= i < Z.of_nat (k + n) ->
          fst (fst (slot_load g app env i)) = 0
          /\ cde_ctx app' i = snd (fst (slot_load g app env i)))
    /\ (ret <> 0 ->
        Z.of_nat k <= j < Z.of_nat (k + n)
        /\ fst (fst (slot_load g app env j)) = ret
        /\ (forall i, Z.of_nat k <= i < j -> fst (fst (slot_load g app env i)) = 0)
        /\ (forall i, Z.of_nat k <= i <= j ->
              cde_ctx app' i = snd (fst (slot_load g app env i)))
        /\ (forall i, j < i -> cde_ctx app' i = cde_ctx app i)).
Proof.
  induction n as [|n IH]; intros k app.
  - cbn. repeat split; try reflexivity; intros; try lia.
  - cbn [seq map init_slots].
    pose proof (cde_load_quiet g (cde_ctx app (Z.of_nat k)) (env (Z.of_nat k))) as Hq.
    destruct (gk20a_cde_load g (cde_ctx app (Z.of_nat k)) (env (Z.of_nat k)))
      as [[ret1 c1] ev1] eqn:Hload.
    cbn [snd] in Hq.
    assert (Hk : slot_load g app env (Z.of_nat k) = (ret1, c1, ev1)) by exact Hload.
    destruct (Z.eqb_spec ret1 0) as [->|Hne]; cbn [negb].
    + specialize (IH (S k) (set_ctx app (Z.of_nat k) c1)).
      destruct (init_slots g (set_ctx app (Z.of_nat k) c1) env (map Z.of_nat (seq (S k) n)))
        as [[[ret2 j2] app2] ev2].
      destruct IH as (Hp & Hi & Hptr & Hframe & Hok & Hfail).
      split; [rewrite pool_events_app, Hq, Hp; reflexivity|].
      split; [rewrite Hi; destruct app; reflexivity|].
      split; [rewrite Hptr; destruct app; reflexivity|].
      split.
      { intros i Hi'. rewrite Hframe by lia. apply cde_ctx_set_ctx_other. lia. }
      split.
      { intros E i Hi'. destruct (Z.eq_dec i (Z.of_nat k)) as [->|Hik].
        - rewrite Hk. cbn [fst snd]. split; [reflexivity|].
          rewrite Hframe by lia. apply cde_ctx_set_ctx_same.
        - rewrite <- (slot_load_set_ctx_other g app env (Z.of_nat k) c1 i Hik).
          apply Hok; [exact E|lia]. }
      intros E. destruct (Hfail E) as (Hj & Hs & Hbefore & Hupto & Hafter).
      split; [lia|]. split.
      { rewrite <- (slot_load_set_ctx_other g app env (Z.of_nat k) c1 j2) by lia.
        exact Hs. }
      split.
      { intros i Hi'. destruct (Z.eq_dec i (Z.of_nat k)) as [->|Hik].
        - rewrite Hk. reflexivity.
        - rewrite <- (slot_load_set_ctx_other g app env (Z.of_nat k) c1 i Hik).
          apply Hbefore. lia. }
      split.
      { intros i Hi'. destruct (Z.eq_dec i (Z.of_nat k)) as [->|Hik].
        - rewrite Hk. cbn [fst snd]. rewrite Hframe by lia. apply cde_ctx_set_ctx_same.
        - rewrite <- (slot_load_set_ctx_other g app env (Z.of_nat k) c1 i Hik).
          apply Hupto. lia. }
      intros i Hi'. rewrite Hafter by lia. apply cde_ctx_set_ctx_other. lia.
    + split; [exact Hq|].
      split; [destruct app; reflexivity|]. split; [destruct app; reflexivity|].
      split; [intros i Hi'; apply cde_ctx_set_ctx_other; lia|].
      split; [intros E; contradiction|]. intros _.
      split; [lia|]. split; [rewrite Hk; reflexivity|].
      split; [intros i Hi'; lia|]. split.
      * intros i Hi'. assert (i = Z.of_nat k) as -> by lia.
        rewrite Hk. apply cde_ctx_set_ctx_same.
      * intros i Hi'. apply cde_ctx_set_ctx_other. lia.
Qed.

Lemma clear_img_idem c : clear_img (clear_img c) = clear_img c.
Proof. destruct c; reflexivity. Qed.

(** The removal loop tears down the slots it is given and no other. *)
Lemma remove_slots_spec g slots :
  forall app,
    let '(app', ev) := remove_slots g app slots in
    pool_events ev = []
    /\ initialised app' = initialised app
    /\ cde_ctx_ptr app' = cde_ctx_ptr app
    /\ (forall i, ~ In i slots -> cde_ctx app' i = cde_ctx app i)
    /\ (forall i, In i slots -> cde_ctx app' i = clear_img (cde_ctx app i)).
Proof.
  induction slots as [|k rest IH]; intros app.
  - cbn. repeat split; try reflexivity. intros i [].
  - cbn [remove_slots].
    pose proof (cde_remove_quiet g (cde_ctx app k)) as Hq.
    rewrite cde_remove_spec in Hq |- *. cbn [snd] in Hq.
    specialize (IH (set_ctx app k (clear_img (cde_ctx app k)))).
    destruct (remove_slots g (set_ctx app k (clear_img (cde_ctx app k))) rest)
      as [app2 ev2].
    destruct IH as (Hp & Hi & Hptr & Hout & Hin).
    split; [rewrite pool_events_app, Hq, Hp; reflexivity|].
    split; [rewrite Hi; destruct app; reflexivity|].
    split; [rewrite Hptr; destruct app; reflexivity|].
    split.
    + intros i Hi'. cbn [In] in Hi'.
      rewrite Hout by tauto. apply cde_ctx_set_ctx_other. intros ->. tauto.
    + intros i Hi'. destruct (in_dec Z.eq_dec i rest) as [Hr|Hr].
      * rewrite (Hin i Hr). destruct (Z.eq_dec i k) as [->|Hik].
        -- rewrite cde_ctx_set_ctx_same. apply clear_img_idem.
        -- rewrite cde_ctx_set_ctx_other by exact Hik. reflexivity.
      * rewrite (Hout i Hr). destruct Hi' as [<-|Hr']; [|contradiction].
        apply cde_ctx_set_ctx_same.
Qed.

Lemma in_removed_slots i j : In i (rev (map (Z.add 1) (upto j))) <-> 1 <= i <= j.
Proof.
  rewrite <- in_rev, in_map_iff. split.
  - intros (x & <- & Hx). apply upto_spec in Hx. lia.
  - intros Hi. exists (i - 1). split; [lia|]. apply upto_spec. lia.
Qed.

Lemma init_slots_faults g env indices :
  forall app, faults (snd (init_slots g app env indices)) = false.
Proof.
  induction indices as [|i rest IH]; intros app; [reflexivity|].
  cbn [init_slots].
  pose proof (cde_load_faults g (cde_ctx app i) (env i)) as Hl.
  destruct (gk20a_cde_load g (cde_ctx app i) (env i)) as [[ret c] ev]. cbn [snd] in Hl.
  destruct (negb (ret =? 0)); [exact Hl|].
  specialize (IH (set_ctx app i c)).
  destruct (init_slots g (set_ctx app i c) env rest) as [[[ret2 j] app2] ev2].
  cbn [snd] in *. rewrite faults_app, Hl, IH. reflexivity.
Qed.

Lemma ch_clear_img c : ch (clear_img c) = ch c.
Proof. destruct c; reflexivity. Qed.

(** The removal loop faults exactly when one of the slots it is given
    has no channel. *)
Lemma remove_slots_faults g slots :
  forall app,
    faults (snd (remove_slots g app slots))
    = existsb (fun k => ch (cde_ctx app k) =? 0) slots.
Proof.
  induction slots as [|k rest IH]; intros app; [reflexivity|].
  cbn [remove_slots].
  pose proof (cde_remove_faults g (cde_ctx app k)) as Hf.
  rewrite cde_remove_spec in Hf |- *. cbn [snd] in Hf.
  specialize (IH (set_ctx app k (clear_img (cde_ctx app k)))).
  destruct (remove_slots g (set_ctx app k (clear_img (cde_ctx app k))) rest)
    as [app2 ev2].
  cbn [snd] in *. rewrite faults_app, Hf, IH. cbn [existsb]. f_equal.
  apply existsb_eq. intros x. destruct (Z.eq_dec x k) as [->|Hx].
  - rewrite cde_ctx_set_ctx_same, ch_clear_img. reflexivity.
  - rewrite cde_ctx_set_ctx_other by exact Hx. reflexivity.
Qed.

(** X14.  A pool that is not initialised and whose initialisation
    returns 0 is marked initialised with its pointer at slot 0; the lock
    that was taken has been released and no channel [NULL] was read.
    Each slot is left loaded, or torn down (a handler of its parse
    failed), or as it was (its backing store could not be mapped): the
    status 0 of a load does not tell which.  When the backing store is
    mapped for every slot and every element of every image is handled,
    every slot is loaded and the pool invariant holds. *)
Theorem init_cde_support_success g app env app' ev :
  initialised app = false ->
  gk20a_init_cde_support g app env = (0, app', ev) ->
  initialised app' = true /\ cde_ctx_ptr app' = 0
  /\ pool_events ev = [mutex_lock; mutex_unlock]
  /\ mutex_released ev
  /\ faults ev = false
  /\ (forall i, 0 <= i < NUM_CDE_CTX ->
        slot_loaded (cde_ctx app' i) = true
        \/ torn_down (cde_ctx app' i)
        \/ cde_ctx app' i = cde_ctx app i)
  /\ (every_slot_parses g (cde_ctx app) env ->
      all_loaded app' /\ (0 < NUM_CDE_CTX -> pool_invariant app')).
Proof.
  intros Hinit Hrun. unfold gk20a_init_cde_support in Hrun. rewrite Hinit in Hrun.
  pose proof (init_slots_spec g env (Z.to_nat NUM_CDE_CTX) 0 app) as Hspec.
  pose proof (init_slots_faults g env (upto NUM_CDE_CTX) app) as Hnf.
  fold (upto NUM_CDE_CTX) in Hspec.
  destruct (init_slots g app env (upto NUM_CDE_CTX)) as [[[ret j] app1] ev1].
  cbn [snd] in Hnf.
  destruct Hspec as (Hp & _ & _ & _ & Hok & _).
  destruct (Z.eqb_spec ret 0) as [->|Hne]; cbn [negb] in Hrun.
  2:{ destruct (remove_slots g app1 _) as [app2 ev2].
      injection Hrun as E _ _. contradiction. }
  injection Hrun as <- <-.
  assert (Hctx : forall a v p b,
             cde_ctx (set_initialised (set_cde_ctx_ptr (set_app_vm a v) p) b) = cde_ctx a)
    by (intros [] ? ? ?; reflexivity).
  assert (Heach : forall i, 0 <= i < NUM_CDE_CTX ->
             (slot_loaded (cde_ctx app1 i) = true
              \/ torn_down (cde_ctx app1 i)
              \/ cde_ctx app1 i = cde_ctx app i)
             /\ (slot_parses g (cde_ctx app i) (env i) ->
                 slot_loaded (cde_ctx app1 i) = true)).
  { intros i Hi.
    destruct (Hok eq_refl i) as [Hst Hc]; [lia|]. rewrite Hc.
    pose proof (cde_load_cases g (cde_ctx app i) (env i)) as Hcases.
    unfold slot_load in *.
    destruct (gk20a_cde_load g (cde_ctx app i) (env i)) as [[e1 c1] v1].
    cbn [fst snd] in *. destruct Hcases as [Hzero _].
    destruct (Hzero Hst) as [[E ->]|(Hbs & _ & _ & _ & _ & img & ev' & Hfw & Himg & _)].
    - split; [auto|]. intros [Hb _]. contradiction.
    - destruct (init_cde_img_zero _ _ _ _ _ Himg) as (_ & [(Ha & _ & Hl)|(Ha & Ht)]).
      + auto.
      + split; [auto|]. intros [_ Hp']. exfalso. exact (Ha (Hp' img Hfw)). }
  split; [destruct app1; reflexivity|]. split; [destruct app1; reflexivity|].
  match goal with
  | |- pool_events ?t = _ /\ _ =>
      assert (Hpe : pool_events t = [mutex_lock; mutex_unlock])
  end.
  { change (pool_events (([mutex_init; mutex_lock] ++ ev1) ++ [mutex_unlock])
            = [mutex_lock; mutex_unlock]).
    rewrite !pool_events_app, Hp. reflexivity. }
  split; [exact Hpe|].
  split; [unfold mutex_released; rewrite mutex_after_pool_events, Hpe; reflexivity|].
  split.
  { change (faults (([mutex_init; mutex_lock] ++ ev1) ++ [mutex_unlock]) = false).
    rewrite !faults_app, Hnf. reflexivity. }
  rewrite Hctx. split; [intros i Hi; apply (Heach i Hi)|].
  intros Hparse.
  assert (Hall : forall i, 0 <= i < NUM_CDE_CTX -> slot_loaded (cde_ctx app1 i) = true).
  { intros i Hi. apply (Heach i Hi), Hparse, Hi. }
  split.
  - intros i Hi. rewrite Hctx. apply Hall, Hi.
  - intros Hn _. rewrite Hctx.
    replace (cde_ctx_ptr _) with 0 by (destruct app1; reflexivity).
    split; [lia|]. apply Hall. lia.
Qed.

(** X15.  When the initialisation of the pool fails, it returns the
    error of the first slot [j] whose load failed, the slots before it
    having returned 0, and removes the slots [j] down to 1.  A removal
    reads the channel of its slot: the initialisation faults exactly
    when one of these slots holds no channel after its load, which is
    the case of slot [j] whenever its load failed before it stored the
    channel, in a pool whose slots held none.  When no removal faults,
    the pool is not marked initialised, the slots 1 to [j] are torn
    down, slot 0 is left as its load left it, the slots after [j] are
    untouched, and the lock that was taken is not released. *)
Theorem init_cde_support_failure g app env ret app' ev :
  initialised app = false ->
  gk20a_init_cde_support g app env = (ret, app', ev) ->
  ret <> 0 ->
  exists j,
    0 <= j < NUM_CDE_CTX
    /\ fst (fst (slot_load g app env j)) = ret
    /\ (forall i, 0 <= i < j -> fst (fst (slot_load g app env i)) = 0)
    /\ (faults ev = true <->
        exists i, 1 <= i <= j /\ ch (snd (fst (slot_load g app env i))) = 0)
    /\ (faults ev = false ->
        initialised app' = false
        /\ pool_events ev = [mutex_lock]
        /\ mutex_after ev false = Some true
        /\ (forall i, 1 <= i <= j -> torn_down (cde_ctx app' i))
        /\ cde_ctx app' 0 = snd (fst (slot_load g app env 0))
        /\ (forall i, j < i -> cde_ctx app' i = cde_ctx app i)).
Proof.
  intros Hinit Hrun Hret. unfold gk20a_init_cde_support in Hrun. rewrite Hinit in Hrun.
  pose proof (init_slots_spec g env (Z.to_nat NUM_CDE_CTX) 0 app) as Hspec.
  pose proof (init_slots_faults g env (upto NUM_CDE_CTX) app) as Hnf.
  fold (upto NUM_CDE_CTX) in Hspec.
  destruct (init_slots g app env (upto NUM_CDE_CTX)) as [[[ret1 j] app1] ev1].
  cbn [snd] in Hnf.
  destruct Hspec as (Hp & Hi1 & _ & _ & _ & Hfail).
  destruct (Z.eqb_spec ret1 0) as [->|Hne]; cbn [negb] in Hrun.
  { injection Hrun as E _ _. exfalso. apply Hret. symmetry. exact E. }
  pose proof (remove_slots_spec g (rev (map (Z.add 1) (upto j))) app1) as Hrem.
  pose proof (remove_slots_faults g (rev (map (Z.add 1) (upto j))) app1) as Hrf.
  destruct (remove_slots g app1 (rev (map (Z.add 1) (upto j)))) as [app2 ev2].
  cbn [snd] in Hrf.
  injection Hrun as <- <- <-.
  destruct Hrem as (Hp2 & Hi2 & _ & Hout & Hin).
  destruct (Hfail Hne) as (Hj & Hs & Hbefore & Hupto & Hafter).
  exists j. change (Z.of_nat 0) with 0 in *.
  split; [lia|]. split; [exact Hs|]. split; [exact Hbefore|].
  split.
  { change (faults (([mutex_init; mutex_lock] ++ ev1) ++ ev2) = true <->
            (exists i, 1 <= i <= j /\ ch (snd (fst (slot_load g app env i))) = 0)).
    rewrite !faults_app, Hnf, Hrf. cbn [faults existsb is_null_read orb].
    rewrite existsb_exists. split.
    - intros (i & Hi & Hc). apply in_removed_slots in Hi. apply Z.eqb_eq in Hc.
      exists i. split; [exact Hi|]. rewrite <- Hupto by lia. exact Hc.
    - intros (i & Hi & Hc). exists i. split; [apply in_removed_slots; exact Hi|].
      apply Z.eqb_eq. rewrite Hupto by lia. exact Hc. }
  intros _.
  split; [congruence|].
  match goal with
  | |- pool_events ?t = _ /\ _ => assert (Hpe : pool_events t = [mutex_lock])
  end.
  { change (pool_events (([mutex_init; mutex_lock] ++ ev1) ++ ev2) = [mutex_lock]).
    rewrite !pool_events_app, Hp, Hp2. reflexivity. }
  split; [exact Hpe|].
  split; [rewrite mutex_after_pool_events, Hpe; reflexivity|].
  split.
  { intros i Hi. rewrite (Hin i) by (apply in_removed_slots; lia).
    apply torn_down_clear_img. }
  split.
  { rewrite Hout by (rewrite in_removed_slots; lia). apply Hupto. lia. }
  intros i Hi. rewrite Hout by (rewrite in_removed_slots; lia). apply Hafter, Hi.
Qed.

(** *** Reload and removal of the pool *)

Lemma reload_slots_each g env n :
  forall k app err0 i,
    Z.of_nat k <= i < Z.of_nat (k + n) ->
    cde_ctx (snd (fst (reload_slots g app env (map Z.of_nat (seq k n)) err0))) i
    = snd (fst (gk20a_cde_load g (snd (fst (gk20a_cde_remove g (cde_ctx app i)))) (env i))).
Proof.
  induction n as [|n IH]; intros k app err0 i Hi; [lia|].
  destruct (Z.eq_dec i (Z.of_nat k)) as [->|Hik].
  - destruct (reload_slots_spec g env (S n) k app err0) as (_ & _ & _ & _ & Hfirst).
    apply Hfirst. discriminate.
  - cbn [seq map reload_slots].
    destruct (gk20a_cde_remove g (cde_ctx app (Z.of_nat k))) as [[r0 c0] ev0].
    destruct (gk20a_cde_load g c0 (env (Z.of_nat k))) as [[err1 c1] ev1].
    specialize (IH (S k) (set_ctx app (Z.of_nat k) c1) err1 i ltac:(lia)).
    destruct (reload_slots g (set_ctx app (Z.of_nat k) c1) env
                (map Z.of_nat (seq (S k) n)) err1) as [[err2 app2] ev2].
    cbn [fst snd] in *. rewrite IH, cde_ctx_set_ctx_other by exact Hik. reflexivity.
Qed.

Lemma last_status_zero (l : list Z) : (forall x, In x l -> x = 0) -> last_status l = 0.
Proof.
  unfold last_status. induction l as [|x l IH]; intros Hl; [reflexivity|].
  rewrite default_last_cons. rewrite (Hl x (or_introl eq_refl)).
  apply IH. intros y Hy. apply Hl. right. exact Hy.
Qed.

Lemma reload_slots_faults g env n :
  forall k app err0,
    (forall i, Z.of_nat k <= i < Z.of_nat (k + n) -> ch (cde_ctx app i) <> 0) ->
    faults (snd (reload_slots g app env (map Z.of_nat (seq k n)) err0)) = false.
Proof.
  induction n as [|n IH]; intros k app err0 Hch; [reflexivity|].
  cbn [seq map reload_slots].
  pose proof (cde_remove_faults g (cde_ctx app (Z.of_nat k))) as Hr.
  destruct (gk20a_cde_remove g (cde_ctx app (Z.of_nat k))) as [[r0 c0] ev0].
  pose proof (cde_load_faults g c0 (env (Z.of_nat k))) as Hl.
  destruct (gk20a_cde_load g c0 (env (Z.of_nat k))) as [[err1 c1] ev1].
  specialize (IH (S k) (set_ctx app (Z.of_nat k) c1) err1).
  destruct (reload_slots g (set_ctx app (Z.of_nat k) c1) env
              (map Z.of_nat (seq (S k) n)) err1) as [[err2 app2] ev2].
  cbn [fst snd] in *. rewrite !faults_app, Hr, Hl, IH.
  - rewrite !orb_false_r. apply Z.eqb_neq, Hch. lia.
  - intros i Hi. rewrite cde_ctx_set_ctx_other by lia. apply Hch. lia.
Qed.

(** X16.  An initialised pool is reloaded.  Every slot holds a channel;
    every slot is torn down and loaded again, the load returning 0, its
    backing store being mapped and every element of its image being
    handled.  Then the reload returns 0, every slot is loaded, the
    pointer is at slot 0, the pool invariant holds, the lock was taken
    once and released, and no channel [NULL] was read. *)
Theorem cde_reload_reloads_every_slot g app env :
  initialised app = true ->
  (forall i, 0 <= i < NUM_CDE_CTX -> ch (cde_ctx app i) <> 0) ->
  every_slot_parses g (fun i => clear_img (cde_ctx app i)) env ->
  (forall i, 0 <= i < NUM_CDE_CTX -> slot_status g app env i = 0) ->
  let '(err, app', ev) := gk20a_cde_reload g app env in
  err = 0 /\ initialised app' = true /\ cde_ctx_ptr app' = 0
  /\ all_loaded app'
  /\ (0 < NUM_CDE_CTX -> pool_invariant app')
  /\ mutex_released ev
  /\ faults ev = false.
Proof.
  intros Hinit Hch Hparse Hst.
  destruct (reload_returns_last_status g app env Hinit) as [Hret Hini].
  pose proof (cde_reload_pool_events g app env Hinit) as Hpe.
  assert (Hslots : forall i, 0 <= i < NUM_CDE_CTX ->
             slot_loaded (cde_ctx (snd (fst (gk20a_cde_reload g app env))) i) = true).
  { intros i Hi. unfold gk20a_cde_reload. rewrite Hinit. cbn [negb].
    pose proof (reload_slots_each g env (Z.to_nat NUM_CDE_CTX) 0 app 0 i ltac:(lia)) as He.
    fold (upto NUM_CDE_CTX) in He.
    destruct (reload_slots g app env (upto NUM_CDE_CTX) 0) as [[err1 app1] ev1].
    cbn [fst snd] in *.
    replace (cde_ctx (set_cde_ctx_ptr app1 0)) with (cde_ctx app1)
      by (destruct app1; reflexivity).
    rewrite He. specialize (Hst i Hi). unfold slot_status in Hst.
    destruct (Hparse i Hi) as [Hbs Hall].
    rewrite cde_remove_spec in Hst |- *. cbn [fst snd] in Hst |- *.
    pose proof (cde_load_cases g (clear_img (cde_ctx app i)) (env i)) as Hcases.
    destruct (gk20a_cde_load g _ (env i)) as [[e1 c1] v1]. cbn [fst snd] in *.
    destruct Hcases as [Hzero _].
    destruct (Hzero Hst) as [[E _]|(_ & _ & _ & _ & _ & img & ev' & Hfw & Himg & _)];
      [contradiction|].
    destruct (init_cde_img_zero _ _ _ _ _ Himg) as (_ & [(_ & _ & Hl)|(Ha & _)]);
      [exact Hl|].
    exfalso. exact (Ha (Hall img Hfw)). }
  assert (Hnf : faults (snd (gk20a_cde_reload g app env)) = false).
  { unfold gk20a_cde_reload. rewrite Hinit. cbn [negb].
    pose proof (reload_slots_faults g env (Z.to_nat NUM_CDE_CTX) 0 app 0) as Hf.
    fold (upto NUM_CDE_CTX) in Hf.
    destruct (reload_slots g app env (upto NUM_CDE_CTX) 0) as [[err1 app1] ev1].
    cbn [snd] in *. rewrite !faults_app, Hf; [reflexivity|].
    intros i Hi. apply Hch. lia. }
  unfold reload_returns in Hret.
  destruct (gk20a_cde_reload g app env) as [[err app'] ev]. cbn [fst snd] in *.
  destruct Hret as [Hptr Herr].
  split.
  { rewrite Herr. apply last_status_zero. intros x Hx. apply in_map_iff in Hx.
    destruct Hx as (i & <- & Hi). apply upto_spec in Hi. apply Hst, Hi. }
  split; [exact Hini|]. split; [exact Hptr|]. split; [exact Hslots|].
  split; [|split; [|exact Hnf]].
  - intros Hn _. rewrite Hptr. split; [lia|]. apply Hslots. lia.
  - unfold mutex_released. rewrite mutex_after_pool_events, Hpe. reflexivity.
Qed.



End Pool.

(** The example image, loaded into an empty context and removed. *)
Lemma cde_remove_undoes_load_witness :
  exists c' ev,
    gk20a_cde_load (hdr := header_with_slots 1) example_hw null_ctx good_load_env
    = (0, c', ev)
    /\ faults (snd (gk20a_cde_remove example_hw c')) = false
    /\ freed_channels (ev ++ snd (gk20a_cde_remove example_hw c'))
       = [env_channel good_load_env]
    /\ freed_objs (ev ++ snd (gk20a_cde_remove example_hw c')) = allocated_objs ev.
Proof.
  destruct (gk20a_cde_load (hdr := header_with_slots 1) example_hw null_ctx good_load_env)
    as [[err c'] ev] eqn:Hload.
  assert (Herr : err = 0).
  { change err with (fst (fst (err, c', ev))). rewrite <- Hload. vm_compute. reflexivity. }
  subst err. exists c', ev. split; [reflexivity|].
  pose proof (cde_remove_undoes_load (hdr := header_with_slots 1) example_hw null_ctx
                good_load_env c' ev eq_refl eq_refl
                ltac:(vm_compute; discriminate) Hload) as H.
  destruct (gk20a_cde_remove example_hw c') as [[ret c''] ev'].
  destruct H as (_ & _ & Hnf & _ & Hf & _ & Ho & _). cbn [snd]. auto.
Defined.

(** A load from the broken image returns 0 and leaves the context torn
    down; the mapping of the backing store is still there, and the
    reference on the address space is not returned. *)
Example cde_load_broken_image :
  let '(err, c', ev) :=
    gk20a_cde_load (hdr := header_with_slots 1) example_hw null_ctx broken_load_env in
  err = 0 /\ slot_loaded c' = false /\ ch c' = 5
  /\ mapped_vas ev = [env_backing_store broken_load_env; gmmu_map_va good_buf_env]
  /\ unmapped_vas ev = [gmmu_map_va good_buf_env]
  /\ vm_puts ev = [].
Proof. vm_compute. repeat split. Qed.

(** Two slots, both loading from the example image. *)
Lemma init_cde_support_success_witness :
  exists app' ev,
    gk20a_init_cde_support (hdr := header_with_slots 2) example_hw null_app
      (fun _ => good_load_env) = (0, app', ev)
    /\ every_slot_parses (hdr := header_with_slots 2) example_hw (cde_ctx null_app)
         (fun _ => good_load_env)
    /\ all_loaded (hdr := header_with_slots 2) app'
    /\ mutex_released ev.
Proof.
  destruct (gk20a_init_cde_support (hdr := header_with_slots 2) example_hw null_app
              (fun _ => good_load_env)) as [[ret app'] ev] eqn:Hrun.
  assert (Hret : ret = 0).
  { change ret with (fst (fst (ret, app', ev))). rewrite <- Hrun. vm_compute. reflexivity. }
  subst ret. exists app', ev. split; [reflexivity|].
  assert (Hparse : every_slot_parses (hdr := header_with_slots 2) example_hw
                     (cde_ctx null_app) (fun _ => good_load_env)).
  { intros i _. split; [vm_compute; discriminate|].
    intros img Himg. injection Himg as <-. vm_compute. reflexivity. }
  destruct (init_cde_support_success (hdr := header_with_slots 2) example_hw
              null_app (fun _ => good_load_env) app' ev eq_refl Hrun)
    as (_ & _ & _ & Hm & _ & _ & Hall).
  destruct (Hall Hparse) as [Hl _]. auto.
Defined.

(** A pool of one slot whose image is the broken one: the
    initialisation returns 0 and marks the pool initialised, with its
    only slot torn down. *)
Example init_cde_support_broken_image :
  let '(ret, app', ev) :=
    gk20a_init_cde_support (hdr := header_with_slots 1) example_hw null_app
      (fun _ => broken_load_env) in
  ret = 0 /\ initialised app' = true /\ slot_loaded (cde_ctx app' 0) = false.
Proof. vm_compute. repeat split. Qed.

(** Two slots; slot 0 loads and the image of slot 1 declares no command
    list: its load fails with [-EINVAL] after it stored the channel, no
    removal faults, slot 1 is torn down, slot 0 stays loaded, and the
    lock stays taken. *)
Lemma init_cde_support_failure_witness :
  exists app' ev,
    gk20a_init_cde_support (hdr := header_with_slots 2) example_hw null_app
      second_slot_lacks_commands = (- EINVAL, app', ev)
    /\ faults ev = false
    /\ initialised app' = false
    /\ mutex_after ev false = Some true
    /\ slot_loaded (cde_ctx app' 0) = true.
Proof.
  destruct (gk20a_init_cde_support (hdr := header_with_slots 2) example_hw null_app
              second_slot_lacks_commands) as [[ret app'] ev] eqn:Hrun.
  assert (Hret : ret = - EINVAL).
  { change ret with (fst (fst (ret, app', ev))). rewrite <- Hrun. vm_compute. reflexivity. }
  assert (Hnf : faults ev = false).
  { change ev with (snd (ret, app', ev)). rewrite <- Hrun. vm_compute. reflexivity. }
  subst ret. exists app', ev. split; [reflexivity|]. split; [exact Hnf|].
  destruct (init_cde_support_failure (hdr := header_with_slots 2) example_hw
              null_app second_slot_lacks_commands (- EINVAL) app' ev eq_refl Hrun
              ltac:(vm_compute; discriminate))
    as (j & _ & _ & _ & _ & Hrest).
  destruct (Hrest Hnf) as (Hi & _ & Hm & _ & H0 & _).
  split; [exact Hi|]. split; [exact Hm|].
  rewrite H0. vm_compute. reflexivity.
Defined.

(** Two slots without a channel; slot 0 loads and the firmware cannot
    be fetched for slot 1: its load fails before a channel is stored,
    and the removal of slot 1 reads the channel [NULL]. *)
Example init_cde_support_failure_faults :
  faults (snd (gk20a_init_cde_support (hdr := header_with_slots 2) example_hw null_app
                 second_slot_fails)) = true.
Proof. vm_compute. reflexivity. Qed.

(** A pool of two loaded slots is reloaded from the example image. *)
Lemma cde_reload_reloads_every_slot_witness :
  let '(err, app', ev) :=
    gk20a_cde_reload (hdr := header_with_slots 2) example_hw (loaded_app 2)
      (fun _ => good_load_env) in
  err = 0 /\ all_loaded (hdr := header_with_slots 2) app' /\ mutex_released ev
  /\ faults ev = false.
Proof.
  pose proof (cde_reload_reloads_every_slot (hdr := header_with_slots 2) example_hw
                (loaded_app 2) (fun _ => good_load_env)) as H.
  destruct (gk20a_cde_reload (hdr := header_with_slots 2) example_hw (loaded_app 2)
              (fun _ => good_load_env)) as [[err app'] ev].
  destruct H as (He & _ & _ & Hall & _ & Hm & Hnf).
  - vm_compute. reflexivity.
  - intros i Hi.
    assert (i = 0 \/ i = 1) as [-> | ->]
      by (change (NUM_CDE_CTX (cde_gk20a_h := header_with_slots 2)) with 2 in Hi; lia);
      vm_compute; discriminate.
  - intros i Hi. split; [vm_compute; discriminate|].
    intros img Himg. injection Himg as <-.
    assert (i = 0 \/ i = 1) as [-> | ->]
      by (change (NUM_CDE_CTX (cde_gk20a_h := header_with_slots 2)) with 2 in Hi; lia);
      vm_compute; reflexivity.
  - intros i Hi.
    assert (i = 0 \/ i = 1) as [-> | ->]
      by (change (NUM_CDE_CTX (cde_gk20a_h := header_with_slots 2)) with 2 in Hi; lia);
      vm_compute; reflexivity.
  - auto.
Defined.

(** ** Per-conversion patching, continued *)

Lemma replace_data_frame m target type shift mask value q :
  q <> target -> stored_width type = 32 \/ q <> target + 1 ->
  snd (gk20a_replace_data m target type shift mask value) q = m q.
Proof.
  intros Hq Hw. unfold gk20a_replace_data.
  destruct type; cbn [read_target stored_width snd] in *.
  - apply store_u32_other, Hq.
  - destruct Hw as [E|Hq']; [discriminate E|]. apply store_u64_other; assumption.
  - destruct Hw as [E|Hq']; [discriminate E|]. apply store_u64_other; assumption.
  - reflexivity.
Qed.

Lemma set_mem_set_mem c m1 m2 : set_mem (set_mem c m1) m2 = set_mem c m2.
Proof. destruct c; reflexivity. Qed.

Lemma set_mem_mem c : set_mem c (mem c) = c.
Proof. destruct c; reflexivity. Qed.

Section Patch.

Context {hdr : cde_gk20a_h}.

Lemma patch_params_from_frame g src_iova indices :
  forall c err,
    let r := patch_params_from g c src_iova indices err in
    snd r = set_mem c (mem (snd r))
    /\ (forall k, same_desc (mem c k) (mem (snd r) k))
    /\ (forall k q,
          (forall i, In i indices -> param_target_buf (params c i) = k ->
             q <> param_target_byte_offset (params c i) / 4
             /\ (stored_width (param_type_of (params c i)) = 32
                 \/ q <> param_target_byte_offset (params c i) / 4 + 1)) ->
          data (mem (snd r) k) q = data (mem c k) q).
Proof.
  induction indices as [|i rest IH]; intros c err; cbv zeta.
  - cbn. split; [symmetry; apply set_mem_mem|]. split; [intros; apply same_desc_refl|].
    reflexivity.
  - cbn [patch_params_from].
    assert (Hskip : forall err',
               let r := patch_params_from g c src_iova rest err' in
               snd r = set_mem c (mem (snd r))
               /\ (forall k, same_desc (mem c k) (mem (snd r) k))
               /\ (forall k q,
                     (forall j, In j (i :: rest) -> param_target_buf (params c j) = k ->
                        q <> param_target_byte_offset (params c j) / 4
                        /\ (stored_width (param_type_of (params c j)) = 32
                            \/ q <> param_target_byte_offset (params c j) / 4 + 1)) ->
                     data (mem (snd r) k) q = data (mem c k) q)).
    { intros err'. destruct (IH c err') as (H1 & H2 & H3).
      split; [exact H1|]. split; [exact H2|].
      intros k q Hq. apply H3. intros j Hj. apply Hq. right. exact Hj. }
    destruct (patch_value g c src_iova (params c i) err) as [[new_data err1]|];
      [|apply Hskip].
    pose proof (replace_data_frame
                  (data (mem c (param_target_buf (params c i))))
                  (param_target_byte_offset (params c i) / 4)
                  (param_type_of (params c i)) (param_shift (params c i))
                  (param_mask (params c i))
                  (u64 (new_data + param_data_offset (params c i)))) as Hframe.
    destruct (gk20a_replace_data _ _ _ _ _ _) as [err2 d]. cbn [snd] in Hframe.
    set (tb := param_target_buf (params c i)) in *.
    set (c1 := set_mem c (aset (mem c) tb (set_data (mem c tb) d))).
    assert (Hdesc : forall k, same_desc (mem c k) (mem c1 k)).
    { intros k. unfold c1. rewrite mem_set_mem. unfold aset.
      destruct (k =? tb) eqn:E; [|apply same_desc_refl].
      apply Z.eqb_eq in E. subst k. destruct (mem c tb). repeat split. }
    assert (Hdata : forall k q,
               (param_target_buf (params c i) = k ->
                q <> param_target_byte_offset (params c i) / 4
                /\ (stored_width (param_type_of (params c i)) = 32
                    \/ q <> param_target_byte_offset (params c i) / 4 + 1)) ->
               data (mem c1 k) q = data (mem c k) q).
    { intros k q Hq. unfold c1. rewrite mem_set_mem. unfold aset.
      destruct (k =? tb) eqn:E; [|reflexivity].
      apply Z.eqb_eq in E. subst k. destruct (Hq eq_refl) as [Hq1 Hq2].
      replace (data (set_data (mem c tb) d)) with d by (destruct (mem c tb); reflexivity).
      apply Hframe; assumption. }
    destruct (negb (err2 =? 0)).
    + cbn [snd]. split; [unfold c1; rewrite mem_set_mem; reflexivity|].
      split; [exact Hdesc|].
      intros k q Hq. apply Hdata. intros Hk. apply Hq; [left; reflexivity|exact Hk].
    + destruct (IH c1 err2) as (H1 & H2 & H3).
      split; [rewrite H1 at 1; unfold c1; apply set_mem_set_mem|].
      split; [intros k; eapply same_desc_trans; [apply Hdesc|apply H2]|].
      intros k q Hq. rewrite H3.
      * apply Hdata. intros Hk. apply Hq; [left; reflexivity|exact Hk].
      * intros j Hj. unfold c1. rewrite params_set_mem. apply Hq. right. exact Hj.
Qed.


(** *** The arguments of a conversion *)

Lemma read_user_params_frame ps :
  forall values j,
    (forall p, In p ps -> user_slot p <> j) ->
    snd (read_user_params values ps) j = values j.
Proof.
  induction ps as [|p rest IH]; intros values j Hj; [reflexivity|].
  cbn [read_user_params]. fold (user_slot p).
  destruct ((user_slot p <? 0) || (user_slot p >=? MAX_CDE_USER_PARAMS)); [reflexivity|].
  rewrite IH by (intros p' Hp'; apply Hj; right; exact Hp').
  apply aset_other. intros E. apply (Hj p); [left; reflexivity|]. symmetry. exact E.
Qed.

Lemma read_user_params_accepts ps :
  forall values,
    fst (read_user_params values ps) = true <-> Forall in_user_range ps.
Proof.
  induction ps as [|p rest IH]; intros values.
  - cbn. split; [constructor|reflexivity].
  - cbn [read_user_params]. fold (user_slot p).
    destruct (Z.ltb_spec (user_slot p) 0) as [Hlo|Hlo]; cbn [orb].
    { split; [discriminate|]. intros H. inversion H as [|? ? [Hr _] _]. lia. }
    destruct (Z.geb_spec (user_slot p) MAX_CDE_USER_PARAMS) as [Hhi|Hhi].
    { split; [discriminate|]. intros H. inversion H as [|? ? [_ Hr] _]. lia. }
    rewrite IH. split.
    + intros H. constructor; [split; lia|exact H].
    + intros H. inversion H. assumption.
Qed.

Lemma read_user_params_values ps :
  forall values,
    fst (read_user_params values ps) = true ->
    List.NoDup (map user_slot ps) ->
    forall p, In p ps ->
      snd (read_user_params values ps) (user_slot p) = to_user_param_value (user_value p).
Proof.
  induction ps as [|p rest IH]; intros values Hacc Hnd q Hq.
  - destruct Hq.
  - cbn [read_user_params] in *. fold (user_slot p) in *.
    destruct ((user_slot p <? 0) || (user_slot p >=? MAX_CDE_USER_PARAMS));
      [discriminate Hacc|].
    cbn [map] in Hnd. inversion Hnd as [|? ? Hnotin Hnd']. subst.
    destruct (in_dec Z.eq_dec (user_slot q) (map user_slot rest)) as [Hin|Hin].
    + destruct Hq as [->|Hq]; [contradiction|]. apply IH; assumption.
    + destruct Hq as [->|Hq].
      * rewrite read_user_params_frame.
        -- apply aset_same.
        -- intros p' Hp' E. apply Hin. rewrite <- E. apply in_map. exact Hp'.
      * exfalso. apply Hin. apply in_map. exact Hq.
Qed.

(** X19.  The loop that reads the arguments of a conversion accepts them
    exactly when every id lies in the user range.  It writes no slot of
    the user table but those the arguments name; when it accepts
    arguments with distinct ids, each slot named holds the value given
    for it, cut to the width of an element of the table: the 64-bit
    value modulo 2 to the power [user_param_value_bits]. *)
Theorem read_user_params_accepts_iff values ps :
  let '(ok, values') := read_user_params values ps in
  (ok = true <-> Forall in_user_range ps)
  /\ (forall j, (forall p, In p ps -> user_slot p <> j) -> values' j = values j)
  /\ (ok = true -> List.NoDup (map user_slot ps) ->
      forall p, In p ps ->
        values' (user_slot p) = user_value p mod 2 ^ user_param_value_bits).
Proof.
  pose proof (read_user_params_frame ps values) as Hframe.
  pose proof (read_user_params_accepts ps values) as Hok.
  pose proof (read_user_params_values ps values) as Hval.
  destruct (read_user_params values ps) as [ok values']. cbn [fst snd] in *.
  auto.
Qed.

Lemma s32_small x : 0 <= x < 2 ^ 31 -> s32 x = x.
Proof.
  intros Hx. unfold s32. rewrite Z.mod_small by lia.
  destruct (Z.ltb_spec x (2 ^ 31)); lia.
Qed.

(** X20.  The parameters that [gk20a_buffer_convert_gpu_to_cde] passes
    to the conversion have the ids 1024 to 1040.  With at most 1024
    reserved ids, the conversion accepts them exactly when the user range
    reaches id 1040; each value is then stored in the slot of its id, cut
    to the width of an element of the table, and so unchanged when it is
    below 2 to the power [user_param_value_bits]. *)
Theorem launch_params_accepted geo block_height_log2 shader_parameter values :
  0 <= NUM_RESERVED_PARAMS <= 1024 ->
  let ps := launch_params geo block_height_log2 shader_parameter in
  (fst (read_user_params values ps) = true
   <-> 1040 - NUM_RESERVED_PARAMS < MAX_CDE_USER_PARAMS)
  /\ (1040 - NUM_RESERVED_PARAMS < MAX_CDE_USER_PARAMS ->
      forall p, In p ps ->
        let stored := snd (read_user_params values ps) (user_id p - NUM_RESERVED_PARAMS) in
        stored = user_value p mod 2 ^ user_param_value_bits
        /\ (user_value p < 2 ^ user_param_value_bits -> stored = user_value p)).
Proof.
  intros Hres ps.
  assert (Hids : map user_id ps
                 = [1030; 1031; 1032; 1033; 1034; 1035; 1036; 1037; 1038; 1039; 1040;
                    1024; 1025; 1026; 1027; 1028; 1029]) by reflexivity.
  assert (Hslot : forall p, In p ps ->
                    1024 <= user_id p <= 1040
                    /\ user_slot p = user_id p - NUM_RESERVED_PARAMS).
  { intros p Hp. apply (in_map user_id) in Hp. rewrite Hids in Hp.
    assert (1024 <= user_id p <= 1040) as Hr by (cbn in Hp; lia).
    split; [exact Hr|]. unfold user_slot. apply s32_small. lia. }
  pose proof (read_user_params_accepts ps values) as Hacc.
  pose proof (read_user_params_values ps values) as Hval.
  assert (Hnd : List.NoDup (map user_slot ps)).
  { replace (map user_slot ps) with (map (fun id => id - NUM_RESERVED_PARAMS) (map user_id ps)).
    - rewrite Hids. cbn [map].
      repeat (constructor; [cbn [In]; lia|]). constructor.
    - rewrite map_map. apply map_ext_in. intros p Hp. symmetry. apply Hslot, Hp. }
  split.
  - rewrite Hacc. split.
    + intros Hall. rewrite List.Forall_forall in Hall.
      assert (Hlast : In (WRITE_PATCH PATCH_VPC_CURRENT_GROUP_SIZE_Z_ID 1) ps)
        by (cbn; tauto).
      destruct (Hall _ Hlast) as [_ Hhi].
      rewrite (proj2 (Hslot _ Hlast)) in Hhi. exact Hhi.
    + intros Hmax. apply List.Forall_forall. intros p Hp.
      destruct (Hslot p Hp) as [Hr Hs]. unfold in_user_range. rewrite Hs. lia.
  - intros Hmax p Hp. cbv zeta. rewrite <- (proj2 (Hslot p Hp)).
    assert (Hst : snd (read_user_params values ps) (user_slot p)
                  = user_value p mod 2 ^ user_param_value_bits).
    { apply Hval; [|exact Hnd|exact Hp].
      apply Hacc. apply List.Forall_forall. intros p' Hp'.
      destruct (Hslot p' Hp') as [Hr Hs]. unfold in_user_range. rewrite Hs. lia. }
    split; [exact Hst|]. intros Hsmall. rewrite Hst. apply Z.mod_small.
    split; [|exact Hsmall].
    assert (Hpos : Forall (fun p => 0 <= user_value p) ps).
    { unfold ps, launch_params, WRITE_PATCH.
      repeat (constructor; [cbn [user_value]; unfold u64; apply Z.mod_pos_bound; lia|]).
      constructor. }
    rewrite List.Forall_forall in Hpos. apply Hpos, Hp.
Qed.

End Patch.

(** With 1024 reserved ids and 32 user slots, the parameters of a launch
    are accepted. *)
Lemma launch_params_accepted_witness :
  let ps := launch_params (compute_geometry (hdr := header_with_slots 1) 2 128 64) 0 0 in
  fst (read_user_params (hdr := header_with_slots 1) (fun _ => 0) ps) = true
  /\ snd (read_user_params (hdr := header_with_slots 1) (fun _ => 0) ps)
       (PATCH_USER_CONST_XTILES_ID - 1024) = 16.
Proof.
  cbv zeta.
  destruct (launch_params_accepted (hdr := header_with_slots 1)
              (compute_geometry (hdr := header_with_slots 1) 2 128 64) 0 0 (fun _ => 0))
    as [Hacc Hval].
  - cbn. lia.
  - split.
    + apply Hacc. cbn. lia.
    + destruct (Hval ltac:(cbn; lia) (WRITE_PATCH PATCH_USER_CONST_XTILES_ID 16)
                  (or_introl eq_refl)) as [_ Hsame].
      apply Hsame. vm_compute. reflexivity.
Defined.

(** A value that does not fit an element of the table.  For a surface
    [2^32 - 16] wide the width is negative as an [int] and the number of
    tiles is [-2]; the parameter carries it as [2^64 - 2], and the slot
    of the table holds its low 32 bits. *)
Example launch_params_value_is_cut :
  let ps := launch_params (compute_geometry (hdr := header_with_slots 1) 2 (2 ^ 32 - 16) 64)
              0 0 in
  In (WRITE_PATCH PATCH_USER_CONST_XTILES_ID (-2)) ps
  /\ user_value (WRITE_PATCH PATCH_USER_CONST_XTILES_ID (-2)) = 2 ^ 64 - 2
  /\ snd (read_user_params (hdr := header_with_slots 1) (fun _ => 0) ps)
        (PATCH_USER_CONST_XTILES_ID - 1024) = 2 ^ 32 - 2.
Proof.
  cbv zeta. split; [left; vm_compute; reflexivity|].
  split; vm_compute; reflexivity.
Qed.

(** *** The source address that cannot be looked up *)

Lemma upto_split n i :
  0 <= i < n ->
  exists l2, upto n = upto i ++ i :: l2 /\ forall j, In j l2 -> i < j < n.
Proof.
  intros Hi. unfold upto.
  replace (Z.to_nat n) with (Z.to_nat i + S (Z.to_nat (n - i - 1)))%nat by lia.
  rewrite seq_app, map_app. cbn [seq map Nat.add].
  exists (map Z.of_nat (seq (S (Z.to_nat i)) (Z.to_nat (n - i - 1)))).
  split.
  - f_equal. f_equal. lia.
  - intros j Hj. apply in_map_iff in Hj. destruct Hj as (k & <- & Hk).
    apply in_seq in Hk. lia.
Qed.

Lemma read_target_ext m m' target type :
  m' target = m target ->
  (stored_width type = 64 -> m' (target + 1) = m (target + 1)) ->
  read_target m' target type = read_target m target type.
Proof.
  intros H1 H2.
  destruct type; cbn [read_target stored_width] in *; unfold load_u64, load_u32;
    rewrite ?H1, ?H2 by reflexivity; reflexivity.
Qed.

Section SmmuPatch.

Context {hdr : cde_gk20a_h}.

(** The value of the local [err] at the entry of a round of the loop does
    not reach its result. *)
Lemma patch_params_from_err g src_iova indices :
  forall c err err',
    patch_params_from g c src_iova indices err
    = patch_params_from g c src_iova indices err'.
Proof.
  induction indices as [|i rest IH]; intros c err err'; [reflexivity|].
  cbn [patch_params_from]. unfold patch_value.
  destruct (reserved_param_of (param_id (params c i))) as [t|].
  - destruct t; reflexivity.
  - destruct (_ || _); [apply IH|reflexivity].
Qed.

Lemma patch_params_from_app g src_iova l1 l2 :
  forall c err,
    fst (patch_params_from g c src_iova l1 err) = 0 ->
    patch_params_from g c src_iova (l1 ++ l2) err
    = patch_params_from g (snd (patch_params_from g c src_iova l1 err)) src_iova l2 0.
Proof.
  induction l1 as [|i rest IH]; intros c err H.
  - cbn. apply patch_params_from_err.
  - cbn [Datatypes.app patch_params_from] in *.
    destruct (patch_value g c src_iova (params c i) err) as [[new_data err1]|];
      [|apply IH; exact H].
    destruct (gk20a_replace_data _ _ _ _ _ _) as [err2 d].
    destruct (Z.eqb_spec err2 0) as [->|Hne]; cbn [negb] in *; [apply IH; exact H|].
    cbn [fst] in H. contradiction.
Qed.

(** The address 0 is what the loop leaves in the target of a source
    address parameter that no later parameter overwrites. *)
Lemma patch_params_from_smmu g l1 i l2 c :
  (forall j, In j (l1 ++ i :: l2) -> known_type (param_type_of (params c j))) ->
  reserved_param_of (param_id (params c i)) = Some TYPE_PARAM_SOURCE_SMMU_ADDR ->
  is_u64 (param_mask (params c i)) ->
  (forall j k q, In j l2 -> param_writes c i k q -> ~ param_writes c j k q) ->
  let param := params c i in
  let c' := snd (patch_params_from g c 0 (l1 ++ i :: l2) 0) in
  exists new,
    read_target (data (mem c' (param_target_buf param)))
      (param_target_byte_offset param / 4) (param_type_of param) = Some new
    /\ Z.land new (param_mask param)
       = kept_bits (param_type_of param)
           (Z.land (shift_value (param_shift param) (u64 (0 + param_data_offset param)))
              (param_mask param)).
Proof.
  intros Hk Hid Hm Hlast param c'. unfold c'. clear c'.
  rewrite patch_params_from_app
    by (apply patch_params_from_succeeds; intros j Hj; apply Hk, in_or_app; left; exact Hj).
  destruct (patch_params_from_frame g 0 l1 c 0) as (Hc1 & _ & _).
  set (c1 := snd (patch_params_from g c 0 l1 0)) in *.
  assert (Hp : params c1 = params c) by (rewrite Hc1; apply params_set_mem).
  cbn [patch_params_from]. rewrite Hp. fold param.
  replace (patch_value g c1 0 param 0) with (Some (0, - EINVAL))
    by (unfold patch_value, param; rewrite Hid; reflexivity).
  assert (Hkt : known_type (param_type_of param))
    by (apply Hk, in_or_app; right; left; reflexivity).
  set (tb := param_target_buf param) in *.
  set (target := param_target_byte_offset param / 4) in *.
  destruct (read_back_after_replace (data (mem c1 tb)) target (param_type_of param)
              (param_shift param) (param_mask param)
              (u64 (0 + param_data_offset param)) Hm Hkt) as (old & _ & Hrun & Hback).
  destruct (gk20a_replace_data _ _ _ _ _ _) as [err2 d].
  cbn [snd] in Hback. injection Hrun as -> _. cbn [Z.eqb negb].
  set (c2 := set_mem c1 (aset (mem c1) tb (set_data (mem c1 tb) d))).
  assert (Hd : data (mem c2 tb) = d).
  { unfold c2. rewrite mem_set_mem, aset_same. destruct (mem c1 tb); reflexivity. }
  destruct (patch_params_from_frame g 0 l2 c2 0) as (_ & _ & Hdata).
  assert (Hcell : forall q, param_writes c i tb q ->
             data (mem (snd (patch_params_from g c2 0 l2 0)) tb) q = d q).
  { intros q Hq. rewrite Hdata; [rewrite Hd; reflexivity|].
    intros j Hj Hbuf.
    replace (params c2) with (params c) in *
      by (unfold c2; rewrite params_set_mem, Hp; reflexivity).
    pose proof (Hlast j tb q Hj Hq) as Hno. unfold param_writes in Hno.
    split.
    - intros E. apply Hno. auto.
    - destruct (Z.eq_dec q (param_target_byte_offset (params c j) / 4 + 1)) as [E|E];
        [|right; exact E].
      left. destruct (param_type_of (params c j)) eqn:Ht; cbn [stored_width];
        try reflexivity; exfalso; apply Hno; rewrite ?Ht; cbn [stored_width]; auto. }
  eexists. split.
  - rewrite <- Hback. apply read_target_ext.
    + apply Hcell. split; [reflexivity|]. left. reflexivity.
    + intros Hw. apply Hcell. split; [reflexivity|]. right. split; [exact Hw|reflexivity].
  - apply kept_masked, patched_masked.
Qed.

(** C10.  When the lookup of the source address returns 0 and the types
    of the declared parameters are ones the patcher knows,
    [gk20a_cde_patch_params] returns success.  At a parameter
    [TYPE_PARAM_SOURCE_SMMU_ADDR] the [switch] does set [err] to
    [-EINVAL]; the call of [gk20a_replace_data] that follows assigns its
    own status, 0, to [err], and the loop goes on to the next parameter.
    The address 0 (plus the constant offset of the parameter) is patched
    into the target buffer: in the context that the function leaves,
    the target of the parameter, read back with its type and masked,
    holds the masked bits of the shifted offset, provided no parameter
    declared later patches the same cells. *)
Theorem patch_params_drops_smmu_error g c :
  (forall i, 0 <= i < num_params c -> known_type (param_type_of (params c i))) ->
  let '(err, c') := gk20a_cde_patch_params g c 0 in
  err = 0
  /\ forall i,
       0 <= i < num_params c ->
       reserved_param_of (param_id (params c i)) = Some TYPE_PARAM_SOURCE_SMMU_ADDR ->
       let param := params c i in
       let target_mem := mem c (param_target_buf param) in
       (forall err0, patch_value g c 0 param err0 = Some (0, - EINVAL))
       /\ (exists d,
            gk20a_replace_data (data target_mem) (param_target_byte_offset param / 4)
              (param_type_of param) (param_shift param) (param_mask param)
              (u64 (0 + param_data_offset param)) = (0, d)
            /\ forall rest err0,
                 patch_params_from g c 0 (i :: rest) err0
                 = patch_params_from g
                     (set_mem c (aset (mem c) (param_target_buf param)
                                   (set_data target_mem d))) 0 rest 0)
       /\ (is_u64 (param_mask param) -> last_writer c i ->
           exists new,
             read_target (data (mem c' (param_target_buf param)))
               (param_target_byte_offset param / 4) (param_type_of param) = Some new
             /\ Z.land new (param_mask param)
                = kept_bits (param_type_of param)
                    (Z.land (shift_value (param_shift param)
                               (u64 (0 + param_data_offset param)))
                       (param_mask param))).
Proof.
  intros Hk.
  pose proof (patch_params_from_succeeds g 0 (upto (num_params c)) c 0) as Hok.
  assert (Hmem : forall i, 0 <= i < num_params c ->
             reserved_param_of (param_id (params c i)) = Some TYPE_PARAM_SOURCE_SMMU_ADDR ->
             is_u64 (param_mask (params c i)) -> last_writer c i ->
             exists new,
               read_target
                 (data (mem (snd (gk20a_cde_patch_params g c 0))
                          (param_target_buf (params c i))))
                 (param_target_byte_offset (params c i) / 4)
                 (param_type_of (params c i)) = Some new
               /\ Z.land new (param_mask (params c i))
                  = kept_bits (param_type_of (params c i))
                      (Z.land (shift_value (param_shift (params c i))
                                 (u64 (0 + param_data_offset (params c i))))
                         (param_mask (params c i)))).
  { intros i Hi Hid Hm Hlast. unfold gk20a_cde_patch_params.
    destruct (upto_split (num_params c) i Hi) as (l2 & -> & Hl2).
    apply (patch_params_from_smmu g (upto i) i l2 c).
    - intros j Hj. apply Hk. apply in_app_or in Hj. destruct Hj as [Hj|[<-|Hj]].
      + apply upto_spec in Hj. lia.
      + exact Hi.
      + apply Hl2 in Hj. lia.
    - exact Hid.
    - exact Hm.
    - intros j k q Hj. apply Hlast, Hl2, Hj. }
  unfold gk20a_cde_patch_params in *.
  destruct (patch_params_from g c 0 (upto (num_params c)) 0) as [err c'].
  cbn [fst snd] in *.
  split; [apply Hok; intros i Hi; apply Hk, upto_spec, Hi|].
  intros i Hi Hid.
  set (param := params c i). set (target_mem := mem c (param_target_buf param)).
  assert (Hv : forall err0, patch_value g c 0 param err0 = Some (0, - EINVAL)).
  { intros err0. unfold patch_value, param. rewrite Hid. reflexivity. }
  split; [exact Hv|]. split.
  - destruct (replace_data_known (data target_mem)
                (param_target_byte_offset param / 4) (param_type_of param)
                (param_shift param) (param_mask param)
                (u64 (0 + param_data_offset param))) as [d Hd];
      [apply Hk, Hi|].
    exists d. split; [exact Hd|]. intros rest err0.
    cbn [patch_params_from]. fold param. rewrite Hv. fold target_mem.
    rewrite Hd. reflexivity.
  - intros Hm Hlast. exact (Hmem i Hi Hid Hm Hlast).
Qed.

End SmmuPatch.

(** A conversion whose source has no SMMU address: the patching succeeds
    and the 64-bit field, all ones before, holds the address 0. *)
Lemma patch_params_drops_smmu_error_witness :
  (forall i, 0 <= i < num_params smmu_ctx ->
             known_type (param_type_of (params smmu_ctx i)))
  /\ load_u64 (data (mem smmu_ctx 0)) 0 = 2 ^ 64 - 1
  /\ let '(err, c') :=
       gk20a_cde_patch_params (hdr := header_with_slots 1) example_hw smmu_ctx 0 in
     err = 0 /\ load_u64 (data (mem c' 0)) 0 = 0.
Proof.
  assert (Hk : forall i, 0 <= i < num_params smmu_ctx ->
                         known_type (param_type_of (params smmu_ctx i))).
  { intros i Hi. change (num_params smmu_ctx) with 1 in Hi.
    replace i with 0 by lia. exact I. }
  split; [exact Hk|]. split; [vm_compute; reflexivity|].
  pose proof (patch_params_drops_smmu_error (hdr := header_with_slots 1)
                example_hw smmu_ctx Hk) as H.
  destruct (gk20a_cde_patch_params (hdr := header_with_slots 1) example_hw smmu_ctx 0)
    as [err c'].
  destruct H as [Herr Hsmmu]. split; [exact Herr|].
  destruct (Hsmmu 0 ltac:(cbn; lia) eq_refl) as (_ & _ & Hmem).
  destruct Hmem as (new & Hread & Hland).
  - split; [apply Z.leb_le|apply Z.ltb_lt]; vm_compute; reflexivity.
  - intros j k q Hj. change (num_params smmu_ctx) with 1 in Hj. lia.
  - cbn [read_target param_type_of params smmu_ctx] in Hread.
    change (read_target (data (mem c' 0)) 0 TYPE_PARAM_TYPE_U64_LITTLE = Some new)
      in Hread.
    cbn [read_target] in Hread. injection Hread as Hread.
    rewrite Hread.
    change (Z.land new (Z.ones 64) = 0) in Hland.
    rewrite Z.land_ones in Hland by lia.
    rewrite <- Hread in Hland |- *.
    rewrite Z.mod_small in Hland by (apply load_u64_range). exact Hland.
Defined.
(** ** Conversion, continued *)

Lemma submissions_app a b : submissions (a ++ b) = submissions a ++ submissions b.
Proof. apply List.filter_app. Qed.

Section ConvertMore.

Context {hdr : cde_gk20a_h}.

Lemma patch_params_keeps_commands g c src_iova :
  let c' := snd (gk20a_cde_patch_params g c src_iova) in
  ch c' = ch c /\ init_cmd c' = init_cmd c /\ convert_cmd c' = convert_cmd c
  /\ init_cmd_num_entries c' = init_cmd_num_entries c
  /\ convert_cmd_num_entries c' = convert_cmd_num_entries c.
Proof.
  cbv zeta. unfold gk20a_cde_patch_params.
  destruct (patch_params_from_frame g src_iova (upto (num_params c)) c 0) as (H & _).
  rewrite H. destruct c; repeat split.
Qed.

Lemma convert_locked_success g a idx src dst_vaddr src_vaddr dst_byte_offset dst_size
    flags params e ev0 app' fence ev :
  convert_locked g a idx src dst_vaddr src_vaddr dst_byte_offset dst_size flags params e ev0
  = (0, app', fence, ev) ->
  fence = Some (env_fence_out e)
  /\ Forall in_user_range params
  /\ (exists init conv,
        init_cmd (cde_ctx a idx) = Some init /\ convert_cmd (cde_ctx a idx) = Some conv
        /\ init_cmd_num_entries (cde_ctx a idx) <> 0
        /\ convert_cmd_num_entries (cde_ctx a idx) <> 0
        /\ submissions ev
           = submissions ev0
             ++ [ gk20a_submit_channel_gpfifo (ch (cde_ctx a idx)) init
                    (init_cmd_num_entries (cde_ctx a idx)) 0 0;
                  gk20a_submit_channel_gpfifo (ch (cde_ctx a idx)) conv
                    (convert_cmd_num_entries (cde_ctx a idx))
                    (Z.lor flags NVHOST_SUBMIT_GPFIFO_FLAGS_FENCE_GET) 0 ])
  /\ cde_ctx_ptr app' = cde_ctx_ptr a
  /\ (forall i, i <> idx -> cde_ctx app' i = cde_ctx a i).
Proof.
  intros Hrun. unfold convert_locked, exit_unlock in Hrun.
  destruct (Z.eqb_spec (env_channel_finish e) 0) as [Hcf|Hcf]; cbn [negb] in Hrun;
    [|injection Hrun as E _ _ _; contradiction].
  match type of Hrun with
  | context [read_user_params ?v params] =>
      pose proof (read_user_params_accepts params v) as Hacc;
      destruct (read_user_params v params) as [ok values]
  end.
  cbn [fst] in Hacc.
  destruct ok; cbn [negb] in Hrun; [|injection Hrun as E _ _ _; not_ok E].
  match type of Hrun with
  | context [gk20a_cde_patch_params g ?c1 ?iova] =>
      pose proof (patch_params_keeps_commands g c1 iova) as Hkeep;
      assert (Hc1 : ch c1 = ch (cde_ctx a idx)
                    /\ init_cmd c1 = init_cmd (cde_ctx a idx)
                    /\ convert_cmd c1 = convert_cmd (cde_ctx a idx)
                    /\ init_cmd_num_entries c1 = init_cmd_num_entries (cde_ctx a idx)
                    /\ convert_cmd_num_entries c1 = convert_cmd_num_entries (cde_ctx a idx))
        by (destruct (cde_ctx a idx); repeat split);
      destruct (gk20a_cde_patch_params g c1 iova) as [err c2]
  end.
  cbv zeta in Hkeep. cbn [snd] in Hkeep.
  destruct Hkeep as (K1 & K2 & K3 & K4 & K5). destruct Hc1 as (L1 & L2 & L3 & L4 & L5).
  rewrite L1 in K1. rewrite L2 in K2. rewrite L3 in K3. rewrite L4 in K4. rewrite L5 in K5.
  destruct (Z.eqb_spec err 0) as [->|Hne]; cbn [negb] in Hrun;
    [|injection Hrun as E _ _ _; contradiction].
  unfold gk20a_cde_execute_buffer in Hrun. rewrite K1, K2, K3, K4, K5 in Hrun.
  destruct (init_cmd (cde_ctx a idx)) as [init|];
    [|injection Hrun as E _ _ _; not_ok E].
  destruct (Z.eqb_spec (init_cmd_num_entries (cde_ctx a idx)) 0) as [|Hin];
    [injection Hrun as E _ _ _; not_ok E|].
  destruct (Z.eqb_spec (env_submit_init e) 0) as [Hsi|Hsi]; cbn [negb] in Hrun;
    [|injection Hrun as E _ _ _; contradiction].
  destruct (convert_cmd (cde_ctx a idx)) as [conv|];
    [|injection Hrun as E _ _ _; not_ok E].
  destruct (Z.eqb_spec (convert_cmd_num_entries (cde_ctx a idx)) 0) as [|Hcn];
    [injection Hrun as E _ _ _; not_ok E|].
  injection Hrun as Hsc <- <- <-. rewrite Hsc, Hsi. cbn [Z.eqb].
  split; [reflexivity|]. split; [apply Hacc; reflexivity|].
  split.
  { exists init, conv. repeat (split; [first [reflexivity|assumption]|]).
    rewrite !submissions_app. cbn.
    destruct (negb (dst_vaddr =? 0)), (negb (src_vaddr =? 0)); cbn;
      rewrite ?app_nil_r, <- ?app_assoc; reflexivity. }
  split; [destruct a; reflexivity|].
  intros i Hi. apply cde_ctx_set_ctx_other. exact Hi.
Qed.

(** X21.  A conversion that returns 0 on an initialised pool whose
    channel has not timed out: its arguments were all in the user range,
    both command lists of the selected context were ready, and each was
    submitted once to the channel of that context, the init list first
    and with no flags, the convert list with the caller's flags and the
    request for a post-fence; that fence is what the caller gets.  The
    pointer has moved to the next slot, and no other slot was touched. *)
Theorem convert_success_submits_both g app src dst dst_kind dst_byte_offset dst_size
    flags params e app' fence ev :
  initialised app = true ->
  env_has_timedout e = false ->
  gk20a_cde_convert g app src dst dst_kind dst_byte_offset dst_size flags params e
  = (0, app', fence, ev) ->
  let c := cde_ctx app (cde_ctx_ptr app) in
  fence = Some (env_fence_out e)
  /\ Forall in_user_range params
  /\ (exists init conv,
        init_cmd c = Some init /\ convert_cmd c = Some conv
        /\ init_cmd_num_entries c <> 0 /\ convert_cmd_num_entries c <> 0
        /\ submissions ev
           = [ gk20a_submit_channel_gpfifo (ch c) init (init_cmd_num_entries c) 0 0;
               gk20a_submit_channel_gpfifo (ch c) conv (convert_cmd_num_entries c)
                 (Z.lor flags NVHOST_SUBMIT_GPFIFO_FLAGS_FENCE_GET) 0 ])
  /\ cde_ctx_ptr app' = (cde_ctx_ptr app + 1) mod NUM_CDE_CTX
  /\ (forall i, i <> cde_ctx_ptr app -> cde_ctx app' i = cde_ctx app i).
Proof.
  intros Hinit Hto Hrun. cbv zeta.
  unfold gk20a_cde_convert in Hrun. rewrite Hinit, Hto in Hrun. cbn [negb] in Hrun.
  unfold exit_unlock in Hrun.
  destruct (Z.eqb_spec (env_dst_drvdata e) 0) as [Hdd|Hdd]; cbn [negb] in Hrun;
    [|injection Hrun as E _ _ _; contradiction].
  destruct (env_dst_vaddr e =? 0); [injection Hrun as E _ _ _; not_ok E|].
  destruct (Z.eqb_spec (env_src_drvdata e) 0) as [Hsd|Hsd]; cbn [negb] in Hrun;
    [|injection Hrun as E _ _ _; contradiction].
  destruct (env_src_vaddr e =? 0); [injection Hrun as E _ _ _; not_ok E|].
  fold (advanced app) in Hrun.
  destruct (convert_locked_success _ _ _ _ _ _ _ _ _ _ _ _ _ _ _ Hrun)
    as (Hf & Hp & (init & conv & Hi & Hc & Hin & Hcn & Hs) & Hptr & Hother).
  assert (Hadv : cde_ctx (advanced app) = cde_ctx app) by (destruct app; reflexivity).
  rewrite Hadv in *.
  split; [exact Hf|]. split; [exact Hp|]. split.
  { exists init, conv. repeat (split; [assumption|]). rewrite Hs. reflexivity. }
  split; [rewrite Hptr; destruct app; reflexivity|exact Hother].
Qed.

End ConvertMore.

(** A conversion on a pool of one slot loaded from the example image. *)
Lemma convert_success_submits_both_witness :
  exists app' ev init conv,
    gk20a_cde_convert (hdr := header_with_slots 1) example_hw (loaded_app 1)
      example_dmabuf example_dmabuf 0 0 0 0 [] example_convert_env
    = (0, app', Some 11, ev)
    /\ submissions ev
       = [ gk20a_submit_channel_gpfifo 5 init 1 0 0;
           gk20a_submit_channel_gpfifo 5 conv 1 2 0 ].
Proof.
  destruct (gk20a_cde_convert (hdr := header_with_slots 1) example_hw (loaded_app 1)
              example_dmabuf example_dmabuf 0 0 0 0 [] example_convert_env)
    as [[[err app'] fence] ev] eqn:Hrun.
  assert (Herr : err = 0).
  { change err with (fst (fst (fst (err, app', fence, ev)))). rewrite <- Hrun.
    vm_compute. reflexivity. }
  subst err.
  destruct (convert_success_submits_both (hdr := header_with_slots 1) example_hw
              (loaded_app 1) example_dmabuf example_dmabuf 0 0 0 0 []
              example_convert_env app' fence ev
              ltac:(vm_compute; reflexivity) eq_refl Hrun)
    as (Hf & _ & (init & conv & _ & _ & _ & _ & Hs) & _).
  exists app', ev, init, conv. rewrite Hf. split; [reflexivity|]. exact Hs.
Defined.


(** From the last slot of a pool of two the pointer wraps to slot 0. *)
Lemma convert_keeps_pointer_in_pool_witness :
  let app := set_cde_ctx_ptr (loaded_app 2) 1 in
  let app' := snd (fst (fst (gk20a_cde_convert (hdr := header_with_slots 2) example_hw app
                               example_dmabuf example_dmabuf 0 0 0 0 []
                               example_convert_env))) in
  0 <= cde_ctx_ptr app' < 2.
Proof.
  apply (convert_keeps_pointer_in_pool (hdr := header_with_slots 2) example_hw
           (set_cde_ctx_ptr (loaded_app 2) 1) example_dmabuf example_dmabuf 0 0 0 0 []
           example_convert_env).
  - reflexivity.
  - vm_compute. reflexivity.
Defined.

(** The pools of the examples hold a channel in every slot: their
    reloads, conversions and removals read no channel [NULL]. *)
Example example_runs_read_no_null_channel :
  faults (snd (gk20a_cde_reload (hdr := header_with_slots 2) example_hw (loaded_app 2)
                 first_slot_fails)) = false
  /\ faults (snd (gk20a_cde_reload (hdr := header_with_slots 1) example_hw (loaded_app 1)
                    (fun _ => no_firmware_env))) = false
  /\ faults (snd (gk20a_cde_convert (hdr := header_with_slots 1) example_hw (loaded_app 1)
                    example_dmabuf example_dmabuf 0 0 0 0 [] timed_out_env)) = false
  /\ faults (snd (gk20a_cde_convert (hdr := header_with_slots 1) example_hw (loaded_app 1)
                    example_dmabuf example_dmabuf 0 0 0 0 [] example_convert_env)) = false
  /\ faults (snd (gk20a_cde_destroy (hdr := header_with_slots 2) example_hw
                    (loaded_app 2))) = false.
Proof. repeat split; vm_compute; reflexivity. Qed.
(** ** Launch geometry, continued *)

Lemma roundup_small x y :
  0 <= x -> 0 < y -> x + y < 2 ^ 31 ->
  roundup x y = (x + (y - 1)) / y * y.
Proof.
  intros Hx Hy Hs. unfold roundup.
  rewrite (s32_small (x + (y - 1))) by lia.
  rewrite Z.quot_div_nonneg by lia.
  apply s32_small.
  pose proof (Z.mul_div_le (x + (y - 1)) y Hy).
  pose proof (Z.div_pos (x + (y - 1)) y ltac:(lia) Hy). nia.
Qed.

Section GeometryMore.

Context {hdr : cde_gk20a_h}.

(** X24.  For a surface of at most [2^31 - 9] by [2^31 - 9] pixels, the
    launch covers the surface: the tiles of 8 by 8 pixels cover the
    (transposed) width and height, the tile pitch holds the compression
    bits of a row of tiles at four tiles a byte, and the grid of work
    groups of 16 by 8 is exactly the tile pitch by the aligned number of
    tile rows. *)
Theorem launch_grid_covers_surface consumer width height :
  0 <= width < 2 ^ 31 - 8 -> 0 <= height < 2 ^ 31 - 8 ->
  let geo := compute_geometry consumer width height in
  let w := if transpose geo then height else width in
  let h := if transpose geo then width else height in
  w <= 8 * xtiles geo < w + 8
  /\ h <= 8 * ytiles geo < h + 8
  /\ xtiles geo <= 4 * tilepitch geo
  /\ ytiles geo <= ytilesaligned geo
  /\ gridw geo * wgx geo = tilepitch geo
  /\ gridh geo * wgy geo = ytilesaligned geo.
Proof.
  intros Hw Hh. cbv zeta. unfold compute_geometry.
  cbn [transpose xtiles ytiles tilepitch ytilesaligned gridw gridh wgx wgy].
  assert (Hgen : forall w h,
             0 <= w < 2 ^ 31 - 8 -> 0 <= h < 2 ^ 31 - 8 ->
             let xt := Z.shiftr (s32 (s32 w + 7)) 3 in
             let yt := Z.shiftr (s32 (s32 h + 7)) 3 in
             let tp := Z.quot (roundup xt (4 * 16)) 4 in
             let ya := roundup yt 8 in
             w <= 8 * xt < w + 8 /\ h <= 8 * yt < h + 8
             /\ xt <= 4 * tp /\ yt <= ya
             /\ Z.quot (roundup tp 16) 16 * 16 = tp
             /\ Z.quot (roundup ya 8) 8 * 8 = ya).
  { clear. intros w h Hw Hh. cbv zeta.
    rewrite (s32_small w), (s32_small h) by lia.
    rewrite (s32_small (w + 7)), (s32_small (h + 7)) by lia.
    rewrite !Z.shiftr_div_pow2 by lia. change (2 ^ 3) with 8. change (4 * 16) with 64.
    pose proof (Z.div_mod (w + 7) 8 ltac:(lia)) as Dw.
    pose proof (Z.mod_pos_bound (w + 7) 8 ltac:(lia)) as Mw.
    pose proof (Z.div_mod (h + 7) 8 ltac:(lia)) as Dh.
    pose proof (Z.mod_pos_bound (h + 7) 8 ltac:(lia)) as Mh.
    set (xt := (w + 7) / 8) in *. set (yt := (h + 7) / 8) in *.
    assert (Hxt : 0 <= xt < 2 ^ 28) by lia.
    assert (Hyt : 0 <= yt < 2 ^ 28) by lia.
    rewrite (roundup_small xt 64), (roundup_small yt 8) by lia.
    pose proof (Z.div_mod (xt + (64 - 1)) 64 ltac:(lia)) as Dx.
    pose proof (Z.mod_pos_bound (xt + (64 - 1)) 64 ltac:(lia)) as Mx.
    pose proof (Z.div_mod (yt + (8 - 1)) 8 ltac:(lia)) as Dy.
    pose proof (Z.mod_pos_bound (yt + (8 - 1)) 8 ltac:(lia)) as My.
    set (k := (xt + (64 - 1)) / 64) in *. set (j := (yt + (8 - 1)) / 8) in *.
    assert (Hk : 0 <= k < 2 ^ 23) by lia.
    assert (Hj : 0 <= j < 2 ^ 26) by lia.
    replace (k * 64) with (k * 16 * 4) by ring.
    rewrite Z.quot_mul by lia.
    rewrite (roundup_small (k * 16) 16), (roundup_small (j * 8) 8) by lia.
    replace (k * 16 + (16 - 1)) with (15 + k * 16) by ring.
    replace (j * 8 + (8 - 1)) with (7 + j * 8) by ring.
    rewrite !Z.div_add by lia.
    change (15 / 16) with 0. change (7 / 8) with 0. cbn [Z.add].
    rewrite !Z.quot_mul by lia.
    repeat split; lia. }
  destruct (consumer =? NVHOST_GPU_COMPBITS_CDEV).
  - apply (Hgen height width); assumption.
  - apply (Hgen width height); assumption.
Qed.

End GeometryMore.

(** A surface of 1920 by 1080 pixels: 240 by 135 tiles, a pitch of 64
    bytes, 136 aligned rows, a grid of 4 by 17. *)
Lemma launch_grid_covers_surface_witness :
  let geo := compute_geometry (hdr := header_with_slots 1) 2 1920 1080 in
  1920 <= 8 * xtiles geo /\ 1080 <= 8 * ytiles geo
  /\ gridw geo * wgx geo = tilepitch geo /\ gridh geo * wgy geo = ytilesaligned geo
  /\ gridw geo = 4 /\ gridh geo = 17.
Proof.
  destruct (launch_grid_covers_surface (hdr := header_with_slots 1) 2 1920 1080
              ltac:(lia) ltac:(lia)) as ([H1 _] & [H2 _] & _ & _ & H5 & H6).
  cbv zeta. split; [exact H1|]. split; [exact H2|]. split; [exact H5|].
  split; [exact H6|]. split; reflexivity.
Defined.
(** ** The compression-state tracker, continued *)

Section TrackerMore.

Context {hdr : cde_gk20a_h}.



(** X26.  The fast path.  The pool is initialised and the state of the
    surface is found; the request is not the one for "none" on a surface
    with valid bits; and either no requested bit is missing or the GPU
    bits of the surface are not valid.  Then no conversion is run: the
    function only takes and releases the lock of the state, leaves the
    state and the pool as they are, and hands out the valid bits and the
    tracked fence where the caller asked for them. *)
Theorem prepare_read_fast_path g app state buffer_fd request offset
    compbits_hoffset compbits_voffset width height block_height_log2 submit_flags
    (want_valid_compbits want_fence_out : bool) e dmabuf :
  initialised app = true ->
  env_dmabuf e = Some dmabuf ->
  env_get_state e = 0 ->
  valid_compbits state = 0 \/ request <> NVHOST_GPU_COMPBITS_NONE ->
  Z.land (Z.lxor (valid_compbits state) request) request = 0
  \/ Z.land (valid_compbits state) NVHOST_GPU_COMPBITS_GPU = 0 ->
  let give_fence := match fence state with
                    | Some f => if want_fence_out then Some f else None
                    | None => None
                    end in
  gk20a_prepare_compressible_read g app state buffer_fd request offset
    compbits_hoffset compbits_voffset width height block_height_log2 submit_flags
    want_valid_compbits want_fence_out e
  = {| ret := 0; app_after := app; state_after := Some state;
       valid_compbits_out :=
         if want_valid_compbits then Some (valid_compbits state) else None;
       fence_out := give_fence;
       events := [ dma_buf_get buffer_fd true;
                   gk20a_dmabuf_get_state dmabuf offset 0;
                   state_mutex_lock ]
                 ++ match give_fence with Some f => [gk20a_fence_get f] | None => [] end
                 ++ [ state_mutex_unlock; dma_buf_put dmabuf ] |}.
Proof.
  intros Hinit Hbuf Hst Hreq Hfast. cbv zeta.
  unfold gk20a_prepare_compressible_read. rewrite Hinit, Hbuf, Hst. cbn [negb Z.eqb].
  assert (Hnone : negb (valid_compbits state =? 0)
                  && (request =? NVHOST_GPU_COMPBITS_NONE) = false).
  { destruct Hreq as [E|E].
    - rewrite E. reflexivity.
    - apply Z.eqb_neq in E. rewrite E. apply andb_false_r. }
  rewrite Hnone.
  assert (Hmid :
            (if negb (Z.land (Z.lxor (valid_compbits state) request) request =? 0) then
               let '(ok, app0, state0, new_fence, ev1) :=
                 convert_missing g app state None dmabuf
                   (Z.land (Z.lxor (valid_compbits state) request) request)
                   NVHOST_GPU_COMPBITS_CDEH offset compbits_hoffset width height
                   block_height_log2 submit_flags (env_cdeh e) in
               if negb ok then (false, app0, state0, new_fence, ev1)
               else
                 let '(ok0, app1, state1, new_fence0, ev2) :=
                   convert_missing g app0 state0 new_fence dmabuf
                     (Z.land (Z.lxor (valid_compbits state) request) request)
                     NVHOST_GPU_COMPBITS_CDEV offset compbits_voffset width height
                     block_height_log2 submit_flags (env_cdev e) in
                 (ok0, app1, state1, new_fence0, ev1 ++ ev2)
             else (true, app, state, None, []))
            = (true, app, state, None, [])).
  { destruct (Z.eqb_spec (Z.land (Z.lxor (valid_compbits state) request) request) 0)
      as [E|E]; cbn [negb]; [reflexivity|].
    destruct Hfast as [F|F]; [contradiction|].
    unfold convert_missing. rewrite F. cbn [Z.eqb negb andb]. rewrite F. reflexivity. }
  rewrite Hmid. cbn [negb]. unfold prepare_out.
  destruct (fence state) as [f|]; [destruct want_fence_out|]; reflexivity.
Qed.

End TrackerMore.

(** A surface whose GPU and horizontal bits are valid is read for its
    horizontal bits. *)
Lemma prepare_read_fast_path_witness :
  let state := {| valid_compbits := 3; fence := Some 9 |} in
  let r := gk20a_prepare_compressible_read (hdr := header_with_slots 1) example_hw
             (loaded_app 1) state 3 2 0 0 0 128 64 0 0 true true example_prepare_env in
  ret r = 0 /\ state_after r = Some state /\ valid_compbits_out r = Some 3
  /\ fence_out r = Some 9.
Proof.
  cbv zeta.
  rewrite (prepare_read_fast_path (hdr := header_with_slots 1) example_hw
             (loaded_app 1) {| valid_compbits := 3; fence := Some 9 |} 3 2 0 0 0 128 64
             0 0 true true example_prepare_env example_dmabuf
             ltac:(vm_compute; reflexivity) eq_refl eq_refl
             ltac:(right; discriminate) ltac:(left; reflexivity)).
  repeat split.
Defined.

(** ** Power references *)









Section Power.

Context {hdr : cde_gk20a_h}.













End Power.

(** ** The engine and the tracker *)






Section Engine_only.

Context {hdr : cde_gk20a_h}.












End Engine_only.

Section TrackerLocks.

Context {hdr : cde_gk20a_h}.



End TrackerLocks.
